(** * go-ovmgmt: the event path of the OpenVPN management client

    A shallow embedding of package [ovmgmt]: the event factory
    ([splitEvent], [upgradeEvent], [upgradeMultilineEvent] and the
    constructors they call), the multi-line assembler ([eventScanner]),
    the status-3 snapshot parser and poller, and the verbosity command.

    Conventions.
    - A Go [string] is a [string] (a sequence of bytes); a slice is a
      [list]; a map is a [gmap]; [int] and [int64] are [Z].
    - A Go result [(T, error)] is a pair [T * option error], [None] being
      the nil error.
    - A run-time panic (index out of range, slice bounds, nil pointer) is
      explicit: every function that indexes or slices returns in
      [outcome], and a totality theorem says the outcome is [Ret].
    - A channel is the list of values sent on it, oldest first. *)

From Stdlib Require Import ZArith Strings.String Strings.Ascii List Lia.
From Stdlib Require Import Numbers.DecimalString.
From Stdlib Require Decimal DecimalPos DecimalZ.
From stdpp Require Import base option list strings gmap.

Local Open Scope string_scope.
Local Open Scope list_scope.
Local Open Scope Z_scope.

(** ** Run-time panics *)

Inductive panic : Set :=
| IndexOutOfRange
| SliceBoundsOutOfRange
| NilPointerDereference.

Inductive outcome (A : Type) : Type :=
| Ret (a : A)
| Panics (p : panic).
Arguments Ret {A} a.
Arguments Panics {A} p.

#[global] Instance outcome_ret : MRet outcome := fun _ a => Ret a.
#[global] Instance outcome_bind : MBind outcome := fun _ _ f m =>
  match m with
  | Ret a => f a
  | Panics p => Panics p
  end.

Definition returns {A} (m : outcome A) : Prop := exists a, m = Ret a.

(** [l[i]] on a slice. *)
Definition at_index {A} (l : list A) (i : nat) : outcome A :=
  match l !! i with
  | Some x => Ret x
  | None => Panics IndexOutOfRange
  end.

(** [l[i:]] on a slice. *)
Definition slice_from {A} (l : list A) (i : nat) : outcome (list A) :=
  if decide (i <= length l)%nat then Ret (drop i l) else Panics SliceBoundsOutOfRange.

(** [s[:i]] and [s[i:]] on a string. *)
Definition str_to (s : string) (i : nat) : outcome string :=
  if decide (i <= String.length s)%nat then Ret (substring 0 i s)
  else Panics SliceBoundsOutOfRange.

Definition str_from (s : string) (i : nat) : outcome string :=
  if decide (i <= String.length s)%nat then Ret (substring i (String.length s - i) s)
  else Panics SliceBoundsOutOfRange.

(** [buf := make([]string, k); copy(buf, parts)] for [len(parts) <= k]. *)
Definition make_copy (k : nat) (parts : list string) : list string :=
  take k parts ++ replicate (k - length parts) "".

(** ** Package strings of the Go standard library *)

Fixpoint HasPrefix (s prefix : string) {struct prefix} : bool :=
  match prefix, s with
  | EmptyString, _ => true
  | String _ _, EmptyString => false
  | String a p, String b s' => if Ascii.eqb a b then HasPrefix s' p else false
  end.

(** [strings.Index]: [None] is Go's -1. *)
Fixpoint Index_from (i : nat) (s sep : string) : option nat :=
  if HasPrefix s sep then Some i
  else match s with
       | EmptyString => None
       | String _ s' => Index_from (S i) s' sep
       end.

Definition Index (s sep : string) : option nat := Index_from 0 s sep.

(** [strings.LastIndexByte]. *)
Fixpoint LastIndexByte_from (i : nat) (s : string) (c : ascii) : option nat :=
  match s with
  | EmptyString => None
  | String b s' =>
      match LastIndexByte_from (S i) s' c with
      | Some j => Some j
      | None => if Ascii.eqb b c then Some i else None
      end
  end.

Definition LastIndexByte (s : string) (c : ascii) : option nat :=
  LastIndexByte_from 0 s c.

(** The loop of [strings.genSplit] for a non-empty separator: at most
    [fuel] cuts, the rest of the string is the last part. *)
Fixpoint split_cuts (fuel : nat) (s sep : string) : list string :=
  match fuel with
  | O => [s]
  | S fuel' =>
      match Index s sep with
      | None => [s]
      | Some m =>
          substring 0 m s
            :: split_cuts fuel'
                 (substring (m + String.length sep)
                    (String.length s - (m + String.length sep)) s) sep
      end
  end.

(** [strings.SplitN(s, sep, n)].  Every separator of this package is a
    one-byte constant; the empty separator (Go: one part per UTF-8
    sequence) is never used and is left as a single part. *)
Definition SplitN (s sep : string) (n : Z) : list string :=
  if n =? 0 then []
  else if String.eqb sep "" then [s]
  else if n <? 0 then split_cuts (String.length s) s sep
  else split_cuts (Z.to_nat (n - 1)) s sep.

(** [strings.Split(s, sep)] is [SplitN(s, sep, -1)]. *)
Definition Split (s sep : string) : list string := SplitN s sep (-1).

(** [strings.Join]. *)
Fixpoint Join (elems : list string) (sep : string) : string :=
  match elems with
  | [] => ""
  | [e] => e
  | e :: rest => e +:+ sep +:+ Join rest sep
  end.

(** ** Errors *)

Inductive NumErrorKind : Set := ErrSyntax | ErrRange.

Inductive error : Set :=
| NumError (Func Num : string) (Err : NumErrorKind)  (* *strconv.NumError *)
| AddrError (Err Addr : string)                      (* *net.AddrError *)
| OVpnError (msg : string)                           (* *OVpnError *)
| errorString (msg : string).                        (* errors.New, fmt.Errorf *)

Definition NewOVpnError (m : string) : error := OVpnError m.

(** ** Package strconv of the Go standard library *)

Definition digit_of (c : ascii) : option Z :=
  let n := Z.of_N (N_of_ascii c) in
  if (48 <=? n) && (n <=? 57) then Some (n - 48) else None.

Definition maxUint64 : Z := 2 ^ 64 - 1.

(** The digit loop of [strconv.ParseUint(s, 10, 64)]: it stops at the first
    byte that is no digit (syntax) or at the first overflow (range),
    whichever comes first. *)
Fixpoint parse_digits (acc : Z) (s : string) : Z + NumErrorKind :=
  match s with
  | EmptyString => inl acc
  | String c s' =>
      match digit_of c with
      | None => inr ErrSyntax
      | Some d =>
          if maxUint64 / 10 + 1 <=? acc then inr ErrRange
          else if maxUint64 <? acc * 10 + d then inr ErrRange
          else parse_digits (acc * 10 + d) s'
      end
  end.

Definition ParseUint10 (s : string) : Z + NumErrorKind :=
  match s with
  | EmptyString => inr ErrSyntax
  | _ => parse_digits 0 s
  end.

(** [strconv.ParseInt(s, 10, 64)], with the name of the calling function
    recorded in the error ([fn] is "ParseInt" or "Atoi"). *)
Definition parse_int (fn : string) (s : string) : Z * option error :=
  match s with
  | EmptyString => (0, Some (NumError fn s ErrSyntax))
  | String c s' =>
      let neg := Ascii.eqb c "-" in
      let digits := if Ascii.eqb c "+" || neg then s' else s in
      match ParseUint10 digits with
      | inr ErrSyntax => (0, Some (NumError fn s ErrSyntax))
      | inr ErrRange =>
          if neg then (- 2 ^ 63, Some (NumError fn s ErrRange))
          else (2 ^ 63 - 1, Some (NumError fn s ErrRange))
      | inl un =>
          if negb neg && (2 ^ 63 <=? un) then (2 ^ 63 - 1, Some (NumError fn s ErrRange))
          else if neg && (2 ^ 63 <? un) then (- 2 ^ 63, Some (NumError fn s ErrRange))
          else (if neg then - un else un, None)
      end
  end.

Definition ParseInt (s : string) : Z * option error := parse_int "ParseInt" s.
Definition Atoi (s : string) : Z * option error := parse_int "Atoi" s.

(** [strconv.Itoa]. *)
Definition Itoa (i : Z) : string := NilZero.string_of_int (Z.to_int i).

(** [strconv.ParseBool]. *)
Definition ParseBool (s : string) : bool * option error :=
  if bool_decide (s ∈ ["1"; "t"; "T"; "TRUE"; "true"; "True"]) then (true, None)
  else if bool_decide (s ∈ ["0"; "f"; "F"; "FALSE"; "false"; "False"]) then (false, None)
  else (false, Some (NumError "ParseBool" s ErrSyntax)).

(** ** Constants of the package *)

Definition newlineSep : string := String (ascii_of_nat 10) "".
Definition successPrefix : string := "SUCCESS: ".
Definition errorPrefix : string := "ERROR: ".
Definition endMessage : string := "END".

Definition eventSep : string := ":".
Definition fieldSep : string := ",".
Definition byteCountEventKW : string := "BYTECOUNT".
Definition byteCountCliEventKW : string := "BYTECOUNT_CLI".
Definition echoEventKW : string := "ECHO".
Definition fatalEventKW : string := "FATAL".
Definition holdEventKW : string := "HOLD".
Definition infoEventKW : string := "INFO".
Definition logEventKW : string := "LOG".
Definition needOkEventKW : string := "NEED-OK".
Definition needStrEventKW : string := "NEED-STR".
Definition passwordEventKW : string := "PASSWORD".
Definition stateEventKW : string := "STATE".
Definition clientEventKW : string := "CLIENT".

Definition clientEnvMarker : string := "ENV".
Definition clientEnvKVSep : string := "=".

(** [eventEndMarker] is a string type. *)
Definition eventEndMarker : Set := string.
Definition emSingleLine : eventEndMarker := "".
Definition emClient : eventEndMarker :=
  clientEventKW +:+ eventSep +:+ clientEnvMarker +:+ fieldSep +:+ endMessage.

Definition ErrNoMsgFieldSep : error :=
  NewOVpnError ("no field sep '" +:+ fieldSep +:+ "' found").

(** [stringsSplitNK]: [strings.SplitN], padded with empty strings up to
    [k] parts. *)
Definition stringsSplitNK (s sep : string) (n k : Z) : list string :=
  let parts := SplitN s sep n in
  if k <=? Z.of_nat (length parts) then parts
  else make_copy (Z.to_nat k) parts.

(** ** Event types *)

Module HoldEvent.
Record t : Set := mk { body : string }.
Definition Raw (e : t) : string := body e.
End HoldEvent.

Definition NewHoldEvent (body : string) : HoldEvent.t := HoldEvent.mk body.

Module LogEvent.
Record t : Set := mk { body : string; bodyParts : list string; ts : Z }.
Definition Raw (e : t) : string := body e.
Definition Timestamp (e : t) : Z := ts e.
Definition RawFlags (e : t) : outcome string := at_index (bodyParts e) 1.
Definition Message (e : t) : outcome string := at_index (bodyParts e) 2.
End LogEvent.

Definition NewLogEvent (body : string) : outcome (LogEvent.t * option error) :=
  let bodyParts := stringsSplitNK body fieldSep 3 3 in
  p0 ← at_index bodyParts 0;
  let '(ts, err) := ParseInt p0 in
  mret (LogEvent.mk body bodyParts ts, err).

Module StateEvent.
Record t : Set := mk { body : string; bodyParts : list string; ts : Z }.
Definition Raw (e : t) : string := body e.
Definition Timestamp (e : t) : Z := ts e.
Definition Name (e : t) : outcome string := at_index (bodyParts e) 1.
Definition Description (e : t) : outcome string := at_index (bodyParts e) 2.
Definition LocalTunnelAddr (e : t) : outcome string := at_index (bodyParts e) 3.
Definition RemoteAddr (e : t) : outcome string := at_index (bodyParts e) 4.
End StateEvent.

Definition NewStateEvent (body : string) : outcome (StateEvent.t * option error) :=
  let bodyParts := stringsSplitNK body fieldSep 9 5 in
  p0 ← at_index bodyParts 0;
  let '(ts, err) := ParseInt p0 in
  mret (StateEvent.mk body bodyParts ts, err).

Module EchoEvent.
Record t : Set := mk { body : string; ts : Z; msg : string }.
Definition Raw (e : t) : string := body e.
Definition Timestamp (e : t) : Z := ts e.
Definition Message (e : t) : string := msg e.
End EchoEvent.

Definition NewEchoEvent (body : string) : outcome (EchoEvent.t * option error) :=
  match Index body fieldSep with
  | None => mret (EchoEvent.mk body 0 "", Some ErrNoMsgFieldSep)
  | Some sepIndex =>
      msg ← str_from body (sepIndex + 1);
      head ← str_to body sepIndex;
      let '(ts, err) := ParseInt head in
      mret (EchoEvent.mk body ts msg, err)
  end.

Module ByteCountClientEvent.
Record t : Set := mk { body : string; cid : Z; bytesIn : Z; bytesOut : Z }.
Definition Raw (e : t) : string := body e.
Definition ClientId (e : t) : Z := cid e.
Definition BytesIn (e : t) : Z := bytesIn e.
Definition BytesOut (e : t) : Z := bytesOut e.
End ByteCountClientEvent.

Definition NewByteCountClientEvent (body : string)
  : outcome (ByteCountClientEvent.t * option error) :=
  let bodyParts := stringsSplitNK body fieldSep 3 3 in
  p0 ← at_index bodyParts 0;
  let '(cid, err) := ParseInt p0 in
  if err is Some _ then mret (ByteCountClientEvent.mk body cid 0 0, err) else
  p1 ← at_index bodyParts 1;
  let '(bytesIn, err) := ParseInt p1 in
  if err is Some _ then mret (ByteCountClientEvent.mk body cid bytesIn 0, err) else
  p2 ← at_index bodyParts 2;
  let '(bytesOut, err) := ParseInt p2 in
  mret (ByteCountClientEvent.mk body cid bytesIn bytesOut, err).

Module ByteCountEvent.
Record t : Set := mk { body : string; bytesIn : Z; bytesOut : Z }.
Definition Raw (e : t) : string := body e.
Definition BytesIn (e : t) : Z := bytesIn e.
Definition BytesOut (e : t) : Z := bytesOut e.
End ByteCountEvent.

Definition NewByteCountEvent (body : string) : outcome (ByteCountEvent.t * option error) :=
  let bodyParts := stringsSplitNK body fieldSep 2 2 in
  p0 ← at_index bodyParts 0;
  let '(bytesIn, err) := ParseInt p0 in
  if err is Some _ then mret (ByteCountEvent.mk body bytesIn 0, err) else
  p1 ← at_index bodyParts 1;
  let '(bytesOut, err) := ParseInt p1 in
  mret (ByteCountEvent.mk body bytesIn bytesOut, err).

(** *** CLIENT notifications *)

Inductive ClientEventNotification : Set :=
| CEUnknown | CEConnect | CEReauth | CEEstablished | CEDisconnect | CEAddress.

(** The string value of each constant. *)
Definition CE_string (n : ClientEventNotification) : string :=
  match n with
  | CEUnknown => "UNKNOWN"
  | CEConnect => "CONNECT"
  | CEReauth => "REAUTH"
  | CEEstablished => "ESTABLISHED"
  | CEDisconnect => "DISCONNECT"
  | CEAddress => "ADDRESS"
  end.

Module ClientEvent.
Record t : Type := mk {
  rawHeader : string;
  ceType : ClientEventNotification;
  cid : Z;
  kid : Z;
  addr : string;
  isAddrPri : bool;
  envs : gmap string string;                (* a nil map reads as empty *)
}.
Definition Type_ (c : t) := ceType c.
Definition ClientId (c : t) : Z := cid c.
Definition KeyId (c : t) : Z := kid c.
Definition Addr (c : t) : string := addr c.
Definition IsAddrPrimary (c : t) : bool := isAddrPri c.
Definition RawEnv (c : t) (key : string) : string := default "" (envs c !! key).
End ClientEvent.

(** The [for _, line := range payload[1:]] loop of [NewClientEvent]: the
    environment collected so far, and the error that ends the loop. *)
Fixpoint client_envs (lines : list string) (envs : gmap string string)
  : outcome (gmap string string * option error) :=
  match lines with
  | [] => mret (envs, None)
  | line :: rest =>
      if negb (HasPrefix line (clientEnvMarker +:+ fieldSep)) then
        mret (envs, Some (errorString ("no env prefix in client event line: " +:+ line)))
      else
        kvLine ← str_from line (String.length (clientEnvMarker +:+ fieldSep));
        let parts := stringsSplitNK kvLine clientEnvKVSep 2 2 in
        k ← at_index parts 0;
        v ← at_index parts 1;
        client_envs rest (<[k := v]> envs)
  end.

Definition NewClientEvent (payload : list string) : outcome (ClientEvent.t * option error) :=
  rawHeader ← at_index payload 0;
  let params := stringsSplitNK rawHeader fieldSep 4 4 in
  p0 ← at_index params 0;
  let known :=
    if String.eqb p0 (CE_string CEConnect) then Some CEConnect
    else if String.eqb p0 (CE_string CEReauth) then Some CEReauth
    else if String.eqb p0 (CE_string CEEstablished) then Some CEEstablished
    else if String.eqb p0 (CE_string CEDisconnect) then Some CEDisconnect
    else if String.eqb p0 (CE_string CEAddress) then Some CEAddress
    else None in
  match known with
  | None =>
      mret (ClientEvent.mk rawHeader CEUnknown 0 0 "" false ∅,
            Some (errorString ("unknown client event type: " +:+ p0)))
  | Some ty =>
      p1 ← at_index params 1;
      let '(cid, err) := ParseInt p1 in
      if err is Some _ then mret (ClientEvent.mk rawHeader ty cid 0 "" false ∅, err) else
      kid_err ←
        match ty with
        | CEConnect | CEReauth => p2 ← at_index params 2; mret (ParseInt p2)
        | _ => mret (0, None)
        end;
      let '(kid, err) := kid_err : Z * option error in
      if err is Some _ then mret (ClientEvent.mk rawHeader ty cid kid "" false ∅, err) else
      match ty with
      | CEAddress =>
          addr ← at_index params 2;
          p3 ← at_index params 3;
          let '(pri, err) := ParseBool p3 in
          mret (ClientEvent.mk rawHeader ty cid kid addr pri ∅, err)
      | _ =>
          rest ← slice_from payload 1;
          '(envs, err) ← client_envs rest ∅;
          mret (ClientEvent.mk rawHeader ty cid kid "" false envs, err)
      end
  end.

Module SimpleEvent.
Record t : Set := mk { keyword : string; body : string }.
Definition Raw (e : t) : string := keyword e +:+ eventSep +:+ body e.
Definition Type_ (e : t) : string := keyword e.
Definition Body (e : t) : string := body e.
End SimpleEvent.

Definition NewSimpleEvent (keyword body : string) : SimpleEvent.t :=
  SimpleEvent.mk keyword body.

Module UnknownEvent.
Record t : Set := mk { keyword : string; body : string }.
Definition Raw (e : t) : string := keyword e +:+ eventSep +:+ body e.
Definition Type_ (e : t) : string := keyword e.
Definition Body (e : t) : string := body e.
End UnknownEvent.

Definition NewUnknownEvent (keyword body : string) : UnknownEvent.t :=
  UnknownEvent.mk keyword body.

Module MalformedEvent.
Record t : Set := mk { raw : string }.
Definition Raw (e : t) : string := raw e.
End MalformedEvent.

Definition NewMalformedEvent (raw : string) : MalformedEvent.t := MalformedEvent.mk raw.

(** ** Package net of the Go standard library

    [net.ParseIP] (through [netip.ParseAddr]) and [net.SplitHostPort].
    An address is its 16-byte form. *)

Definition IP : Set := list Z.

Definition hex_of (c : ascii) : option Z :=
  let n := Z.of_N (N_of_ascii c) in
  if (48 <=? n) && (n <=? 57) then Some (n - 48)
  else if (97 <=? n) && (n <=? 102) then Some (n - 97 + 10)
  else if (65 <=? n) && (n <=? 70) then Some (n - 65 + 10)
  else None.

(** [netip.parseIPv4Fields]: [first] says the byte is the first of the
    text, [prev_dot] that the byte before it was a dot. *)
Fixpoint parseIPv4Fields (s : string) (first prev_dot : bool) (val digLen : Z)
    (fields : list Z) : option (list Z) :=
  match s with
  | EmptyString => if (length fields <? 3)%nat then None else Some (fields ++ [val])
  | String c s' =>
      match digit_of c with
      | Some d =>
          if (digLen =? 1) && (val =? 0) then None
          else if 255 <? val * 10 + d then None
          else parseIPv4Fields s' false false (val * 10 + d) (digLen + 1) fields
      | None =>
          if Ascii.eqb c "." then
            if first || String.eqb s' "" || prev_dot then None
            else if (length fields =? 3)%nat then None
            else parseIPv4Fields s' false true 0 0 (fields ++ [val])
          else None
      end
  end.

Definition parseIPv4 (s : string) : option IP :=
  fields ← parseIPv4Fields s true false 0 0 [];
  Some (replicate 10 0 ++ [255; 255] ++ fields).

(** One group of at most four hexadecimal digits: the number of digits,
    the value and the rest of the text. *)
Fixpoint hex_group (s : string) (off : nat) (acc : Z) : option (nat * Z * string) :=
  match s with
  | EmptyString => Some (off, acc, s)
  | String c s' =>
      match hex_of c with
      | Some d => if (3 <? off)%nat then None else hex_group s' (S off) (acc * 16 + d)
      | None => Some (off, acc, s)
      end
  end.

(** The group loop of [netip.parseIPv6]: the text left over, the bytes
    written and the position of the ellipsis. *)
Fixpoint parseIPv6_groups (fuel : nat) (s : string) (ip : list Z) (ellipsis : option nat)
  : option (string * list Z * option nat) :=
  match fuel with
  | O => Some (s, ip, ellipsis)
  | S fuel' =>
      if (16 <=? length ip)%nat then Some (s, ip, ellipsis) else
      '(off, acc, rest) ← hex_group s 0 0;
      if (off =? 0)%nat then None
      else if HasPrefix rest "." then
        if bool_decide (ellipsis = None) && negb (length ip =? 12)%nat then None
        else if (16 <? length ip + 4)%nat then None
        else fields ← parseIPv4Fields s true false 0 0 [];
             Some ("", (ip ++ fields), ellipsis)
      else
        let ip' := (ip ++ [acc / 256; acc mod 256]) in
        match rest with
        | EmptyString => Some ("", ip', ellipsis)
        | String c s1 =>
            if negb (Ascii.eqb c ":") then None
            else match s1 with
                 | EmptyString => None
                 | String c1 s2 =>
                     if Ascii.eqb c1 ":" then
                       if bool_decide (ellipsis = None) then
                         match s2 with
                         | EmptyString => Some ("", ip', Some (length ip'))
                         | _ => parseIPv6_groups fuel' s2 ip' (Some (length ip'))
                         end
                       else None
                     else parseIPv6_groups fuel' s1 ip' ellipsis
                 end
        end
  end.

Definition parseIPv6 (s : string) : option IP :=
  if bool_decide (Index s "%" = None) then
    let lead := HasPrefix s "::" in
    let s0 := if lead then substring 2 (String.length s - 2) s else s in
    let ellipsis := if lead then Some 0%nat else None in
    if lead && String.eqb s0 "" then Some (replicate 16 0)
    else
      '(rest, ip, ellipsis) ← parseIPv6_groups 9 s0 [] ellipsis;
      if negb (String.eqb rest "") then None
      else if (length ip <? 16)%nat then
        e ← ellipsis;
        Some (take e ip ++ replicate (16 - length ip) 0 ++ drop e ip)
      else if bool_decide (ellipsis = None) then Some ip else None
  else None.   (* a zone, empty or not, makes [net.ParseIP] return nil *)

(** The scan of [netip.ParseAddr] for the first of '.', ':' and '%'. *)
Fixpoint ParseAddr_scan (whole s : string) : option IP :=
  match s with
  | EmptyString => None
  | String c s' =>
      if Ascii.eqb c "." then parseIPv4 whole
      else if Ascii.eqb c ":" then parseIPv6 whole
      else if Ascii.eqb c "%" then None
      else ParseAddr_scan whole s'
  end.

Definition ParseIP (s : string) : option IP := ParseAddr_scan s s.

Definition SplitHostPort (hostport : string) : (string * string) * option error :=
  let missingPort := "missing port in address" in
  let tooManyColons := "too many colons in address" in
  let addrErr why := (("", ""), Some (AddrError why hostport)) in
  let len := String.length hostport in
  match LastIndexByte hostport ":" with
  | None => addrErr missingPort
  | Some i =>
      let bracketed := HasPrefix hostport "[" in
      let checked : (string * nat * nat) + string :=
        if bracketed then
          match Index hostport "]" with
          | None => inr "missing ']' in address"
          | Some e =>
              if (e + 1 =? len)%nat then inr missingPort
              else if (e + 1 =? i)%nat then inl (substring 1 (e - 1) hostport, 1%nat, (e + 1)%nat)
              else if HasPrefix (substring (e + 1) (len - (e + 1)) hostport) ":"
                   then inr tooManyColons
                   else inr missingPort
          end
        else
          let host := substring 0 i hostport in
          if bool_decide (Index host ":" = None) then inl (host, 0%nat, 0%nat)
          else inr tooManyColons in
      match checked with
      | inr why => addrErr why
      | inl (host, j, k) =>
          if negb (bool_decide (Index (substring j (len - j) hostport) "[" = None))
          then addrErr "unexpected '[' in address"
          else if negb (bool_decide (Index (substring k (len - k) hostport) "]" = None))
          then addrErr "unexpected ']' in address"
          else ((host, substring (i + 1) (len - (i + 1)) hostport), None)
      end
  end.

(** ** Addresses with a port *)

Module IPAddrPort.
Record t : Set := mk { IP_ : IP; Port : Z }.
End IPAddrPort.

Definition ParseIPAddr (s : string) : option IP * option error :=
  match ParseIP s with
  | None => (None, Some (errorString ("can't parse ip from " +:+ s)))
  | Some ip => (Some ip, None)
  end.

(** The result is a pointer: [None] is nil. *)
Definition ParseIPAddrPort (s : string) : option IPAddrPort.t * option error :=
  let '((host, sPort), err) := SplitHostPort s in
  if err is Some _ then (None, err) else
  match ParseIPAddr host with
  | (Some ip, None) =>
      let '(port, err) := Atoi sPort in
      if err is Some _ then (None, err) else (Some (IPAddrPort.mk ip port), None)
  | (_, err) => (None, err)
  end.

Definition SafeParseIP4Addr (s : string) : option IP :=
  match ParseIP s with
  | None => ParseIP "0.0.0.0"
  | Some ip => Some ip
  end.

Definition SafeParseIP6Addr (s : string) : option IP :=
  match ParseIP s with
  | None => ParseIP "::"
  | Some ip => Some ip
  end.

(** ** Rows of the status-3 report *)

(** [c.errs = append(c.errs, err)] when [err != nil]. *)
Definition note_err (errs : list error) (err : option error) : list error :=
  match err with
  | Some e => (errs ++ [e])
  | None => errs
  end.

Module Status3Client.
Record t : Set := mk {
  CommonName : string;
  RealAddr : option IPAddrPort.t;
  VirtualAddr : option IP;
  VirtualAddr6 : option IP;
  BytesRecv : Z;
  BytesSent : Z;
  ConnectedSinceRaw : string;
  ConnectedSinceTimestamp : Z;
  Username : string;
  ClientId : Z;
  PeerId : Z;
  DataChannelCipher : string;
  errs : list error;
}.
Definition ParsingErrors (s : t) : list error := errs s.
End Status3Client.

(** [ClientListHeader]: the column numbers. *)
Definition CLCommonName : nat := 0.
Definition CLRealAddr : nat := 1.
Definition CLVirtualAddr : nat := 2.
Definition CLVirtualAddr6 : nat := 3.
Definition CLBytesRecv : nat := 4.
Definition CLBytesSent : nat := 5.
Definition CLConnectedSinceRaw : nat := 6.
Definition CLConnectedSinceTimestamp : nat := 7.
Definition CLUsername : nat := 8.
Definition CLClientId : nat := 9.
Definition CLPeerId : nat := 10.
Definition CLDataChannelCipher : nat := 11.
Definition CLHeaderMax : nat := 12.

Definition NewStatus3Client (fields : list string) : outcome Status3Client.t :=
  let fields := if decide (length fields < CLHeaderMax)%nat
                then make_copy CLHeaderMax fields else fields in
  commonName ← at_index fields CLCommonName;
  fRealAddr ← at_index fields CLRealAddr;
  let '(realAddr, err) := ParseIPAddrPort fRealAddr in
  let errs := note_err [] err in
  fVirtualAddr ← at_index fields CLVirtualAddr;
  fVirtualAddr6 ← at_index fields CLVirtualAddr6;
  fBytesRecv ← at_index fields CLBytesRecv;
  let '(bytesRecv, err) := ParseInt fBytesRecv in
  let errs := note_err errs err in
  fBytesSent ← at_index fields CLBytesSent;
  let '(bytesSent, err) := ParseInt fBytesSent in
  let errs := note_err errs err in
  connectedSinceRaw ← at_index fields CLConnectedSinceRaw;
  fSince ← at_index fields CLConnectedSinceTimestamp;
  let '(since, err) := ParseInt fSince in
  let errs := note_err errs err in
  username ← at_index fields CLUsername;
  fClientId ← at_index fields CLClientId;
  let '(clientId, err) := ParseInt fClientId in
  let errs := note_err errs err in
  fPeerId ← at_index fields CLPeerId;
  let '(peerId, err) := ParseInt fPeerId in
  let errs := note_err errs err in
  cipher ← at_index fields CLDataChannelCipher;
  mret (Status3Client.mk commonName realAddr (SafeParseIP4Addr fVirtualAddr)
          (SafeParseIP6Addr fVirtualAddr6) bytesRecv bytesSent connectedSinceRaw since
          username clientId peerId cipher errs).

Module Status3Route.
Record t : Set := mk {
  VirtualAddrFlags : string;
  CommonName : string;
  RealAddr : option IPAddrPort.t;
  LastRefRaw : string;
  LastRefTimestamp : Z;
  errs : list error;
}.
Definition ParsingErrors (s : t) : list error := errs s.
End Status3Route.

(** [RoutingTableHeader]: the column numbers. *)
Definition RTVirtualAddrFlags : nat := 0.
Definition RTCommonName : nat := 1.
Definition RTRealAddr : nat := 2.
Definition RTLastRefRaw : nat := 3.
Definition RTLastRefTimestamp : nat := 4.
Definition RTHeaderMax : nat := 5.

Definition NewStatus3Route (fields : list string) : outcome Status3Route.t :=
  let fields := if decide (length fields < RTHeaderMax)%nat
                then make_copy RTHeaderMax fields else fields in
  virtualAddrFlags ← at_index fields RTVirtualAddrFlags;
  commonName ← at_index fields RTCommonName;
  lastRefRaw ← at_index fields RTLastRefRaw;
  fRealAddr ← at_index fields RTRealAddr;
  let '(realAddr, err) := ParseIPAddrPort fRealAddr in
  let errs := note_err [] err in
  fLastRef ← at_index fields RTLastRefTimestamp;
  let '(lastRef, err) := ParseInt fLastRef in
  let errs := note_err errs err in
  mret (Status3Route.mk virtualAddrFlags commonName realAddr lastRefRaw lastRef errs).

(** ** The status-3 snapshot *)

Definition status3TitleKW : string := "TITLE".
Definition status3TimeKW : string := "TIME".
Definition status3HeaderKW : string := "HEADER".
Definition status3ClientListKW : string := "CLIENT_LIST".
Definition status3RoutingTableKW : string := "ROUTING_TABLE".
Definition status3FieldSep : string := String (ascii_of_nat 9) "".

Module Status3Event.
Record t : Type := mk {
  title : string;
  rawHumanTS : string;
  rawTS : string;
  ts : Z;
  clients : list Status3Client.t;
  invalidClients : list Status3Client.t;
  routes : list Status3Route.t;
  invalidRoutes : list Status3Route.t;
  headers : gmap string (list string);
  extra : gmap string (list string);
}.
Definition Timestamp (se : t) : Z := ts se.
Definition Clients (se : t) := clients se.
Definition Routes (se : t) := routes se.
Definition InvalidClients (se : t) := invalidClients se.
Definition InvalidRoutes (se : t) := invalidRoutes se.

Definition empty : t := mk "" "" "" 0 [] [] [] [] ∅ ∅.
Definition set_title v (se : t) :=
  mk v (rawHumanTS se) (rawTS se) (ts se) (clients se) (invalidClients se) (routes se)
     (invalidRoutes se) (headers se) (extra se).
Definition set_time human raw n (se : t) :=
  mk (title se) human raw n (clients se) (invalidClients se) (routes se)
     (invalidRoutes se) (headers se) (extra se).
Definition set_clients v (se : t) :=
  mk (title se) (rawHumanTS se) (rawTS se) (ts se) v (invalidClients se) (routes se)
     (invalidRoutes se) (headers se) (extra se).
Definition set_invalidClients v (se : t) :=
  mk (title se) (rawHumanTS se) (rawTS se) (ts se) (clients se) v (routes se)
     (invalidRoutes se) (headers se) (extra se).
Definition set_routes v (se : t) :=
  mk (title se) (rawHumanTS se) (rawTS se) (ts se) (clients se) (invalidClients se) v
     (invalidRoutes se) (headers se) (extra se).
Definition set_invalidRoutes v (se : t) :=
  mk (title se) (rawHumanTS se) (rawTS se) (ts se) (clients se) (invalidClients se)
     (routes se) v (headers se) (extra se).
Definition set_headers v (se : t) :=
  mk (title se) (rawHumanTS se) (rawTS se) (ts se) (clients se) (invalidClients se)
     (routes se) (invalidRoutes se) v (extra se).
Definition set_extra v (se : t) :=
  mk (title se) (rawHumanTS se) (rawTS se) (ts se) (clients se) (invalidClients se)
     (routes se) (invalidRoutes se) (headers se) v.
End Status3Event.

(** The body of the [for _, line := range payload] loop of
    [NewStatus3Event]: the snapshot after the line, and the error that makes
    the function return at once. *)
Definition status3_line (se : Status3Event.t) (line : string)
  : outcome (Status3Event.t * option error) :=
  let lineFields := Split line status3FieldSep in
  lineType ← at_index lineFields 0;
  lineFields ← slice_from lineFields 1;
  if String.eqb lineType status3TitleKW then
    mret (Status3Event.set_title (Join lineFields status3FieldSep) se, None)
  else if String.eqb lineType status3TimeKW then
    rawHumanTS ← at_index lineFields 0;
    rawTS ← at_index lineFields 1;
    let '(ts, err) := ParseInt rawTS in
    mret (Status3Event.set_time rawHumanTS rawTS ts se, err)
  else if String.eqb lineType status3HeaderKW then
    headerType ← at_index lineFields 0;
    cols ← slice_from lineFields 1;
    mret (Status3Event.set_headers (<[headerType := cols]> (Status3Event.headers se)) se, None)
  else if String.eqb lineType status3ClientListKW then
    c ← NewStatus3Client lineFields;
    if decide (0 < length (Status3Client.ParsingErrors c))%nat
    then mret (Status3Event.set_invalidClients (Status3Event.invalidClients se ++ [c]) se, None)
    else mret (Status3Event.set_clients (Status3Event.clients se ++ [c]) se, None)
  else if String.eqb lineType status3RoutingTableKW then
    c ← NewStatus3Route lineFields;
    if decide (0 < length (Status3Route.ParsingErrors c))%nat
    then mret (Status3Event.set_invalidRoutes (Status3Event.invalidRoutes se ++ [c]) se, None)
    else mret (Status3Event.set_routes (Status3Event.routes se ++ [c]) se, None)
  else
    mret (Status3Event.set_extra (<[lineType := lineFields]> (Status3Event.extra se)) se, None).

Fixpoint status3_lines (se : Status3Event.t) (payload : list string)
  : outcome (Status3Event.t * option error) :=
  match payload with
  | [] => mret (se, None)
  | line :: rest =>
      '(se', err) ← status3_line se line;
      if err is Some _ then mret (se', err) else status3_lines se' rest
  end.

Definition NewStatus3Event (payload : list string) : outcome (Status3Event.t * option error) :=
  status3_lines Status3Event.empty payload.

(** ** The Event interface

    One constructor per type that implements [Event].  The two fields of
    [InvalidEvent] are interface values, so each may be nil ([None]); the
    poller sends a [*Status3Event], a pointer, which may be nil as well. *)

#[warnings="-register-all"] Inductive Event : Type :=
| AHoldEvent (e : HoldEvent.t)
| ALogEvent (e : LogEvent.t)
| AStateEvent (e : StateEvent.t)
| AnEchoEvent (e : EchoEvent.t)
| AByteCountEvent (e : ByteCountEvent.t)
| AByteCountClientEvent (e : ByteCountClientEvent.t)
| AClientEvent (e : ClientEvent.t)
| ASimpleEvent (e : SimpleEvent.t)
| AnUnknownEvent (e : UnknownEvent.t)
| AMalformedEvent (e : MalformedEvent.t)
| AStatus3EventPtr (p : option Status3Event.t)
| AnInvalidEvent (orig : option Event) (firstError : option error).

Definition NewInvalidEvent (evt : option Event) (err : option error) : Event :=
  AnInvalidEvent evt err.

(** The interface value [Event(p)] of a pointer is never the nil interface,
    even when [p] is the nil pointer; an origin counts as nil when it is the
    nil interface or holds a nil pointer. *)
Definition nil_origin (orig : option Event) : bool :=
  match orig with
  | None => true
  | Some (AStatus3EventPtr None) => true
  | Some _ => false
  end.

(** [splitEvent]. *)
Definition splitEvent (line : string) : outcome (eventEndMarker * string * string) :=
  match Index line eventSep with
  | None => mret (emSingleLine, "", line)
  | Some splitIdx =>
      keyword ← str_to line splitIdx;
      body ← str_from line (splitIdx + 1);
      if String.eqb keyword clientEventKW
         && (HasPrefix body (CE_string CEConnect) || HasPrefix body (CE_string CEReauth)
             || HasPrefix body (CE_string CEEstablished)
             || HasPrefix body (CE_string CEDisconnect)
             || HasPrefix body clientEnvMarker)
      then mret (emClient, keyword, body)
      else mret (emSingleLine, keyword, body)
  end.

(** The tail of both factories: [if err != nil { return NewInvalidEvent(evt, err) }]. *)
Definition wrap_invalid (evt : Event) (err : option error) : Event :=
  match err with
  | Some _ => NewInvalidEvent (Some evt) err
  | None => evt
  end.

(** [upgradeEvent]. *)
Definition upgradeEvent (keyword body : string) : outcome Event :=
  if String.eqb keyword "" then mret (AMalformedEvent (NewMalformedEvent body))
  else if String.eqb keyword logEventKW then
    '(e, err) ← NewLogEvent body; mret (wrap_invalid (ALogEvent e) err)
  else if String.eqb keyword stateEventKW then
    '(e, err) ← NewStateEvent body; mret (wrap_invalid (AStateEvent e) err)
  else if String.eqb keyword holdEventKW then mret (AHoldEvent (NewHoldEvent body))
  else if String.eqb keyword echoEventKW then
    '(e, err) ← NewEchoEvent body; mret (wrap_invalid (AnEchoEvent e) err)
  else if String.eqb keyword byteCountEventKW then
    '(e, err) ← NewByteCountEvent body; mret (wrap_invalid (AByteCountEvent e) err)
  else if String.eqb keyword byteCountCliEventKW then
    '(e, err) ← NewByteCountClientEvent body;
    mret (wrap_invalid (AByteCountClientEvent e) err)
  else if String.eqb keyword clientEventKW then
    '(e, err) ← NewClientEvent [body]; mret (wrap_invalid (AClientEvent e) err)
  else if String.eqb keyword infoEventKW then mret (ASimpleEvent (NewSimpleEvent keyword body))
  else if String.eqb keyword needOkEventKW then mret (ASimpleEvent (NewSimpleEvent keyword body))
  else if String.eqb keyword needStrEventKW then mret (ASimpleEvent (NewSimpleEvent keyword body))
  else if String.eqb keyword passwordEventKW then mret (ASimpleEvent (NewSimpleEvent keyword body))
  else if String.eqb keyword fatalEventKW then mret (ASimpleEvent (NewSimpleEvent keyword body))
  else mret (AnUnknownEvent (NewUnknownEvent keyword body)).

(** [upgradeMultilineEvent]. *)
Definition upgradeMultilineEvent (keyword : string) (body : list string) : outcome Event :=
  if String.eqb keyword "" then mret (AMalformedEvent (NewMalformedEvent (Join body newlineSep)))
  else if String.eqb keyword clientEventKW then
    '(e, err) ← NewClientEvent body; mret (wrap_invalid (AClientEvent e) err)
  else mret (AnUnknownEvent (NewUnknownEvent keyword (Join body newlineSep))).

(** The event factory on a raw line, as the tests drive it:
    [_, kw, body := splitEvent(line); event := upgradeEvent(kw, body)]. *)
Definition parseLine (line : string) : outcome Event :=
  '(_, keyword, body) ← splitEvent line;
  upgradeEvent keyword body.

(** ** The event assembler: [eventScanner] *)

(** The two local variables of [eventScanner]. *)
Record scanner : Set := mkScanner { bufKW : string; buf : list string }.

Definition scanner_init : scanner := mkScanner "" [].

(** [flushMultilineBuf]: one event is sent, then the deferred function
    empties the buffer. *)
Definition flushMultilineBuf (st : scanner) : outcome (list Event * scanner) :=
  e ← upgradeMultilineEvent (bufKW st) (buf st);
  mret ([e], scanner_init).

(** The body of the [for raw := range c.rawEventCh] loop once [splitEvent]
    has returned: the events sent on [eventSink], in the order they are
    sent, and the variables after the iteration. *)
Definition scanSplit (st : scanner) (raw : string)
    (endMarker : eventEndMarker) (keyword body : string) : outcome (list Event * scanner) :=
  if String.eqb endMarker emSingleLine then
    e ← upgradeEvent keyword body;
    if bool_decide (0 < length (buf st))%nat || negb (String.eqb (bufKW st) "") then
      '(flushed, st') ← flushMultilineBuf st;
      mret (e :: flushed, st')
    else mret ([e], st)
  else if String.eqb raw endMarker then flushMultilineBuf st
  else if String.eqb (bufKW st) "" then
    mret ([], mkScanner keyword (buf st ++ [body]))
  else if negb (String.eqb (bufKW st) keyword) then
    '(flushed, st') ← flushMultilineBuf st;
    e ← upgradeEvent keyword body;
    mret (flushed ++ [e], st')
  else mret ([], mkScanner (bufKW st) (buf st ++ [body])).

Definition scanLine (st : scanner) (raw : string) : outcome (list Event * scanner) :=
  '(endMarker, keyword, body) ← splitEvent raw;
  scanSplit st raw endMarker keyword body.

(** The loop over the lines of [rawEventCh], up to the point where the
    channel is closed. *)
Fixpoint scanLines (st : scanner) (lines : list string) : outcome (list Event * scanner) :=
  match lines with
  | [] => mret ([], st)
  | raw :: rest =>
      '(sent, st') ← scanLine st raw;
      '(sent', st'') ← scanLines st' rest;
      mret (sent ++ sent', st'')
  end.

(** [eventScanner] on the lines that [rawEventCh] carries before it is
    closed: everything sent on [eventSink] before [close(c.eventSink)]. *)
Definition eventScanner (lines : list string) : outcome (list Event) :=
  '(sent, _) ← scanLines scanner_init lines;
  mret sent.

(** ** The client and its commands *)

(** The write side of the connection: the chunks written so far, and the
    error every [Write] returns once the connection is broken. *)
Record writer : Set := mkWriter { written : list string; broken : option error }.

Definition Write (w : writer) (data : string) : writer * option error :=
  match broken w with
  | Some e => (w, Some e)
  | None => (mkWriter (written w ++ [data]) None, None)
  end.

(** [rawReplyCh] is the list of reply lines still to come before the
    demultiplexer closes the channel. *)
Record MgmtClient : Set := mkClient { wr : writer; rawReplyCh : list string }.

Definition sendCommand (cmd : string) (c : MgmtClient) : option error * MgmtClient :=
  let '(w, err) := Write (wr c) (cmd +:+ newlineSep) in
  (err, mkClient w (rawReplyCh c)).

Definition readCommandResult (c : MgmtClient) : outcome ((string * option error) * MgmtClient) :=
  match rawReplyCh c with
  | [] => mret (("", Some (errorString "connection closed while awaiting result")), c)
  | reply :: rest =>
      let c' := mkClient (wr c) rest in
      if HasPrefix reply successPrefix then
        result ← str_from reply (String.length successPrefix);
        mret ((result, None), c')
      else if HasPrefix reply errorPrefix then
        message ← str_from reply (String.length errorPrefix);
        mret (("", Some (NewOVpnError message)), c')
      else mret (("", Some (errorString "malformed result message")), c')
  end.

(** The loop of [readCommandResponsePayload] on the lines still to come. *)
Fixpoint read_payload (replies lines : list string)
  : (list string * option error) * list string :=
  match replies with
  | [] => ((lines, Some (errorString "connection closed before END recieved")), [])
  | line :: rest =>
      if String.eqb line endMessage then ((lines, None), rest)
      else read_payload rest (lines ++ [line])
  end.

Definition readCommandResponsePayload (c : MgmtClient)
  : (list string * option error) * MgmtClient :=
  let '(res, rest) := read_payload (rawReplyCh c) [] in
  (res, mkClient (wr c) rest).

Definition simpleCommand (cmd : string) (c : MgmtClient)
  : outcome ((string * option error) * MgmtClient) :=
  let '(err, c') := sendCommand cmd c in
  if err is Some _ then mret (("", err), c') else readCommandResult c'.

(** [SetVerbosityLevel]. *)
Definition SetVerbosityLevel (level : Z) (c : MgmtClient) : outcome (option error * MgmtClient) :=
  let err := Some (errorString
    ("bad verbosity level '" +:+ Itoa level +:+ "', should be from 0 to 15")) in
  if (0 <? level) && (level <? 16) then
    '((_, err), c') ← simpleCommand ("verb " +:+ Itoa level) c;
    mret (err, c')
  else mret (err, c).

(** [LatestStatus3]: the first component is a pointer. *)
Definition LatestStatus3 (c : MgmtClient)
  : outcome ((option Status3Event.t * option error) * MgmtClient) :=
  let '(err, c) := sendCommand "status 3" c in
  if err is Some _ then mret ((None, err), c) else
  let '((payload, err), c) := readCommandResponsePayload c in
  if err is Some _ then mret ((None, err), c) else
  '(s, err) ← NewStatus3Event payload;
  mret ((Some s, err), c).

(** [generateStatus3Event]: the event sent on [eventSink]. *)
Definition generateStatus3Event (c : MgmtClient) : outcome (Event * MgmtClient) :=
  '((evt, err), c) ← LatestStatus3 c;
  if bool_decide (evt ≠ None) && bool_decide (err = None)
  then mret (AStatus3EventPtr evt, c)
  else mret (NewInvalidEvent (Some (AStatus3EventPtr evt)) err, c).

(** ** The other commands of the client *)

(** [HoldRelease]. *)
Definition HoldRelease (c : MgmtClient) : outcome (option error * MgmtClient) :=
  '((_, err), c') ← simpleCommand "hold release" c;
  mret (err, c').

(** [SetLogEvents]. *)
Definition SetLogEvents (on : bool) (c : MgmtClient) : outcome (option error * MgmtClient) :=
  '((_, err), c') ← simpleCommand (if on then "log on" else "log off") c;
  mret (err, c').

(** [SetStateEvents]. *)
Definition SetStateEvents (on : bool) (c : MgmtClient) : outcome (option error * MgmtClient) :=
  '((_, err), c') ← simpleCommand (if on then "state on" else "state off") c;
  mret (err, c').

(** [SetEchoEvents]. *)
Definition SetEchoEvents (on : bool) (c : MgmtClient) : outcome (option error * MgmtClient) :=
  '((_, err), c') ← simpleCommand (if on then "echo on" else "echo off") c;
  mret (err, c').

(** [VerbosityLevel]. *)
Definition VerbosityLevel (c : MgmtClient) : outcome ((Z * option error) * MgmtClient) :=
  '((result, err), c') ← simpleCommand "verb" c;
  if negb (HasPrefix result "verb=") then mret ((0, err), c')
  else
    digits ← str_from result (String.length "verb=");
    mret (Atoi digits, c').

(** [LatestState]: the first component is a pointer. *)
Definition LatestState (c : MgmtClient)
  : outcome ((option StateEvent.t * option error) * MgmtClient) :=
  let '(err, c) := sendCommand "state" c in
  if err is Some _ then mret ((None, err), c) else
  let '((payload, err), c) := readCommandResponsePayload c in
  if err is Some _ then mret ((None, err), c) else
  if negb (length payload =? 1)%nat
  then mret ((None, Some (errorString "Malformed OpenVPN 'state' response")), c)
  else
    line ← at_index payload 0;
    '(s, err) ← NewStateEvent line;
    mret ((Some s, err), c).

(** ** The text form of the events

    [fmt.Sprintf] with the verbs %s on strings and %d on integers. *)

Definition HoldEvent_String (e : HoldEvent.t) : string := HoldEvent.body e.

(** [fmt]'s verb %s on a [map[string]string]: the text map[ , the entries
    as key:value in the increasing order of the keys, one space between
    them, and ] .  Keys are compared byte by byte, as Go compares strings. *)
Fixpoint insert_by_key (kv : string * string) (l : list (string * string))
  : list (string * string) :=
  match l with
  | [] => [kv]
  | x :: rest =>
      if String.leb (fst kv) (fst x) then kv :: l else x :: insert_by_key kv rest
  end.

Definition sorted_by_key (m : gmap string string) : list (string * string) :=
  foldr insert_by_key [] (map_to_list m).

Definition Sprint_env (m : gmap string string) : string :=
  "map[" +:+ Join ((fun kv => fst kv +:+ ":" +:+ snd kv) <$> sorted_by_key m) " " +:+ "]".


Definition LogEvent_String (e : LogEvent.t) : outcome string :=
  flags ← LogEvent.RawFlags e;
  message ← LogEvent.Message e;
  mret ("LOG[" +:+ flags +:+ "]: " +:+ message).

Definition StateEvent_String (e : StateEvent.t) : outcome string :=
  stateName ← StateEvent.Name e;
  if String.eqb stateName "ASSIGN_IP" then
    a ← StateEvent.LocalTunnelAddr e; mret (stateName +:+ ": " +:+ a)
  else if String.eqb stateName "CONNECTED" then
    a ← StateEvent.RemoteAddr e; mret (stateName +:+ ": " +:+ a)
  else
    desc ← StateEvent.Description e;
    if negb (String.eqb desc "") then mret (stateName +:+ ": " +:+ desc)
    else mret stateName.

Definition EchoEvent_String (e : EchoEvent.t) : string := "ECHO: " +:+ EchoEvent.Message e.

Definition ByteCountClientEvent_String (e : ByteCountClientEvent.t) : string :=
  "Client " +:+ Itoa (ByteCountClientEvent.ClientId e) +:+ ": "
  +:+ Itoa (ByteCountClientEvent.BytesIn e) +:+ " in, "
  +:+ Itoa (ByteCountClientEvent.BytesOut e) +:+ " out".

Definition ByteCountEvent_String (e : ByteCountEvent.t) : string :=
  Itoa (ByteCountEvent.BytesIn e) +:+ " in, " +:+ Itoa (ByteCountEvent.BytesOut e) +:+ " out".

Definition SimpleEvent_String (e : SimpleEvent.t) : string :=
  SimpleEvent.keyword e +:+ ": " +:+ SimpleEvent.body e.

Definition UnknownEvent_String (e : UnknownEvent.t) : string :=
  "Unknown event " +:+ UnknownEvent.keyword e +:+ ": " +:+ UnknownEvent.body e.

(** ** Starting and stopping the poller

    The channels in play are numbered in the order [make] returns them; a
    channel is [true] once it is closed.  A goroutine started by
    [status3EventGenerator] is kept with its interval and the number of its
    [done] channel: it goes on ticking until that channel is closed.
    [None] is the panic of closing a channel twice. *)

Record poller : Set := mkPoller {
  chans : list bool;
  doneStatus3Gen : nat;
  generators : list (Z * nat);
}.

(** The part of [NewMgmtClient] that concerns the poller. *)
Definition poller_new : poller := mkPoller [false] 0 [].

(** [close(ch)]. *)
Definition close_chan (ch : nat) (cs : list bool) : option (list bool) :=
  match cs !! ch with
  | Some false => Some (<[ch := true]> cs)
  | _ => None
  end.

(** [SetStatus3Events], with [status3EventGenerator] in line. *)
Definition SetStatus3Events (interval : Z) (p : poller) : option (bool * poller) :=
  cs ← close_chan (doneStatus3Gen p) (chans p);
  let done := length cs in
  if 0 <? interval
  then Some (true, mkPoller (cs ++ [false]) done (generators p ++ [(interval, done)]))
  else Some (false, mkPoller (cs ++ [false]) done (generators p)).

(** A sequence of calls, with the value each returns. *)
Fixpoint SetStatus3Events_seq (intervals : list Z) (p : poller) : option (list bool * poller) :=
  match intervals with
  | [] => Some ([], p)
  | i :: rest =>
      '(r, p') ← SetStatus3Events i p;
      '(rs, p'') ← SetStatus3Events_seq rest p';
      Some (r :: rs, p'')
  end.

(** The goroutines whose [done] channel is still open. *)
Definition ticking (p : poller) : list (Z * nat) :=
  filter (fun g => chans p !! snd g = Some false) (generators p).

(** ** Vocabulary of the properties *)

(** Events that carry their own data: neither a wrapper nor a pointer. *)
Definition plain (e : Event) : bool :=
  match e with
  | AnInvalidEvent _ _ | AStatus3EventPtr _ => false
  | _ => true
  end.

Inductive factory_shape : Event -> Prop :=
| shape_plain e : plain e = true -> factory_shape e
| shape_invalid e err : plain e = true -> factory_shape (AnInvalidEvent (Some e) (Some err)).

(** The variables of [eventScanner] between two iterations: no buffer, or a
    CLIENT buffer with at least one line. *)
Definition scanner_ok (st : scanner) : Prop :=
  (bufKW st = "" /\ buf st = []) \/ (bufKW st = clientEventKW /\ buf st <> []).

(** A line of a multi-line block that is not the terminator. *)
Definition is_continuation (raw : string) : bool :=
  match splitEvent raw with
  | Ret (endMarker, _, _) =>
      negb (String.eqb endMarker emSingleLine) && negb (String.eqb raw endMarker)
  | Panics _ => false
  end.

(** A buffer is open. *)
Definition buffering (st : scanner) : Prop := bufKW st = clientEventKW /\ buf st <> [].

(** The body of a CLIENT line begins with one of the five prefixes that
    [splitEvent] tests. *)
Definition multiline_subtype (body : string) : bool :=
  HasPrefix body "CONNECT" || HasPrefix body "REAUTH" || HasPrefix body "ESTABLISHED"
  || HasPrefix body "DISCONNECT" || HasPrefix body "ENV".

(** Where an event is built: by one of the two factories, or by the status
    poller ticking on a client. *)
Inductive site : Type := Factory | Poller (c : MgmtClient).

Inductive constructed : site -> Event -> Prop :=
| by_upgradeEvent keyword body e :
    upgradeEvent keyword body = Ret e -> constructed Factory e
| by_upgradeMultilineEvent keyword body e :
    upgradeMultilineEvent keyword body = Ret e -> constructed Factory e
| by_generateStatus3Event c e c' :
    generateStatus3Event c = Ret (e, c') -> constructed (Poller c) e.

(** The status command itself fails on a client: the command cannot be
    written, or the reply lane is closed before any END line. *)
Definition command_failed (c : MgmtClient) : Prop :=
  broken (wr c) <> None \/ endMessage ∉ rawReplyCh c.

(** Column [i] of a row, the empty string when the row is too short: what
    the padded copy made by the row constructors holds. *)
Definition column (fields : list string) (i : nat) : string := default "" (fields !! i).

(** The errors a CLIENT_LIST row records, one slot per checked column: the
    real address, the two byte counters, the connection time, the client id
    and the peer id.  The two virtual addresses are not among them. *)
Definition client_row_checks (row : list string) : list (option error) :=
  [ snd (ParseIPAddrPort (column row CLRealAddr));
    snd (ParseInt (column row CLBytesRecv));
    snd (ParseInt (column row CLBytesSent));
    snd (ParseInt (column row CLConnectedSinceTimestamp));
    snd (ParseInt (column row CLClientId));
    snd (ParseInt (column row CLPeerId)) ].

(** The errors a ROUTING_TABLE row records. *)
Definition route_row_checks (row : list string) : list (option error) :=
  [ snd (ParseIPAddrPort (column row RTRealAddr));
    snd (ParseInt (column row RTLastRefTimestamp)) ].

Definition recorded (checks : list (option error)) : list error :=
  foldl note_err [] checks.

(** The best-effort value of every column of a CLIENT_LIST row, with the
    errors of the checked columns. *)
Definition client_row (row : list string) : Status3Client.t :=
  Status3Client.mk
    (column row CLCommonName)
    (fst (ParseIPAddrPort (column row CLRealAddr)))
    (SafeParseIP4Addr (column row CLVirtualAddr))
    (SafeParseIP6Addr (column row CLVirtualAddr6))
    (fst (ParseInt (column row CLBytesRecv)))
    (fst (ParseInt (column row CLBytesSent)))
    (column row CLConnectedSinceRaw)
    (fst (ParseInt (column row CLConnectedSinceTimestamp)))
    (column row CLUsername)
    (fst (ParseInt (column row CLClientId)))
    (fst (ParseInt (column row CLPeerId)))
    (column row CLDataChannelCipher)
    (recorded (client_row_checks row)).

Definition route_row (row : list string) : Status3Route.t :=
  Status3Route.mk
    (column row RTVirtualAddrFlags)
    (column row RTCommonName)
    (fst (ParseIPAddrPort (column row RTRealAddr)))
    (column row RTLastRefRaw)
    (fst (ParseInt (column row RTLastRefTimestamp)))
    (recorded (route_row_checks row)).

(** The rows of one kind in a payload: the fields after the line type of
    every line whose first field is [kw]. *)
Definition row_of (kw line : string) : option (list string) :=
  match Split line status3FieldSep with
  | lineType :: lineFields => if String.eqb lineType kw then Some lineFields else None
  | [] => None
  end.

Definition rows_of (kw : string) (payload : list string) : list (list string) :=
  omap (row_of kw) payload.

Definition client_valid (c : Status3Client.t) : Prop :=
  length (Status3Client.ParsingErrors c) = 0%nat.

Definition route_valid (r : Status3Route.t) : Prop :=
  length (Status3Route.ParsingErrors r) = 0%nat.

(** The four row lists of a snapshot grow from [se] to [se'] by the rows of
    [lines], each row on its side of the partition. *)
Definition rows_added (se se' : Status3Event.t) (lines : list string) : Prop :=
  let cs := client_row <$> rows_of status3ClientListKW lines in
  let rs := route_row <$> rows_of status3RoutingTableKW lines in
  Status3Event.clients se' = Status3Event.clients se ++ filter client_valid cs
  /\ Status3Event.invalidClients se'
     = Status3Event.invalidClients se ++ filter (fun c => ~ client_valid c) cs
  /\ Status3Event.routes se' = Status3Event.routes se ++ filter route_valid rs
  /\ Status3Event.invalidRoutes se'
     = Status3Event.invalidRoutes se ++ filter (fun r => ~ route_valid r) rs.

(** The byte [c] does not occur in [s]. *)
Definition sep_free (c : ascii) (s : string) : Prop := Index s (String c "") = None.

(** The value of a decimal numeral read from its most significant digit,
    after the digits already read have given [acc]. *)
Fixpoint dval (acc : Z) (d : Decimal.uint) : Z :=
  match d with
  | Decimal.Nil => acc
  | Decimal.D0 l => dval (acc * 10 + 0) l
  | Decimal.D1 l => dval (acc * 10 + 1) l
  | Decimal.D2 l => dval (acc * 10 + 2) l
  | Decimal.D3 l => dval (acc * 10 + 3) l
  | Decimal.D4 l => dval (acc * 10 + 4) l
  | Decimal.D5 l => dval (acc * 10 + 5) l
  | Decimal.D6 l => dval (acc * 10 + 6) l
  | Decimal.D7 l => dval (acc * 10 + 7) l
  | Decimal.D8 l => dval (acc * 10 + 8) l
  | Decimal.D9 l => dval (acc * 10 + 9) l
  end.

(** The text of a numeral holds decimal digits only. *)
Definition is_digit (c : ascii) : Prop := exists v, digit_of c = Some v.

Fixpoint all_chars (P : ascii -> Prop) (s : string) : Prop :=
  match s with
  | EmptyString => True
  | String c s' => P c /\ all_chars P s'
  end.




(** An environment line of a CLIENT block, as the daemon writes it. *)
Definition env_line (kv : string * string) : string :=
  clientEnvMarker +:+ fieldSep +:+ fst kv +:+ clientEnvKVSep +:+ snd kv.

(** A line that [splitEvent] frames as a single-line event. *)
Definition is_single_line (raw : string) : bool :=
  match splitEvent raw with
  | Ret (endMarker, _, _) => String.eqb endMarker emSingleLine
  | Panics _ => false
  end.

(** The number of buffers that are open: none or one. *)
Definition open_buffers (st : scanner) : nat :=
  if String.eqb (bufKW st) "" then 0%nat else 1%nat.

(** The commands that send one line and read one result. *)
Inductive command : Set :=
| CmdHoldRelease
| CmdSetLogEvents (on : bool)
| CmdSetStateEvents (on : bool)
| CmdSetEchoEvents (on : bool).

Definition run_command (k : command) : MgmtClient -> outcome (option error * MgmtClient) :=
  match k with
  | CmdHoldRelease => HoldRelease
  | CmdSetLogEvents on => SetLogEvents on
  | CmdSetStateEvents on => SetStateEvents on
  | CmdSetEchoEvents on => SetEchoEvents on
  end.

(** What the command puts on the wire, without the line end. *)
Definition command_text (k : command) : string :=
  match k with
  | CmdHoldRelease => "hold release"
  | CmdSetLogEvents on => "log " +:+ (if on then "on" else "off")
  | CmdSetStateEvents on => "state " +:+ (if on then "on" else "off")
  | CmdSetEchoEvents on => "echo " +:+ (if on then "on" else "off")
  end.

(** The client after one line has been written and one reply taken. *)
Definition exchanged (cmd : string) (c : MgmtClient) : MgmtClient :=
  mkClient (mkWriter (written (wr c) ++ [cmd +:+ newlineSep]) None) (tail (rawReplyCh c)).

(** The type of a payload line, and its fields after the type. *)
Definition line_type (line : string) : string :=
  default "" (head (Split line status3FieldSep)).

Definition line_fields (line : string) : list string :=
  tail (Split line status3FieldSep).

(** A TIME line has its two fields, a HEADER line its first. *)
Definition line_complete (line : string) : bool :=
  if String.eqb (line_type line) status3TimeKW
  then bool_decide (2 <= length (line_fields line))%nat
  else if String.eqb (line_type line) status3HeaderKW
  then bool_decide (1 <= length (line_fields line))%nat
  else true.

(** The fields of the last line of a type. *)
Definition last_fields (ty : string) (payload : list string) : option (list string) :=
  last (line_fields <$> filter (fun line => line_type line = ty) payload).

Definition status3_keywords : list string :=
  [status3TitleKW; status3TimeKW; status3HeaderKW; status3ClientListKW; status3RoutingTableKW].

(** The value a later line of the right kind overrides. *)
Definition overridden {A} (earlier : A) (later : option A) : A := default earlier later.

(** Every channel made so far is closed but the last, which is the one the
    client holds; no goroutine waits on a channel made later. *)
Definition poller_ok (p : poller) : Prop :=
  chans p = replicate (doneStatus3Gen p) true ++ [false]
  /\ Forall (fun g => (snd g <= doneStatus3Gen p)%nat) (generators p).

(** * Properties *)

(** ** The models of the standard library agree with Go on examples *)

Example split_examples :
  SplitN "1,2,3" "," 2 = ["1"; "2,3"] /\ Split "a,b,,c" "," = ["a"; "b"; ""; "c"] /\
  Split "" "," = [""] /\ SplitN "a,b" "," 0 = [] /\ Index "chicken" "ken" = Some 4%nat /\
  Join ["a"; "b"; "c"] ", " = "a, b, c".
Proof. repeat split; reflexivity. Qed.

Example parse_examples :
  ParseInt "123" = (123, None) /\ ParseInt "-9223372036854775808" = (- 2 ^ 63, None) /\
  ParseInt "9223372036854775808" = (2 ^ 63 - 1, Some (NumError "ParseInt" "9223372036854775808" ErrRange)) /\
  ParseInt "" = (0, Some (NumError "ParseInt" "" ErrSyntax)) /\
  ParseInt "+" = (0, Some (NumError "ParseInt" "+" ErrSyntax)) /\
  ParseInt "2,3" = (0, Some (NumError "ParseInt" "2,3" ErrSyntax)) /\
  Itoa 15 = "15" /\ Itoa 0 = "0" /\ Itoa (-3) = "-3".
Proof. repeat split; vm_compute; reflexivity. Qed.

Example net_examples :
  ParseIP "172.16.0.1" = Some [0;0;0;0;0;0;0;0;0;0;255;255;172;16;0;1] /\
  ParseIP "0.0.0.0" = Some [0;0;0;0;0;0;0;0;0;0;255;255;0;0;0;0] /\
  ParseIP "::" = Some (replicate 16 0) /\
  ParseIP "::1" = Some [0;0;0;0;0;0;0;0;0;0;0;0;0;0;0;1] /\
  ParseIP "fe80::1:2" = Some [254;128;0;0;0;0;0;0;0;0;0;0;0;1;0;2] /\
  ParseIP "::ffff:1.2.3.4" = Some [0;0;0;0;0;0;0;0;0;0;255;255;1;2;3;4] /\
  ParseIP "1:2:3:4:5:6:7:8" = Some [0;1;0;2;0;3;0;4;0;5;0;6;0;7;0;8] /\
  ParseIP "1:2:3:4:5:6:7::" = Some [0;1;0;2;0;3;0;4;0;5;0;6;0;7;0;0] /\
  ParseIP "1:2:3:4:5:6:7:8::" = None /\ ParseIP "1:2:3:4:5:6:7:8:9" = None /\
  ParseIP "1.2.3" = None /\ ParseIP "1.2.3.256" = None /\ ParseIP "01.2.3.4" = None /\
  ParseIP "" = None /\ ParseIP "bogus" = None /\ ParseIP "fe80::1%eth0" = None /\
  SplitHostPort "10.0.0.1:1194" = (("10.0.0.1", "1194"), None) /\
  SplitHostPort "[::1]:80" = (("::1", "80"), None) /\
  SplitHostPort "10.0.0.1" = (("", ""), Some (AddrError "missing port in address" "10.0.0.1")) /\
  SplitHostPort "::1:80" = (("", ""), Some (AddrError "too many colons in address" "::1:80")) /\
  SplitHostPort "" = (("", ""), Some (AddrError "missing port in address" "")).
Proof. repeat split; vm_compute; reflexivity. Qed.

(** ** The outcome monad *)

Lemma returns_Ret {A} (a : A) : returns (Ret a).
Proof. by exists a. Qed.

Lemma returns_bind {A B} (m : outcome A) (f : A -> outcome B) :
  returns m -> (forall a, m = Ret a -> returns (f a)) -> returns (m ≫= f).
Proof. intros [a ->] Hf. by apply Hf. Qed.

Lemma bind_Ret_inv {A B} (m : outcome A) (f : A -> outcome B) (b : B) :
  m ≫= f = Ret b -> exists a, m = Ret a /\ f a = Ret b.
Proof. destruct m as [a|p]; [by exists a | done]. Qed.

Lemma at_index_lt {A} (l : list A) (i : nat) :
  (i < length l)%nat -> exists x, at_index l i = Ret x /\ l !! i = Some x.
Proof.
  intros Hi. unfold at_index.
  destruct (lookup_lt_is_Some_2 l i Hi) as [x ->]. by exists x.
Qed.

Lemma at_index_Ret {A} (l : list A) (i : nat) (x : A) :
  at_index l i = Ret x <-> l !! i = Some x.
Proof. unfold at_index. destruct (l !! i); split; congruence. Qed.

Lemma at_index_nil {A} (i : nat) : at_index (@nil A) i = Panics IndexOutOfRange.
Proof. by destruct i. Qed.

(** ** Strings *)

Lemma append_nil (t : string) : "" +:+ t = t.
Proof. reflexivity. Qed.

Lemma append_cons (a : ascii) (s t : string) : String a s +:+ t = String a (s +:+ t).
Proof. reflexivity. Qed.

Lemma HasPrefix_length (s p : string) :
  HasPrefix s p = true -> (String.length p <= String.length s)%nat.
Proof.
  revert s. induction p as [|a p IH]; intros [|b s] H; simpl in *; try lia; try done.
  destruct (Ascii.eqb a b); [|done]. specialize (IH _ H). lia.
Qed.

Lemma substring_whole (s : string) : substring 0 (String.length s) s = s.
Proof. induction s as [|c s IH]; simpl; [done|]. by rewrite IH. Qed.

Lemma HasPrefix_app (s p : string) :
  HasPrefix s p = true ->
  s = p +:+ substring (String.length p) (String.length s - String.length p) s.
Proof.
  revert s. induction p as [|a p IH]; intros s H.
  - rewrite append_nil. simpl. by rewrite Nat.sub_0_r, substring_whole.
  - destruct s as [|b s]; [done|]. simpl in H.
    destruct (Ascii.eqb_spec a b) as [->|]; [|done].
    rewrite append_cons. simpl. f_equal. by apply IH.
Qed.

Lemma HasPrefix_app_l (p s : string) : HasPrefix (p +:+ s) p = true.
Proof.
  induction p as [|a p IH]; [reflexivity|].
  rewrite append_cons. simpl. by rewrite Ascii.eqb_refl.
Qed.


Lemma substring_cut (s : string) (n : nat) :
  (n <= String.length s)%nat ->
  s = substring 0 n s +:+ substring n (String.length s - n) s.
Proof.
  revert s. induction n as [|n IH]; intros s H.
  - simpl. rewrite Nat.sub_0_r, substring_whole. by destruct s.
  - destruct s as [|c s]; simpl in *; [lia|].
    rewrite append_cons. f_equal. apply IH. lia.
Qed.

Lemma substring_tail_length (s : string) (j : nat) :
  (j <= String.length s)%nat ->
  String.length (substring j (String.length s - j) s) = (String.length s - j)%nat.
Proof.
  revert s. induction j as [|j IH]; intros s H.
  - by rewrite Nat.sub_0_r, substring_whole.
  - destruct s as [|c s]; simpl in *; [lia|]. apply IH. lia.
Qed.

Lemma Index_from_bound (i : nat) (s sep : string) (j : nat) :
  Index_from i s sep = Some j ->
  (i <= j)%nat /\ (j - i + String.length sep <= String.length s)%nat.
Proof.
  revert i. induction s as [|c s IH]; intros i; simpl.
  - destruct (HasPrefix "" sep) eqn:Hp; [|done].
    intros [= <-]. apply HasPrefix_length in Hp. simpl in Hp. lia.
  - destruct (HasPrefix (String c s) sep) eqn:Hp.
    + intros [= <-]. apply HasPrefix_length in Hp. simpl in Hp. lia.
    + intros H. apply IH in H. lia.
Qed.

Lemma Index_bound (s sep : string) (j : nat) :
  Index s sep = Some j -> (j + String.length sep <= String.length s)%nat.
Proof. intros H. apply Index_from_bound in H. lia. Qed.

Lemma Index_from_shift (i : nat) (s sep : string) :
  Index_from (S i) s sep = S <$> Index_from i s sep.
Proof.
  revert i. induction s as [|c s IH]; intros i; simpl.
  - by destruct (HasPrefix "" sep).
  - destruct (HasPrefix (String c s) sep); [done|]. apply IH.
Qed.

(** At the position that [Index] returns the separator is a prefix of the
    rest of the string. *)
Lemma Index_prefix (s sep : string) (j : nat) :
  Index s sep = Some j ->
  HasPrefix (substring j (String.length s - j) s) sep = true.
Proof.
  unfold Index. revert j. induction s as [|c s IH]; intros j; simpl.
  - destruct (HasPrefix "" sep) eqn:Hp; [|done]. by intros [= <-].
  - destruct (HasPrefix (String c s) sep) eqn:Hp.
    + intros [= <-]. simpl. by rewrite substring_whole.
    + rewrite Index_from_shift. destruct (Index_from 0 s sep) as [k|] eqn:Hk; [|done].
      intros [= <-]. simpl. by apply IH.
Qed.

Lemma substring_substring_tail (s : string) (j n : nat) :
  (j + n <= String.length s)%nat ->
  substring n (String.length s - j - n) (substring j (String.length s - j) s)
  = substring (j + n) (String.length s - (j + n)) s.
Proof.
  revert s. induction j as [|j IH]; intros s H.
  - rewrite !Nat.sub_0_r, substring_whole. done.
  - destruct s as [|c s]; simpl in *; [lia|]. apply IH. lia.
Qed.

(** A string is cut by [Index] into the part before the separator, the
    separator, and the part after it. *)
Lemma Index_cut (s sep : string) (j : nat) :
  Index s sep = Some j ->
  s = substring 0 j s +:+ sep
      +:+ substring (j + String.length sep) (String.length s - (j + String.length sep)) s.
Proof.
  intros H. pose proof (Index_bound _ _ _ H) as Hb.
  pose proof (Index_prefix _ _ _ H) as Hp. apply HasPrefix_app in Hp.
  rewrite (substring_cut s j) at 1 by lia. f_equal.
  rewrite Hp at 1. f_equal.
  rewrite substring_tail_length by lia.
  apply substring_substring_tail. lia.
Qed.

(** ** The cases of the package's test suite *)

Example TestMalformedEvent :
  Forall (fun line => parseLine line = Ret (AMalformedEvent (NewMalformedEvent line)))
    [""; "HTTP/1.1 200 OK"; "     "; String (ascii_of_nat 0) ""].
Proof. repeat constructor. Qed.

Example TestUnknownEvent :
  parseLine "DUMMY:baz" = Ret (AnUnknownEvent (NewUnknownEvent "DUMMY" "baz"))
  /\ parseLine "DUMMY:" = Ret (AnUnknownEvent (NewUnknownEvent "DUMMY" ""))
  /\ parseLine "DUMMY:abc,123,456" = Ret (AnUnknownEvent (NewUnknownEvent "DUMMY" "abc,123,456")).
Proof. repeat split. Qed.

Example TestHoldEvent :
  parseLine "HOLD:" = Ret (AHoldEvent (NewHoldEvent ""))
  /\ parseLine "HOLD:waiting for hold release"
     = Ret (AHoldEvent (NewHoldEvent "waiting for hold release")).
Proof. repeat split. Qed.

Example TestEchoEvent :
  parseLine "ECHO:123,foo" = Ret (AnEchoEvent (EchoEvent.mk "123,foo" 123 "foo"))
  /\ parseLine "ECHO:123," = Ret (AnEchoEvent (EchoEvent.mk "123," 123 ""))
  /\ parseLine "ECHO:,foo"
     = Ret (AnInvalidEvent (Some (AnEchoEvent (EchoEvent.mk ",foo" 0 "foo")))
              (snd (ParseInt "")))
  /\ parseLine "ECHO:,"
     = Ret (AnInvalidEvent (Some (AnEchoEvent (EchoEvent.mk "," 0 ""))) (snd (ParseInt "")))
  /\ parseLine "ECHO:"
     = Ret (AnInvalidEvent (Some (AnEchoEvent (EchoEvent.mk "" 0 ""))) (Some ErrNoMsgFieldSep)).
Proof. repeat split. Qed.

Example TestLogEvent :
  parseLine "LOG:"
  = Ret (AnInvalidEvent (Some (ALogEvent (LogEvent.mk "" [""; ""; ""] 0))) (snd (ParseInt "")))
  /\ parseLine "LOG:,,,,,"
     = Ret (AnInvalidEvent (Some (ALogEvent (LogEvent.mk ",,,,," [""; ""; ",,,"] 0)))
              (snd (ParseInt "")))
  /\ parseLine "LOG:1584536294,IW,log message"
     = Ret (ALogEvent (LogEvent.mk "1584536294,IW,log message"
                         ["1584536294"; "IW"; "log message"] 1584536294)).
Proof. repeat split. Qed.

Example TestStateEvent :
  parseLine "STATE:"
  = Ret (AnInvalidEvent (Some (AStateEvent (StateEvent.mk "" [""; ""; ""; ""; ""] 0)))
           (snd (ParseInt "")))
  /\ (exists e, parseLine "STATE:123,CONNECTED,good,172.16.0.1,192.168.4.1" = Ret (AStateEvent e)
                /\ StateEvent.Timestamp e = 123
                /\ StateEvent.Name e = Ret "CONNECTED"
                /\ StateEvent.Description e = Ret "good"
                /\ StateEvent.LocalTunnelAddr e = Ret "172.16.0.1"
                /\ StateEvent.RemoteAddr e = Ret "192.168.4.1")
  /\ (exists e, parseLine "STATE:123,RECONNECTING,SIGHUP,,,extra" = Ret (AStateEvent e)
                /\ StateEvent.Name e = Ret "RECONNECTING"
                /\ StateEvent.Description e = Ret "SIGHUP"
                /\ StateEvent.LocalTunnelAddr e = Ret ""
                /\ StateEvent.RemoteAddr e = Ret "").
Proof. split; [reflexivity|]. split; eexists; repeat split. Qed.

Example TestByteCountEvent :
  parseLine "BYTECOUNT:"
  = Ret (AnInvalidEvent (Some (AByteCountEvent (ByteCountEvent.mk "" 0 0))) (snd (ParseInt "")))
  /\ parseLine "BYTECOUNT:5,"
     = Ret (AnInvalidEvent (Some (AByteCountEvent (ByteCountEvent.mk "5," 5 0)))
              (snd (ParseInt "")))
  /\ parseLine "BYTECOUNT:,6"
     = Ret (AnInvalidEvent (Some (AByteCountEvent (ByteCountEvent.mk ",6" 0 0)))
              (snd (ParseInt "")))
  /\ parseLine "BYTECOUNT:6"
     = Ret (AnInvalidEvent (Some (AByteCountEvent (ByteCountEvent.mk "6" 6 0)))
              (snd (ParseInt "")))
  /\ parseLine "BYTECOUNT:bad,bad"
     = Ret (AnInvalidEvent (Some (AByteCountEvent (ByteCountEvent.mk "bad,bad" 0 0)))
              (snd (ParseInt "bad"))).
Proof. repeat split. Qed.

Example TestByteCountClientEvent :
  parseLine "BYTECOUNT_CLI:123,456"
  = Ret (AnInvalidEvent
           (Some (AByteCountClientEvent (ByteCountClientEvent.mk "123,456" 123 456 0)))
           (snd (ParseInt "")))
  /\ parseLine "BYTECOUNT_CLI:123,123,456"
     = Ret (AByteCountClientEvent (ByteCountClientEvent.mk "123,123,456" 123 123 456))
  /\ parseLine "BYTECOUNT_CLI:bad,123"
     = Ret (AnInvalidEvent
              (Some (AByteCountClientEvent (ByteCountClientEvent.mk "bad,123" 0 0 0)))
              (snd (ParseInt "bad"))).
Proof. repeat split. Qed.

(** A CLIENT block, assembled from its lines. *)
Example client_block_assembled :
  exists e,
    eventScanner ["CLIENT:CONNECT,7,2"; "CLIENT:ENV,foo=bar"; "CLIENT:ENV,END"]
    = Ret [AClientEvent e]
    /\ ClientEvent.Type_ e = CEConnect /\ ClientEvent.ClientId e = 7
    /\ ClientEvent.KeyId e = 2 /\ ClientEvent.RawEnv e "foo" = "bar"
    /\ ClientEvent.envs e = {[ "foo" := "bar" ]}.
Proof. eexists. split; [reflexivity|]. repeat split. Qed.

(** ** Field splitting never yields fewer than [k] parts *)

Lemma split_cuts_nonempty (fuel : nat) (s sep : string) :
  (1 <= length (split_cuts fuel s sep))%nat.
Proof. destruct fuel as [|f]; simpl; [lia|]. destruct (Index s sep); simpl; lia. Qed.

Lemma SplitN_nonempty (s sep : string) (n : Z) :
  n <> 0 -> (1 <= length (SplitN s sep n))%nat.
Proof.
  intros Hn. unfold SplitN. destruct (Z.eqb_spec n 0) as [|_]; [done|].
  destruct (String.eqb sep ""); [simpl; lia|].
  destruct (n <? 0); apply split_cuts_nonempty.
Qed.

Lemma make_copy_length (k : nat) (parts : list string) :
  (length parts <= k)%nat -> length (make_copy k parts) = k.
Proof.
  intros H. unfold make_copy. rewrite length_app, length_take, length_replicate. lia.
Qed.

Lemma stringsSplitNK_length (s sep : string) (n k : Z) :
  (Z.to_nat k <= length (stringsSplitNK s sep n k))%nat.
Proof.
  unfold stringsSplitNK. destruct (Z.leb_spec k (Z.of_nat (length (SplitN s sep n)))).
  - lia.
  - rewrite make_copy_length; lia.
Qed.

Lemma at_index_splitNK (s sep : string) (n k : Z) (i : nat) :
  (i < Z.to_nat k)%nat -> exists x, at_index (stringsSplitNK s sep n k) i = Ret x.
Proof.
  intros Hi. pose proof (stringsSplitNK_length s sep n k).
  destruct (at_index_lt (stringsSplitNK s sep n k) i) as (x & Hx & _); [lia|]. eauto.
Qed.

Lemma bind_Ret {A B} (a : A) (f : A -> outcome B) : Ret a ≫= f = f a.
Proof. reflexivity. Qed.

(** Resolve the next field access of a constructor: the field exists
    because [stringsSplitNK] pads up to [k] parts. *)
Ltac field_ok :=
  match goal with
  | |- returns (at_index (stringsSplitNK ?s ?sep ?n ?k) ?i ≫= _) =>
      let x := fresh "p" in
      let H := fresh "Hp" in
      destruct (at_index_splitNK s sep n k i) as [x H]; [simpl; lia|];
      rewrite H; clear H; rewrite bind_Ret
  end.

Ltac parsed_ok :=
  match goal with
  | |- returns (match ParseInt ?p with _ => _ end) => destruct (ParseInt p) as [? [?|]]
  | |- returns (match ParseBool ?p with _ => _ end) => destruct (ParseBool p) as [? [?|]]
  end.

Lemma str_from_returns (s : string) (i : nat) :
  (i <= String.length s)%nat -> exists t, str_from s i = Ret t.
Proof. intros H. unfold str_from. rewrite decide_True by done. eauto. Qed.

Lemma str_to_returns (s : string) (i : nat) :
  (i <= String.length s)%nat -> str_to s i = Ret (substring 0 i s).
Proof. intros H. unfold str_to. by rewrite decide_True. Qed.

(** ** The constructors of the single-line events are total *)

Lemma NewLogEvent_returns (body : string) : returns (NewLogEvent body).
Proof. unfold NewLogEvent. field_ok. parsed_ok; apply returns_Ret. Qed.

Lemma NewStateEvent_returns (body : string) : returns (NewStateEvent body).
Proof. unfold NewStateEvent. field_ok. parsed_ok; apply returns_Ret. Qed.

Lemma NewEchoEvent_returns (body : string) : returns (NewEchoEvent body).
Proof.
  unfold NewEchoEvent. destruct (Index body fieldSep) as [i|] eqn:Hi; [|apply returns_Ret].
  apply Index_bound in Hi. simpl in Hi.
  destruct (str_from_returns body (i + 1)) as [msg ->]; [lia|].
  rewrite bind_Ret, str_to_returns, bind_Ret by lia.
  parsed_ok; apply returns_Ret.
Qed.

Lemma NewByteCountEvent_returns (body : string) : returns (NewByteCountEvent body).
Proof.
  unfold NewByteCountEvent. field_ok. parsed_ok; [apply returns_Ret|].
  field_ok. parsed_ok; apply returns_Ret.
Qed.

Lemma NewByteCountClientEvent_returns (body : string) :
  returns (NewByteCountClientEvent body).
Proof.
  unfold NewByteCountClientEvent. field_ok. parsed_ok; [apply returns_Ret|].
  field_ok. parsed_ok; [apply returns_Ret|].
  field_ok. parsed_ok; apply returns_Ret.
Qed.

Lemma client_envs_returns (lines : list string) (envs : gmap string string) :
  returns (client_envs lines envs).
Proof.
  revert envs. induction lines as [|line rest IH]; intros envs; cbn [client_envs].
  - apply returns_Ret.
  - destruct (HasPrefix line (clientEnvMarker +:+ fieldSep)) eqn:Hp; cbn [negb];
      [|apply returns_Ret].
    apply HasPrefix_length in Hp.
    destruct (str_from_returns line (String.length (clientEnvMarker +:+ fieldSep)))
      as [kv ->]; [done|].
    rewrite bind_Ret. do 2 field_ok. apply IH.
Qed.

(** [NewClientEvent] panics on the empty payload and on nothing else. *)
Lemma NewClientEvent_returns (payload : list string) :
  payload <> [] -> returns (NewClientEvent payload).
Proof.
  destruct payload as [|hd rest]; [done|]. intros _.
  unfold NewClientEvent. change (at_index (hd :: rest) 0) with (Ret hd).
  rewrite bind_Ret. field_ok. cbv zeta.
  match goal with |- context [match ?k with Some _ => _ | None => _ end] =>
    destruct k as [ty|] end; [|apply returns_Ret].
  field_ok. parsed_ok; [apply returns_Ret|].
  assert (Hkid : exists kid err,
    (match ty with
     | CEConnect | CEReauth =>
         p2 ← at_index (stringsSplitNK hd fieldSep 4 4) 2; mret (ParseInt p2)
     | _ => mret (0, None)
     end) = Ret (kid, err)).
  { destruct ty; try (by eexists _, _);
      (destruct (at_index_splitNK hd fieldSep 4 4 2) as [p2 ->]; [simpl; lia|]);
      rewrite bind_Ret; destruct (ParseInt p2); by eexists _, _. }
  destruct Hkid as (kid & err & ->). rewrite bind_Ret.
  destruct err; [apply returns_Ret|].
  change (slice_from (hd :: rest) 1) with (Ret rest).
  destruct ty; rewrite ?bind_Ret;
    try (do 2 field_ok; parsed_ok; apply returns_Ret);
    (destruct (client_envs_returns rest ∅) as [[envs e] ->]; apply returns_Ret).
Qed.

Lemma NewClientEvent_nil : NewClientEvent [] = Panics IndexOutOfRange.
Proof. reflexivity. Qed.

(** ** The event factory is total on single lines *)

Lemma splitEvent_returns (line : string) : returns (splitEvent line).
Proof.
  unfold splitEvent. destruct (Index line eventSep) as [i|] eqn:Hi; [|apply returns_Ret].
  apply Index_bound in Hi. simpl in Hi.
  rewrite str_to_returns, bind_Ret by lia.
  destruct (str_from_returns line (i + 1)) as [body ->]; [lia|]. rewrite bind_Ret.
  match goal with |- returns (if ?b then _ else _) => destruct b end; apply returns_Ret.
Qed.

Lemma returns_wrap {A} (m : outcome (A * option error)) (f : A -> Event) :
  returns m -> returns ('(e, err) ← m; mret (wrap_invalid (f e) err)).
Proof. intros [[e err] ->]. apply returns_Ret. Qed.

Theorem upgradeEvent_returns (keyword body : string) : returns (upgradeEvent keyword body).
Proof.
  unfold upgradeEvent.
  repeat match goal with |- returns (if ?b then _ else _) => destruct b end;
    try apply returns_Ret; apply returns_wrap.
  - apply NewLogEvent_returns.
  - apply NewStateEvent_returns.
  - apply NewEchoEvent_returns.
  - apply NewByteCountEvent_returns.
  - apply NewByteCountClientEvent_returns.
  - by apply NewClientEvent_returns.
Qed.

Theorem parseLine_returns (line : string) : returns (parseLine line).
Proof.
  unfold parseLine. destruct (splitEvent_returns line) as [[[em kw] body] ->].
  rewrite bind_Ret. apply upgradeEvent_returns.
Qed.

(** [upgradeMultilineEvent] panics exactly on a CLIENT block without lines. *)
Lemma upgradeMultilineEvent_returns (keyword : string) (body : list string) :
  (keyword = clientEventKW -> body <> []) -> returns (upgradeMultilineEvent keyword body).
Proof.
  intros Hb. unfold upgradeMultilineEvent.
  destruct (String.eqb keyword ""); [apply returns_Ret|].
  destruct (String.eqb_spec keyword clientEventKW) as [Hk|_]; [|apply returns_Ret].
  apply returns_wrap, NewClientEvent_returns. auto.
Qed.

Lemma upgradeMultilineEvent_client_nil :
  upgradeMultilineEvent clientEventKW [] = Panics IndexOutOfRange.
Proof. reflexivity. Qed.

(** ** What the factories can return *)

Lemma wrap_invalid_shape (evt : Event) (err : option error) :
  plain evt = true -> factory_shape (wrap_invalid evt err).
Proof. intros H. destruct err; simpl; by constructor. Qed.

Lemma wrapped_shape {A} (m : outcome (A * option error)) (f : A -> Event) (e : Event) :
  (forall a, plain (f a) = true) ->
  ('(a, err) ← m; mret (wrap_invalid (f a) err)) = Ret e -> factory_shape e.
Proof.
  intros Hf H. apply bind_Ret_inv in H as ([a err] & _ & [= <-]).
  by apply wrap_invalid_shape.
Qed.

Lemma upgradeEvent_shape (keyword body : string) (e : Event) :
  upgradeEvent keyword body = Ret e -> factory_shape e.
Proof.
  unfold upgradeEvent.
  repeat match goal with |- (if ?b then _ else _) = _ -> _ => destruct b end;
    try (intros [= <-]; by constructor);
    intros H; eapply wrapped_shape in H; eauto.
Qed.

Lemma upgradeMultilineEvent_shape (keyword : string) (body : list string) (e : Event) :
  upgradeMultilineEvent keyword body = Ret e -> factory_shape e.
Proof.
  unfold upgradeMultilineEvent.
  repeat match goal with |- (if ?b then _ else _) = _ -> _ => destruct b end;
    try (intros [= <-]; by constructor);
    intros H; eapply wrapped_shape in H; eauto.
Qed.



(** ** The event assembler *)

(** [splitEvent] frames a line as multi-line only under the CLIENT keyword. *)
Lemma splitEvent_markers (line : string) (em : eventEndMarker) (kw body : string) :
  splitEvent line = Ret (em, kw, body) ->
  (em = emSingleLine) \/ (em = emClient /\ kw = clientEventKW).
Proof.
  unfold splitEvent. destruct (Index line eventSep) as [i|]; [|intros [= <- _ _]; by left].
  intros H. apply bind_Ret_inv in H as (k & _ & H). apply bind_Ret_inv in H as (b & _ & H).
  destruct (String.eqb_spec k clientEventKW) as [->|_]; simpl in H.
  - match type of H with (if ?c then _ else _) = _ => destruct c end;
      injection H as <- <- <-; auto.
  - injection H as <- <- <-; auto.
Qed.

Lemma scanner_init_ok : scanner_ok scanner_init.
Proof. by left. Qed.

Lemma flushMultilineBuf_returns (st : scanner) :
  scanner_ok st -> exists e, flushMultilineBuf st = Ret ([e], scanner_init).
Proof.
  intros Hst. unfold flushMultilineBuf.
  destruct (upgradeMultilineEvent_returns (bufKW st) (buf st)) as [e ->].
  - destruct Hst as [[Hk _]|[_ Hb]]; [by rewrite Hk|done].
  - by exists e.
Qed.

Lemma app_singleton_ne_nil {A} (l : list A) (x : A) : l ++ [x] <> [].
Proof. by destruct l. Qed.

(** One iteration of the loop never panics and keeps the invariant. *)
Lemma scanLine_ok (st : scanner) (raw : string) :
  scanner_ok st ->
  exists sent st', scanLine st raw = Ret (sent, st') /\ scanner_ok st'.
Proof.
  intros Hst. unfold scanLine.
  destruct (splitEvent_returns raw) as [[[em kw] body] Hs]. rewrite Hs, bind_Ret.
  unfold scanSplit.
  destruct (String.eqb_spec em emSingleLine) as [->|Hem].
  - destruct (upgradeEvent_returns kw body) as [e ->]. rewrite bind_Ret.
    destruct (_ || _).
    + destruct (flushMultilineBuf_returns st Hst) as [f ->]. rewrite bind_Ret.
      eexists _, _; split; [done|apply scanner_init_ok].
    + eexists _, _; split; [done|done].
  - destruct (splitEvent_markers _ _ _ _ Hs) as [?|[-> ->]]; [done|].
    destruct (String.eqb raw emClient).
    { destruct (flushMultilineBuf_returns st Hst) as [f ->].
      eexists _, _; split; [done|apply scanner_init_ok]. }
    destruct Hst as [[-> Hb]|[-> Hb]]; simpl.
    + eexists _, _; split; [done|]. right. split; [done|apply app_singleton_ne_nil].
    + eexists _, _; split; [done|]. right. split; [done|apply app_singleton_ne_nil].
Qed.

Lemma scanLines_ok (st : scanner) (lines : list string) :
  scanner_ok st ->
  exists sent st', scanLines st lines = Ret (sent, st') /\ scanner_ok st'.
Proof.
  revert st. induction lines as [|raw rest IH]; intros st Hst; cbn [scanLines].
  - by eexists _, _.
  - destruct (scanLine_ok st raw Hst) as (s1 & st1 & -> & H1). rewrite bind_Ret.
    destruct (IH st1 H1) as (s2 & st2 & -> & H2). rewrite bind_Ret.
    by eexists _, _.
Qed.

(** The assembler never panics, whatever the lines. *)
Theorem eventScanner_returns (lines : list string) : returns (eventScanner lines).
Proof.
  unfold eventScanner.
  destruct (scanLines_ok scanner_init lines scanner_init_ok) as (sent & st & -> & _).
  apply returns_Ret.
Qed.

Lemma scanLines_app (st : scanner) (l1 l2 : list string) :
  scanLines st (l1 ++ l2) =
  '(s1, st1) ← scanLines st l1; '(s2, st2) ← scanLines st1 l2; mret (s1 ++ s2, st2).
Proof.
  revert st. induction l1 as [|raw rest IH]; intros st; cbn [scanLines app].
  - rewrite bind_Ret. by destruct (scanLines st l2) as [[s2 st2]|].
  - destruct (scanLine st raw) as [[s st1]|]; [|done]. rewrite !bind_Ret, IH.
    destruct (scanLines st1 rest) as [[s1 st2]|]; [|done]. rewrite !bind_Ret.
    destruct (scanLines st2 l2) as [[s2 st3]|]; [|done]. rewrite !bind_Ret.
    by rewrite app_assoc.
Qed.

Lemma scanLine_continuation (st : scanner) (raw : string) :
  scanner_ok st -> is_continuation raw = true ->
  exists st', scanLine st raw = Ret ([], st') /\ buffering st'.
Proof.
  intros Hst Hc. unfold is_continuation in Hc. unfold scanLine.
  destruct (splitEvent raw) as [[[em kw] body]|] eqn:Hs; [|done]. rewrite bind_Ret.
  apply andb_prop in Hc as [H1 H2]. unfold scanSplit.
  destruct (String.eqb em emSingleLine) eqn:E1; [done|].
  destruct (String.eqb raw em); [done|].
  destruct (splitEvent_markers _ _ _ _ Hs) as [->|[-> ->]]; [done|].
  destruct Hst as [[-> Hb]|[-> Hb]]; simpl;
    (eexists; split; [done|]; split; [done|apply app_singleton_ne_nil]).
Qed.

Lemma scanLines_continuation (st : scanner) (block : list string) :
  scanner_ok st -> Forall (fun raw => is_continuation raw = true) block ->
  exists st', scanLines st block = Ret ([], st') /\ scanner_ok st'
              /\ (block <> [] -> buffering st').
Proof.
  intros Hst Hb. revert st Hst. induction Hb as [|raw rest Hr _ IH]; intros st Hst.
  - by exists st.
  - cbn [scanLines].
    destruct (scanLine_continuation st raw Hst Hr) as (st1 & -> & Hopen).
    rewrite bind_Ret.
    destruct (IH st1 (or_intror Hopen)) as (st2 & E & Hok & Hopen2).
    rewrite E, bind_Ret.
    exists st2. split; [done|]. split; [done|]. intros _.
    destruct rest as [|r rest']; [|by apply Hopen2].
    cbn in E. by injection E as <-.
Qed.

(** The branch of [eventScanner] for a buffer under another keyword is never
    taken on lines that come from [splitEvent]: the buffer, when open, is a
    CLIENT buffer, and so is every multi-line line. *)
Lemma scanLine_same_keyword (st : scanner) (raw : string)
    (em : eventEndMarker) (kw body : string) :
  scanner_ok st -> splitEvent raw = Ret (em, kw, body) -> em <> emSingleLine ->
  bufKW st = "" \/ bufKW st = kw.
Proof.
  intros Hst Hs Hem. destruct (splitEvent_markers _ _ _ _ Hs) as [?|[_ ->]]; [done|].
  destruct Hst as [[-> _]|[-> _]]; auto.
Qed.

(** A single-line event that arrives while a buffer is open is sent first;
    the buffer is flushed after it. *)
Lemma scanSplit_single_line_open_buffer (st : scanner) (raw kw body : string) (e f : Event) :
  buf st <> [] \/ bufKW st <> "" ->
  upgradeEvent kw body = Ret e ->
  upgradeMultilineEvent (bufKW st) (buf st) = Ret f ->
  scanSplit st raw emSingleLine kw body = Ret ([e; f], scanner_init).
Proof.
  intros Hopen He Hf. unfold scanSplit, flushMultilineBuf.
  rewrite He, Hf. cbn [String.eqb emSingleLine]. rewrite !bind_Ret.
  replace (_ || _) with true; [done|]. symmetry. apply orb_true_iff.
  destruct Hopen as [Hb|Hk].
  - left. apply bool_decide_eq_true. destruct (buf st); [done|simpl; lia].
  - right. by destruct (String.eqb_spec (bufKW st) "").
Qed.

(** C2 (as amended): when the event lane closes while a multi-line buffer is
    open, nothing is flushed.  For every line sequence [pre] followed by
    continuation lines [block] of a block that is never terminated, the
    assembler runs to the end of the lane without a panic, the buffer is open
    at that point when [block] is not empty, and the events delivered before
    the delivery lane is closed are exactly those delivered for [pre]: the
    lines of the unterminated block produce no event. *)
Theorem eventScanner_close_drops_open_buffer (pre block : list string) :
  Forall (fun raw => is_continuation raw = true) block ->
  exists sent st,
    scanLines scanner_init (pre ++ block) = Ret (sent, st)
    /\ (block <> [] -> buffering st)
    /\ eventScanner pre = Ret sent
    /\ eventScanner (pre ++ block) = Ret sent.
Proof.
  intros Hblock.
  destruct (scanLines_ok scanner_init pre scanner_init_ok) as (sent & st1 & Hpre & Hok).
  destruct (scanLines_continuation st1 block Hok Hblock) as (st2 & Hb & _ & Hopen).
  assert (Hall : scanLines scanner_init (pre ++ block) = Ret (sent, st2)).
  { rewrite scanLines_app, Hpre, bind_Ret, Hb, bind_Ret. by rewrite app_nil_r. }
  exists sent, st2. unfold eventScanner. by rewrite Hall, Hpre.
Qed.

Lemma eventScanner_close_drops_open_buffer_witness :
  Forall (fun raw => is_continuation raw = true) ["CLIENT:CONNECT,7,2"; "CLIENT:ENV,foo=bar"]
  /\ exists sent st,
       scanLines scanner_init (["HOLD:x"] ++ ["CLIENT:CONNECT,7,2"; "CLIENT:ENV,foo=bar"])
       = Ret (sent, st)
       /\ (["CLIENT:CONNECT,7,2"; "CLIENT:ENV,foo=bar"] <> [] -> buffering st)
       /\ eventScanner ["HOLD:x"] = Ret sent
       /\ eventScanner (["HOLD:x"] ++ ["CLIENT:CONNECT,7,2"; "CLIENT:ENV,foo=bar"]) = Ret sent.
Proof.
  assert (H : Forall (fun raw => is_continuation raw = true)
                ["CLIENT:CONNECT,7,2"; "CLIENT:ENV,foo=bar"]).
  { repeat constructor. }
  split; [exact H|].
  exact (eventScanner_close_drops_open_buffer ["HOLD:x"] _ H).
Defined.

(** C2, the claim as stated, fails: the event lane carries the header and
    one environment line of a CLIENT block and is then closed.  The buffer
    holds both lines at that point and would flush without a panic, yet
    nothing at all is sent before the delivery lane is closed. *)
Lemma open_buffer_lost_on_close :
  scanLines scanner_init ["CLIENT:CONNECT,7,2"; "CLIENT:ENV,foo=bar"]
  = Ret ([], mkScanner clientEventKW ["CONNECT,7,2"; "ENV,foo=bar"])
  /\ returns (flushMultilineBuf (mkScanner clientEventKW ["CONNECT,7,2"; "ENV,foo=bar"]))
  /\ eventScanner ["CLIENT:CONNECT,7,2"; "CLIENT:ENV,foo=bar"] = Ret [].
Proof.
  split; [reflexivity|]. split; [|reflexivity].
  destruct (flushMultilineBuf_returns (mkScanner clientEventKW ["CONNECT,7,2"; "ENV,foo=bar"]))
    as [e He]; [by right|].
  by exists ([e], scanner_init).
Qed.

(** C5, evaluated where the code departs from the claim: a CLIENT block is
    open when the single-line event HOLD arrives.  The HOLD event is sent
    first and the flushed CLIENT event after it. *)
Theorem single_line_event_overtakes_open_buffer :
  eventScanner ["CLIENT:CONNECT,7,2"; "HOLD:waiting"]
  = Ret [AHoldEvent (NewHoldEvent "waiting");
         AClientEvent (ClientEvent.mk "CONNECT,7,2" CEConnect 7 2 "" false ∅)].
Proof. reflexivity. Qed.

(** The branch of the loop body for a buffer that is open under another
    keyword: the buffer is flushed and the line is sent at once through the
    single-line factory; no buffer is started for it.  By
    [scanLine_same_keyword] no line that [splitEvent] has cut reaches this
    branch, so it says nothing of what the assembler does on real lines. *)
Lemma scanSplit_other_keyword
    (st : scanner) (raw : string) (em : eventEndMarker) (kw body : string) (f e : Event) :
  em <> emSingleLine -> raw <> em -> bufKW st <> "" -> bufKW st <> kw ->
  upgradeMultilineEvent (bufKW st) (buf st) = Ret f ->
  upgradeEvent kw body = Ret e ->
  scanSplit st raw em kw body = Ret ([f; e], scanner_init).
Proof.
  intros H1 H2 H3 H4 Hf He. unfold scanSplit, flushMultilineBuf.
  destruct (String.eqb_spec em emSingleLine); [done|].
  destruct (String.eqb_spec raw em); [done|].
  destruct (String.eqb_spec (bufKW st) ""); [done|].
  destruct (String.eqb_spec (bufKW st) kw); [done|].
  cbn [negb]. by rewrite Hf, !bind_Ret, He.
Qed.

(** ** Framing of CLIENT lines *)

Lemma splitEvent_CLIENT (body : string) :
  splitEvent (clientEventKW +:+ eventSep +:+ body)
  = Ret (if multiline_subtype body then emClient else emSingleLine, clientEventKW, body).
Proof.
  unfold splitEvent.
  change (Index (clientEventKW +:+ eventSep +:+ body) eventSep) with (Some 6%nat).
  cbn match. unfold str_to, str_from.
  change (String.length (clientEventKW +:+ eventSep +:+ body))
    with (7 + String.length body)%nat.
  rewrite !decide_True by lia. rewrite !bind_Ret.
  replace (7 + String.length body - (6 + 1))%nat with (String.length body) by lia.
  change (substring 0 6 (clientEventKW +:+ eventSep +:+ body)) with clientEventKW.
  change (substring (6 + 1) (String.length body) (clientEventKW +:+ eventSep +:+ body))
    with (substring 0 (String.length body) body).
  rewrite substring_whole. change (String.eqb clientEventKW clientEventKW) with true.
  cbn [andb].
  change (HasPrefix body (CE_string CEConnect) || HasPrefix body (CE_string CEReauth)
          || HasPrefix body (CE_string CEEstablished)
          || HasPrefix body (CE_string CEDisconnect) || HasPrefix body clientEnvMarker)
    with (multiline_subtype body).
  by destruct (multiline_subtype body).
Qed.

(** A line with a keyword is the keyword, the separator and the body. *)
Lemma splitEvent_cut (line : string) (em : eventEndMarker) (kw body : string) :
  splitEvent line = Ret (em, kw, body) -> kw <> "" -> line = kw +:+ eventSep +:+ body.
Proof.
  unfold splitEvent. destruct (Index line eventSep) as [i|] eqn:Hi.
  - pose proof (Index_bound _ _ _ Hi) as Hb. simpl in Hb.
    unfold str_to, str_from. rewrite !decide_True by lia. rewrite !bind_Ret.
    intros H _.
    assert (kw = substring 0 i line
            /\ body = substring (i + 1) (String.length line - (i + 1)) line) as [-> ->].
    { destruct (_ && _); by injection H as _ <- <-. }
    exact (Index_cut _ _ _ Hi).
  - by intros [= _ <- _].
Qed.

(** A line framed as single-line leaves the assembler in the same iteration
    and no line of it enters the buffer. *)
Lemma scanSplit_single_line_not_buffered (st : scanner) (raw kw body : string)
    (sent : list Event) (st' : scanner) :
  scanSplit st raw emSingleLine kw body = Ret (sent, st') ->
  (exists e rest, upgradeEvent kw body = Ret e /\ sent = e :: rest)
  /\ (st' = st \/ st' = scanner_init).
Proof.
  unfold scanSplit. cbn [String.eqb emSingleLine]. intros H.
  apply bind_Ret_inv in H as (e & He & H). destruct (_ || _).
  - apply bind_Ret_inv in H as ([f st1] & Hf & [= <- <-]).
    unfold flushMultilineBuf in Hf. apply bind_Ret_inv in Hf as (x & _ & [= <- <-]).
    split; [by exists e, [x]|by right].
  - injection H as <- <-. split; [by exists e, []|by left].
Qed.

(** C10: [splitEvent] frames a line whose keyword is CLIENT (the lines
    "CLIENT:" followed by a body, and no others) as multi-line if and only if
    its body begins with CONNECT, REAUTH, ESTABLISHED, DISCONNECT or ENV.  A
    CLIENT:ADDRESS line, and every CLIENT line whose body begins with none
    of the five, is framed as a single-line event, and such a line leaves
    the assembler at once, through the single-line factory, without entering
    the buffer. *)
Theorem splitEvent_CLIENT_framing (body : string) :
  exists em,
    splitEvent ("CLIENT:" +:+ body) = Ret (em, "CLIENT", body)
    /\ (em = emClient <-> multiline_subtype body = true)
    /\ (em = emSingleLine <-> multiline_subtype body = false)
    /\ (forall line em', splitEvent line = Ret (em', "CLIENT", body) ->
        line = "CLIENT:" +:+ body /\ em' = em)
    /\ (forall rest, multiline_subtype ("ADDRESS" +:+ rest) = false)
    /\ (multiline_subtype body = false ->
        forall st, scanner_ok st ->
        exists e rest st',
          upgradeEvent "CLIENT" body = Ret e
          /\ scanLine st ("CLIENT:" +:+ body) = Ret (e :: rest, st')
          /\ (st' = st \/ st' = scanner_init)).
Proof.
  exists (if multiline_subtype body then emClient else emSingleLine).
  pose proof (splitEvent_CLIENT body) as Hs.
  change (clientEventKW +:+ eventSep +:+ body) with ("CLIENT:" +:+ body) in Hs.
  change clientEventKW with "CLIENT" in Hs.
  split; [exact Hs|]. split; [|split; [|split; [|split]]].
  - by destruct (multiline_subtype body).
  - by destruct (multiline_subtype body).
  - intros line em' Hl. pose proof (splitEvent_cut _ _ _ _ Hl ltac:(done)) as ->.
    change ("CLIENT" +:+ eventSep +:+ body) with ("CLIENT:" +:+ body) in Hl.
    rewrite Hs in Hl. by injection Hl as <-.
  - intros rest. reflexivity.
  - intros Hm st Hst. rewrite Hm in Hs.
    destruct (scanLine_ok st ("CLIENT:" +:+ body) Hst) as (sent & st' & Hl & _).
    unfold scanLine in Hl. rewrite Hs, bind_Ret in Hl.
    destruct (scanSplit_single_line_not_buffered _ _ _ _ _ _ Hl) as [(e & rest & He & ->) Hst'].
    exists e, rest, st'. unfold scanLine. by rewrite Hs, bind_Ret.
Qed.

Lemma splitEvent_CLIENT_framing_witness :
  multiline_subtype "ADDRESS,1,10.0.0.1,1" = false /\ scanner_ok scanner_init
  /\ exists e rest st',
       upgradeEvent "CLIENT" "ADDRESS,1,10.0.0.1,1" = Ret e
       /\ scanLine scanner_init ("CLIENT:" +:+ "ADDRESS,1,10.0.0.1,1") = Ret (e :: rest, st')
       /\ (st' = scanner_init \/ st' = scanner_init).
Proof.
  split; [reflexivity|]. split; [apply scanner_init_ok|].
  destruct (splitEvent_CLIENT_framing "ADDRESS,1,10.0.0.1,1")
    as (em & _ & _ & _ & _ & _ & H).
  exact (H eq_refl scanner_init scanner_init_ok).
Defined.

(** ** Byte counters *)

(** C9: BYTECOUNT:123,456 becomes a ByteCount event with 123 bytes in and
    456 bytes out.  BYTECOUNT:1,2,3 is cut by the fixed two-field split into
    "1" and "2,3"; it becomes an Invalid event whose origin is a ByteCount
    event with 1 byte in, and whose error is the integer-parse failure of
    the second field, "2,3". *)
Theorem bytecount_examples :
  (exists e, parseLine "BYTECOUNT:123,456" = Ret (AByteCountEvent e)
             /\ ByteCountEvent.BytesIn e = 123 /\ ByteCountEvent.BytesOut e = 456)
  /\ stringsSplitNK "1,2,3" fieldSep 2 2 = ["1"; "2,3"]
  /\ (exists e, parseLine "BYTECOUNT:1,2,3"
                = Ret (AnInvalidEvent (Some (AByteCountEvent e)) (snd (ParseInt "2,3")))
                /\ ByteCountEvent.BytesIn e = 1
                /\ ByteCountEvent.Raw e = "1,2,3"
                /\ snd (ParseInt "2,3") = Some (NumError "ParseInt" "2,3" ErrSyntax)).
Proof.
  split; [|split].
  - by exists (ByteCountEvent.mk "123,456" 123 456).
  - reflexivity.
  - by exists (ByteCountEvent.mk "1,2,3" 1 0).
Qed.

(** ** Malformed lines *)





(** ** Verbosity *)

(** C4, evaluated where the code departs from the claim: level 0, the lowest
    level of the range 0 to 15, is rejected.  The error is returned, nothing
    is written and no reply is read. *)
Theorem SetVerbosityLevel_rejects_zero (c : MgmtClient) :
  SetVerbosityLevel 0 c
  = Ret (Some (errorString "bad verbosity level '0', should be from 0 to 15"), c).
Proof. reflexivity. Qed.

(** The levels 1 to 15 are sent as a verb command. *)
Lemma SetVerbosityLevel_sends (level : Z) (c : MgmtClient) :
  1 <= level <= 15 -> broken (wr c) = None ->
  exists err c',
    SetVerbosityLevel level c = Ret (err, c')
    /\ written (wr c') = written (wr c) ++ ["verb " +:+ Itoa level +:+ newlineSep].
Proof.
  intros Hl Hw. unfold SetVerbosityLevel.
  replace ((0 <? level) && (level <? 16)) with true by lia.
  unfold simpleCommand, sendCommand, Write. rewrite Hw.
  assert (Hr : forall c0, exists r, readCommandResult c0 = Ret (r, mkClient (wr c0) (tail (rawReplyCh c0)))).
  { intros [w replies]. unfold readCommandResult. cbn [rawReplyCh wr].
    destruct replies as [|reply rest]; [by eexists|]. cbn [tail].
    destruct (HasPrefix reply successPrefix) eqn:H1.
    - apply HasPrefix_length in H1.
      destruct (str_from_returns reply (String.length successPrefix)) as [t ->]; [done|].
      by eexists.
    - destruct (HasPrefix reply errorPrefix) eqn:H2; [|by eexists].
      apply HasPrefix_length in H2.
      destruct (str_from_returns reply (String.length errorPrefix)) as [t ->]; [done|].
      by eexists. }
  match goal with |- context [readCommandResult ?c0] => destruct (Hr c0) as [[res err] ->] end.
  rewrite bind_Ret. by eexists _, _.
Qed.

(** Every level outside 1 to 15 is rejected before anything is written. *)
Lemma SetVerbosityLevel_rejects (level : Z) (c : MgmtClient) :
  level < 1 \/ 15 < level ->
  exists err, SetVerbosityLevel level c = Ret (Some err, c).
Proof.
  intros Hl. unfold SetVerbosityLevel.
  replace ((0 <? level) && (level <? 16)) with false by lia. by eexists.
Qed.

(** ** Invalid events *)

Lemma factory_shape_invalid (orig : option Event) (err : option error) :
  factory_shape (AnInvalidEvent orig err) -> nil_origin orig = false /\ err <> None.
Proof.
  inversion 1 as [e He|e err' He]; subst; [done|]. split; [by destruct e|done].
Qed.

(** [LatestStatus3] returns the nil pointer only together with an error. *)
Lemma LatestStatus3_nil (c c' : MgmtClient) (err : option error) :
  LatestStatus3 c = Ret ((None, err), c') -> err <> None.
Proof.
  unfold LatestStatus3. destruct (sendCommand "status 3" c) as [[e|] c1].
  { by intros [= <- _]. }
  destruct (readCommandResponsePayload c1) as [[payload [e|]] c2].
  { by intros [= <- _]. }
  intros H. by apply bind_Ret_inv in H as ([s e] & _ & [= ]).
Qed.

(** The payload loop ends without an error exactly when an END line comes. *)
Lemma read_payload_no_error (replies lines : list string) :
  snd (fst (read_payload replies lines)) = None <-> endMessage ∈ replies.
Proof.
  revert lines. induction replies as [|line rest IH]; intros lines; cbn [read_payload].
  - split; [done|]. intros H. by apply elem_of_nil in H.
  - destruct (String.eqb_spec line endMessage) as [->|Hne].
    + split; [intros _; apply elem_of_cons; by left|done].
    + rewrite IH, elem_of_cons. split; [by right|]. by intros [E|H].
Qed.

(** [LatestStatus3] returns the nil pointer exactly when the command failed. *)
Lemma LatestStatus3_nil_iff (c c' : MgmtClient) (p : option Status3Event.t)
    (err : option error) :
  LatestStatus3 c = Ret ((p, err), c') -> (p = None <-> command_failed c).
Proof.
  unfold LatestStatus3, sendCommand, Write, command_failed.
  destruct (broken (wr c)) as [e|] eqn:Hb.
  { intros [= <- _ _]. split; [by left|done]. }
  unfold readCommandResponsePayload. cbn [rawReplyCh wr].
  pose proof (read_payload_no_error (rawReplyCh c) []) as Hend.
  destruct (read_payload (rawReplyCh c) []) as [[payload [e|]] rest]; cbn [fst snd] in Hend.
  - intros [= <- _ _]. split; [|done]. intros _. right. intros Hin.
    by apply Hend in Hin.
  - intros H. apply bind_Ret_inv in H as ([s e] & _ & [= <- _ _]).
    split; [done|]. intros [Hw|Hno]; [done|]. exfalso. apply Hno. by apply Hend.
Qed.

(** C3 (as amended): every InvalidEvent carries a non-nil error.  One built
    by the event factory also carries a non-nil origin.  One built by the
    status poller carries as its origin the [*Status3Event] pointer that
    [LatestStatus3] returned on that client, together with the error it
    returned, and that pointer is nil exactly when the status command itself
    failed: the command could not be written, or the reply lane was closed
    before END. *)
Theorem InvalidEvent_origin_and_error (where_ : site) (orig : option Event) (err : option error) :
  constructed where_ (AnInvalidEvent orig err) ->
  err <> None
  /\ match where_ with
     | Factory => nil_origin orig = false
     | Poller c =>
         exists p c',
           LatestStatus3 c = Ret ((p, err), c')
           /\ orig = Some (AStatus3EventPtr p)
           /\ (p = None <-> command_failed c)
     end.
Proof.
  inversion 1 as [kw body e He|kw body e He|c e c' He]; subst.
  - apply upgradeEvent_shape, factory_shape_invalid in He. tauto.
  - apply upgradeMultilineEvent_shape, factory_shape_invalid in He. tauto.
  - unfold generateStatus3Event in He.
    apply bind_Ret_inv in He as ([[evt e] c1] & Hl & He).
    pose proof (LatestStatus3_nil_iff _ _ _ _ Hl) as Hnil.
    destruct evt as [s|].
    + destruct e as [e|]; cbn in He; [|done].
      injection He as <- <- <-. split; [done|]. by exists (Some s), c1.
    + cbn in He. injection He as <- <- <-.
      split; [by apply LatestStatus3_nil in Hl|]. by exists None, c1.
Qed.

(** The theorem at a factory event, and at a poller tick on a connection
    whose writes fail. *)
Lemma InvalidEvent_origin_and_error_witness :
  (constructed Factory
     (AnInvalidEvent (Some (AnEchoEvent (EchoEvent.mk "" 0 ""))) (Some ErrNoMsgFieldSep))
   /\ Some ErrNoMsgFieldSep <> None
   /\ nil_origin (Some (AnEchoEvent (EchoEvent.mk "" 0 ""))) = false)
  /\ (constructed (Poller (mkClient (mkWriter [] (Some (errorString "broken pipe"))) ["END"]))
        (AnInvalidEvent (Some (AStatus3EventPtr None)) (Some (errorString "broken pipe")))
      /\ exists p c',
           LatestStatus3 (mkClient (mkWriter [] (Some (errorString "broken pipe"))) ["END"])
           = Ret ((p, Some (errorString "broken pipe")), c')
           /\ Some (AStatus3EventPtr None) = Some (AStatus3EventPtr p)
           /\ (p = None <->
               command_failed (mkClient (mkWriter [] (Some (errorString "broken pipe"))) ["END"]))).
Proof.
  split.
  - assert (H : constructed Factory
      (AnInvalidEvent (Some (AnEchoEvent (EchoEvent.mk "" 0 ""))) (Some ErrNoMsgFieldSep))).
    { apply (by_upgradeEvent echoEventKW ""). reflexivity. }
    split; [exact H|].
    exact (InvalidEvent_origin_and_error Factory _ _ H).
  - assert (H : constructed
                  (Poller (mkClient (mkWriter [] (Some (errorString "broken pipe"))) ["END"]))
                  (AnInvalidEvent (Some (AStatus3EventPtr None))
                     (Some (errorString "broken pipe")))).
    { eapply by_generateStatus3Event. reflexivity. }
    split; [exact H|].
    exact (proj2 (InvalidEvent_origin_and_error _ _ _ H)).
Defined.

(** C3, the claim as stated, fails on the poller path: the reply lane is
    closed when the poller ticks, [LatestStatus3] returns the nil pointer
    and the error, and the poller wraps that nil pointer in an InvalidEvent. *)
Lemma poller_wraps_nil_origin :
  generateStatus3Event (mkClient (mkWriter [] None) [])
  = Ret (NewInvalidEvent (Some (AStatus3EventPtr None))
           (Some (errorString "connection closed before END recieved")),
         mkClient (mkWriter ["status 3" +:+ newlineSep] None) [])
  /\ nil_origin (Some (AStatus3EventPtr None)) = true.
Proof. split; reflexivity. Qed.

(** ** The status-3 snapshot *)

(** C1, evaluated where the code departs from the claim: a status-3 payload
    whose TIME line is cut short makes [NewStatus3Event] panic, and with it
    the poller that parses the reply; so does a bare HEADER line, and so does
    the multi-line factory on a CLIENT block without lines. *)
Theorem NewStatus3Event_panics_on_truncated_line :
  NewStatus3Event ["TIME"] = Panics IndexOutOfRange
  /\ NewStatus3Event ["TITLE" +:+ status3FieldSep +:+ "OpenVPN"; "TIME" +:+ status3FieldSep +:+ "Mon Mar 23"]
     = Panics IndexOutOfRange
  /\ NewStatus3Event ["HEADER"] = Panics IndexOutOfRange
  /\ generateStatus3Event (mkClient (mkWriter [] None) ["TIME"; "END"])
     = Panics IndexOutOfRange
  /\ upgradeMultilineEvent clientEventKW [] = Panics IndexOutOfRange.
Proof. repeat split. Qed.

(** ** Rows of the snapshot *)

Lemma padded_column (fields : list string) (max i : nat) :
  (i < max)%nat ->
  at_index (if decide (length fields < max)%nat then make_copy max fields else fields) i
  = Ret (column fields i).
Proof.
  intros Hi. unfold at_index, column, make_copy. destruct (decide _) as [Hlen|Hlen].
  - rewrite take_ge by lia. destruct (decide (i < length fields)%nat) as [Hlt|Hge].
    + rewrite lookup_app_l by done.
      by destruct (lookup_lt_is_Some_2 fields i Hlt) as [x ->].
    + rewrite lookup_app_r by lia. rewrite lookup_replicate_2 by lia.
      by rewrite lookup_ge_None_2 by lia.
  - by destruct (lookup_lt_is_Some_2 fields i ltac:(lia)) as [x ->].
Qed.

(** [NewStatus3Client] and [NewStatus3Route] never panic, and build exactly
    these rows. *)
Lemma NewStatus3Client_eq (row : list string) : NewStatus3Client row = Ret (client_row row).
Proof.
  unfold NewStatus3Client, client_row. cbv zeta.
  rewrite !padded_column by (cbv; lia). cbn [mbind outcome_bind].
  unfold recorded, client_row_checks, route_row_checks.
  repeat match goal with
         | |- context [ParseIPAddrPort ?x] => destruct (ParseIPAddrPort x)
         | |- context [ParseInt ?x] => destruct (ParseInt x)
         end.
  reflexivity.
Qed.

Lemma NewStatus3Route_eq (row : list string) : NewStatus3Route row = Ret (route_row row).
Proof.
  unfold NewStatus3Route, route_row. cbv zeta.
  rewrite !padded_column by (cbv; lia). cbn [mbind outcome_bind].
  unfold recorded, client_row_checks, route_row_checks.
  repeat match goal with
         | |- context [ParseIPAddrPort ?x] => destruct (ParseIPAddrPort x)
         | |- context [ParseInt ?x] => destruct (ParseInt x)
         end.
  reflexivity.
Qed.

Lemma recorded_none (checks : list (option error)) :
  length (recorded checks) = 0%nat <-> Forall (fun c => c = None) checks.
Proof.
  unfold recorded.
  assert (H : forall acc, length (foldl note_err acc checks) = 0%nat
                          <-> acc = [] /\ Forall (fun c => c = None) checks).
  { induction checks as [|c rest IH]; intros acc; simpl.
    - rewrite length_zero_iff_nil. split; [by intros ->|tauto].
    - rewrite IH, Forall_cons. destruct c as [e|]; simpl.
      + split; [intros [H _]; by destruct acc|intros [_ [H _]]; done].
      + tauto. }
  rewrite H. tauto.
Qed.

Lemma rows_added_none (se se' : Status3Event.t) (line : string) :
  row_of status3ClientListKW line = None -> row_of status3RoutingTableKW line = None ->
  Status3Event.clients se' = Status3Event.clients se ->
  Status3Event.invalidClients se' = Status3Event.invalidClients se ->
  Status3Event.routes se' = Status3Event.routes se ->
  Status3Event.invalidRoutes se' = Status3Event.invalidRoutes se ->
  rows_added se se' [line].
Proof.
  intros H1 H2 E1 E2 E3 E4. unfold rows_added, rows_of. cbn [omap list_omap].
  rewrite H1, H2, E1, E2, E3, E4. cbn. by rewrite !app_nil_r.
Qed.

Lemma status3_line_rows (se se' : Status3Event.t) (line : string) (err : option error) :
  status3_line se line = Ret (se', err) -> rows_added se se' [line].
Proof.
  unfold status3_line. intros H.
  destruct (Split line status3FieldSep) as [|lt lf] eqn:HS; [done|].
  change (at_index (lt :: lf) 0) with (Ret lt) in H.
  change (slice_from (lt :: lf) 1) with (Ret lf) in H. rewrite !bind_Ret in H.
  assert (Hrow : forall kw, row_of kw line = if String.eqb lt kw then Some lf else None).
  { intros kw. unfold row_of. by rewrite HS. }
  destruct (String.eqb_spec lt status3TitleKW) as [->|N1].
  { injection H as <- <-. by apply rows_added_none; rewrite ?Hrow. }
  destruct (String.eqb_spec lt status3TimeKW) as [->|N2].
  { apply bind_Ret_inv in H as (h & _ & H). apply bind_Ret_inv in H as (r & _ & H).
    destruct (ParseInt r). injection H as <- <-. by apply rows_added_none; rewrite ?Hrow. }
  destruct (String.eqb_spec lt status3HeaderKW) as [->|N3].
  { apply bind_Ret_inv in H as (h & _ & H). apply bind_Ret_inv in H as (r & _ & H).
    injection H as <- <-. by apply rows_added_none; rewrite ?Hrow. }
  destruct (String.eqb_spec lt status3ClientListKW) as [->|N4].
  { rewrite NewStatus3Client_eq, bind_Ret in H.
    unfold rows_added, rows_of. cbn [omap list_omap]. rewrite !Hrow. cbn.
    destruct (decide (0 < length (Status3Client.ParsingErrors (client_row lf)))%nat) as [Hl|Hl];
      injection H as <- <-; cbn.
    - rewrite decide_False by (unfold client_valid; lia).
      rewrite decide_True by (unfold client_valid; lia). by rewrite !app_nil_r.
    - rewrite decide_True by (unfold client_valid; lia).
      rewrite decide_False by (unfold client_valid; lia). by rewrite !app_nil_r. }
  destruct (String.eqb_spec lt status3RoutingTableKW) as [->|N5].
  { rewrite NewStatus3Route_eq, bind_Ret in H.
    unfold rows_added, rows_of. cbn [omap list_omap]. rewrite !Hrow. cbn.
    destruct (decide (0 < length (Status3Route.ParsingErrors (route_row lf)))%nat) as [Hl|Hl];
      injection H as <- <-; cbn.
    - rewrite decide_False by (unfold route_valid; lia).
      rewrite decide_True by (unfold route_valid; lia). by rewrite !app_nil_r.
    - rewrite decide_True by (unfold route_valid; lia).
      rewrite decide_False by (unfold route_valid; lia). by rewrite !app_nil_r. }
  injection H as <- <-. apply rows_added_none; rewrite ?Hrow; try done.
  - by destruct (String.eqb_spec lt status3ClientListKW).
  - by destruct (String.eqb_spec lt status3RoutingTableKW).
Qed.

Lemma rows_added_trans (se1 se2 se3 : Status3Event.t) (l1 l2 : list string) :
  rows_added se1 se2 l1 -> rows_added se2 se3 l2 -> rows_added se1 se3 (l1 ++ l2).
Proof.
  unfold rows_added, rows_of. cbv zeta. intros (A1 & A2 & A3 & A4) (B1 & B2 & B3 & B4).
  rewrite !omap_app, !fmap_app, !filter_app, !app_assoc.
  by rewrite B1, B2, B3, B4, A1, A2, A3, A4.
Qed.

(** Whatever [NewStatus3Event] returns, the rows of the lines it has read
    are in the snapshot; without an error it has read every line. *)
Lemma status3_lines_rows (se se' : Status3Event.t) (payload : list string)
    (err : option error) :
  status3_lines se payload = Ret (se', err) ->
  exists n, rows_added se se' (take n payload) /\ (err = None -> take n payload = payload).
Proof.
  revert se. induction payload as [|line rest IH]; intros se; cbn [status3_lines].
  - intros [= <- <-]. exists 0%nat. split; [|done].
    unfold rows_added. cbn. by rewrite !app_nil_r.
  - intros H. apply bind_Ret_inv in H as ([se1 e1] & Hl & H).
    apply status3_line_rows in Hl. destruct e1 as [e|].
    + injection H as <- <-. exists 1%nat. split; [|done].
      by replace (take 1 (line :: rest)) with [line] by (by destruct rest).
    + apply IH in H as (n & Hn & Hall). exists (S n). split.
      * exact (rows_added_trans _ _ _ [line] (take n rest) Hl Hn).
      * intros He. cbn. by rewrite Hall.
Qed.

(** C7 (as amended): in the snapshot that [NewStatus3Event] returns, the
    CLIENT_LIST and ROUTING_TABLE rows of the lines it has read (all lines,
    when it returns no error) are partitioned by the errors they record.
    Every row that records an error is in the invalid list, whole, with the
    best-effort value of each column and its list of errors; the valid list
    holds exactly the rows that record none; both lists keep the order of the
    payload.  A row records an error for the real address, the byte counters,
    the connection time, the client id and the peer id (for a route: the real
    address and the last-reference time).  A virtual address that does not
    parse records none: it is replaced by 0.0.0.0 or :: and the row stays
    valid. *)
Theorem Status3_rows_partitioned (payload : list string) (se : Status3Event.t)
    (err : option error) :
  NewStatus3Event payload = Ret (se, err) ->
  exists read,
    read `prefix_of` payload /\ (err = None -> read = payload)
    /\ Forall2 (fun row c => NewStatus3Client row = Ret c)
         (rows_of status3ClientListKW read) (client_row <$> rows_of status3ClientListKW read)
    /\ Forall2 (fun row r => NewStatus3Route row = Ret r)
         (rows_of status3RoutingTableKW read)
         (route_row <$> rows_of status3RoutingTableKW read)
    /\ Status3Event.clients se
       = filter client_valid (client_row <$> rows_of status3ClientListKW read)
    /\ Status3Event.invalidClients se
       = filter (fun c => ~ client_valid c) (client_row <$> rows_of status3ClientListKW read)
    /\ Status3Event.routes se
       = filter route_valid (route_row <$> rows_of status3RoutingTableKW read)
    /\ Status3Event.invalidRoutes se
       = filter (fun r => ~ route_valid r) (route_row <$> rows_of status3RoutingTableKW read)
    /\ (forall row, client_valid (client_row row)
                    <-> Forall (fun check => check = None) (client_row_checks row))
    /\ (forall row, route_valid (route_row row)
                    <-> Forall (fun check => check = None) (route_row_checks row)).
Proof.
  intros H. apply status3_lines_rows in H as (n & (H1 & H2 & H3 & H4) & Hall).
  cbn in H1, H2, H3, H4. exists (take n payload).
  split; [apply prefix_take|]. split; [exact Hall|].
  repeat split; try done.
  - apply Forall2_fmap_r, Forall_Forall2_diag, Forall_forall. intros row _.
    apply NewStatus3Client_eq.
  - apply Forall2_fmap_r, Forall_Forall2_diag, Forall_forall. intros row _.
    apply NewStatus3Route_eq.
  - apply recorded_none.
  - apply recorded_none.
  - apply recorded_none.
  - apply recorded_none.
Qed.

Lemma Status3_rows_partitioned_witness :
  exists se,
    NewStatus3Event
      [ Join ["TITLE"; "OpenVPN 2.4.8"] status3FieldSep;
        Join ["TIME"; "Mon Mar 23 17:53:22 2020"; "1584986002"] status3FieldSep;
        Join ["CLIENT_LIST"; "alice"; "10.0.0.2:1194"; "172.16.0.2"; ""; "100"; "200";
              "Mon Mar 23 17:00:00 2020"; "1584982800"; "alice"; "0"; "0"; "AES-256-GCM"]
          status3FieldSep;
        Join ["CLIENT_LIST"; "bob"; "10.0.0.3"; "172.16.0.3"; ""; "x"; "200"]
          status3FieldSep;
        Join ["ROUTING_TABLE"; "172.16.0.2"; "alice"; "10.0.0.2:1194";
              "Mon Mar 23 17:53:00 2020"; "1584985980"] status3FieldSep ]
    = Ret (se, None)
    /\ length (Status3Event.clients se) = 1%nat
    /\ length (Status3Event.invalidClients se) = 1%nat
    /\ length (Status3Event.routes se) = 1%nat
    /\ length (Status3Event.invalidRoutes se) = 0%nat.
Proof.
  match goal with
  | |- exists se, NewStatus3Event ?P = _ /\ _ =>
      destruct (NewStatus3Event P) as [[se [e|]]|p] eqn:H;
        try (vm_compute in H; discriminate H);
        exists se; split; [reflexivity|];
        destruct (Status3_rows_partitioned P se None H)
          as (read & _ & Hall & _ & _ & -> & -> & -> & -> & _);
        rewrite (Hall eq_refl)
  end.
  repeat split.
Defined.

(** C7, the claim as stated, fails: the virtual address of this CLIENT_LIST
    row is "bogus", which does not parse, and its IPv6 column is empty.  The
    row records no error and is in the valid list, with 0.0.0.0 in the place
    of the address. *)
Lemma unparsable_virtual_address_row_is_valid :
  ParseIP "bogus" = None
  /\ exists se c,
       NewStatus3Event
         [ Join ["CLIENT_LIST"; "alice"; "10.0.0.2:1194"; "bogus"; ""; "100"; "200";
                 "Mon Mar 23 17:00:00 2020"; "1584982800"; "alice"; "0"; "0"; "AES-256-GCM"]
             status3FieldSep ]
       = Ret (se, None)
       /\ Status3Event.clients se = [c]
       /\ Status3Event.invalidClients se = []
       /\ Status3Client.ParsingErrors c = []
       /\ Status3Client.VirtualAddr c = ParseIP "0.0.0.0".
Proof. split; [reflexivity|]. eexists _, _. repeat split. Qed.

(** * Beyond the event path: round trips, edge cases and invariants *)

(** ** Cutting and joining at a one-byte separator *)

Lemma Index_char_cons (x : ascii) (s : string) (c : ascii) :
  Index (String x s) (String c "")
  = if Ascii.eqb c x then Some 0%nat else S <$> Index s (String c "").
Proof.
  unfold Index. cbn [Index_from HasPrefix]. destruct (Ascii.eqb c x); [done|].
  apply Index_from_shift.
Qed.

Lemma sep_free_cons (c x : ascii) (s : string) :
  sep_free c (String x s) <-> Ascii.eqb c x = false /\ sep_free c s.
Proof.
  unfold sep_free. rewrite Index_char_cons. destruct (Ascii.eqb c x).
  - split; [done|by intros [? _]].
  - destruct (Index s (String c "")); split; try done. by intros [_ ?].
Qed.

Lemma sep_free_nil (c : ascii) : sep_free c "".
Proof. reflexivity. Qed.

Lemma sep_free_app (c : ascii) (s t : string) :
  sep_free c (s +:+ t) <-> sep_free c s /\ sep_free c t.
Proof.
  induction s as [|x s IH].
  - rewrite append_nil. split; [by split|tauto].
  - rewrite append_cons, !sep_free_cons, IH. tauto.
Qed.

Lemma Index_app_sep (a b : string) (c : ascii) :
  sep_free c a -> Index (a +:+ String c b) (String c "") = Some (String.length a).
Proof.
  induction a as [|x a IH]; intros Ha.
  - rewrite append_nil, Index_char_cons. by rewrite Ascii.eqb_refl.
  - apply sep_free_cons in Ha as [Hx Ha].
    rewrite append_cons, Index_char_cons, Hx, IH by done. done.
Qed.

Lemma length_append (s t : string) :
  String.length (s +:+ t) = (String.length s + String.length t)%nat.
Proof. induction s as [|x s IH]; [done|]. rewrite append_cons. simpl. by rewrite IH. Qed.

Lemma substring_app_l (a t : string) : substring 0 (String.length a) (a +:+ t) = a.
Proof. induction a as [|x a IH]; [by destruct t|]. rewrite append_cons. simpl. by rewrite IH. Qed.

Lemma substring_app_r (a t : string) (n m : nat) :
  substring (String.length a + n) m (a +:+ t) = substring n m t.
Proof. induction a as [|x a IH]; [done|]. rewrite append_cons. simpl. apply IH. Qed.

Lemma substring_app_tail (a t : string) :
  substring (String.length a) (String.length (a +:+ t) - String.length a) (a +:+ t) = t.
Proof.
  rewrite <- (Nat.add_0_r (String.length a)) at 1. rewrite substring_app_r, length_append.
  replace (String.length a + String.length t - String.length a)%nat
    with (String.length t) by lia.
  apply substring_whole.
Qed.

(** A cut at the first separator: the part before it has none. *)
Lemma split_cuts_cons (fuel : nat) (f rest : string) (c : ascii) :
  sep_free c f ->
  split_cuts (S fuel) (f +:+ String c rest) (String c "")
  = f :: split_cuts fuel rest (String c "").
Proof.
  intros Hf. cbn [split_cuts]. rewrite Index_app_sep by done.
  rewrite substring_app_l. f_equal. f_equal.
  change (String.length (String c "")) with 1%nat.
  rewrite substring_app_r, length_append. cbn [String.length].
  replace (String.length f + S (String.length rest) - (String.length f + 1))%nat
    with (String.length rest) by lia.
  cbn [substring]. apply substring_whole.
Qed.

Lemma split_cuts_last (fuel : nat) (s : string) (c : ascii) :
  sep_free c s -> split_cuts fuel s (String c "") = [s].
Proof. intros Hs. destruct fuel; [done|]. cbn [split_cuts]. by rewrite Hs. Qed.

(** Joining what was cut gives the string back. *)
Lemma Join_split_cuts (fuel : nat) (s : string) (c : ascii) :
  Join (split_cuts fuel s (String c "")) (String c "") = s.
Proof.
  revert s. induction fuel as [|fuel IH]; intros s; cbn [split_cuts]; [done|].
  destruct (Index s (String c "")) as [m|] eqn:Hm; [|done].
  pose proof (Index_cut _ _ _ Hm) as Hcut.
  remember (substring (m + String.length (String c ""))
              (String.length s - (m + String.length (String c ""))) s) as rest.
  remember (substring 0 m s) as hd.
  assert (Hj : forall l, l <> [] -> Join (hd :: l) (String c "")
                                   = hd +:+ String c "" +:+ Join l (String c "")).
  { by intros [|x l]. }
  rewrite Hj.
  - by rewrite IH.
  - intros E. pose proof (split_cuts_nonempty fuel rest (String c "")) as Hl.
    rewrite E in Hl. simpl in Hl. lia.
Qed.

Lemma Join_cons (f g : string) (l : list string) (sep : string) :
  Join (f :: g :: l) sep = f +:+ sep +:+ Join (g :: l) sep.
Proof. reflexivity. Qed.

(** Cutting what was joined from separator-free fields gives the fields
    back, as far as the number of cuts allows; the last part keeps the rest,
    separators included. *)
Lemma split_cuts_Join (fuel : nat) (fields : list string) (c : ascii) :
  fields <> [] -> Forall (sep_free c) fields ->
  split_cuts fuel (Join fields (String c "")) (String c "")
  = take fuel fields ++ (if decide (fuel < length fields)%nat
                         then [Join (drop fuel fields) (String c "")] else []).
Proof.
  revert fuel. induction fields as [|f rest IH]; [done|]. intros fuel _ Hall.
  apply Forall_cons in Hall as [Hf Hrest].
  destruct rest as [|g rest].
  - cbn [Join]. rewrite split_cuts_last by done. destruct fuel; [done|].
    cbn [take length]. rewrite decide_False by lia. by rewrite take_nil.
  - rewrite Join_cons. destruct fuel as [|fuel]; [done|].
    change (String c "" +:+ Join (g :: rest) (String c ""))
      with (String c (Join (g :: rest) (String c ""))).
    rewrite split_cuts_cons by done. rewrite IH by done.
    cbn [take drop length app]. f_equal.
    destruct (decide (fuel < S (length rest))%nat), (decide (S fuel < S (S (length rest)))%nat);
      try lia; done.
Qed.

(** ** Decimal text of an integer and back *)

Lemma dval_ge (acc : Z) (d : Decimal.uint) : 0 <= acc -> acc <= dval acc d.
Proof.
  revert acc. induction d; intros acc Hacc; simpl; [lia|..];
    (etransitivity; [|apply IHd; lia]); lia.
Qed.

Lemma of_uint_acc_dval (d : Decimal.uint) (acc : positive) :
  Z.pos (Pos.of_uint_acc d acc) = dval (Z.pos acc) d.
Proof.
  revert acc. induction d; intros acc; simpl; [done|..]; rewrite IHd; f_equal; lia.
Qed.

Lemma of_uint_dval (d : Decimal.uint) : Z.of_uint d = dval 0 d.
Proof.
  unfold Z.of_uint. induction d; simpl; try done;
    rewrite of_uint_acc_dval; done.
Qed.

(** The digit loop of [ParseUint] on the text of a numeral. *)
Lemma parse_digits_string_of_uint (d : Decimal.uint) (acc : Z) :
  0 <= acc -> dval acc d <= maxUint64 ->
  parse_digits acc (NilEmpty.string_of_uint d) = inl (dval acc d).
Proof.
  revert acc. induction d as [|d IHd|d IHd|d IHd|d IHd|d IHd|d IHd|d IHd|d IHd|d IHd|d IHd];
    intros acc Hacc Hmax; [done|..].
  all: cbn [NilEmpty.string_of_uint parse_digits dval] in *.
  all: match goal with
       | |- context [digit_of ?c] =>
           let v := eval vm_compute in (digit_of c) in change (digit_of c) with v
       end; cbn match.
  all: match goal with
       | Hmax : dval ?a ?l <= _ |- _ => pose proof (dval_ge a l ltac:(lia)) as Hge
       end.
  all: assert (Hm : maxUint64 = 18446744073709551615) by reflexivity.
  all: rewrite Hm in *.
  all: change (18446744073709551615 / 10 + 1) with 1844674407370955162.
  all: destruct (Z.leb_spec 1844674407370955162 acc); [lia|].
  all: match goal with
       | |- context [?m <? ?x] => destruct (Z.ltb_spec m x); [lia|]
       end.
  all: apply IHd; rewrite ?Hm; lia.
Qed.

Lemma string_of_uint_digits (d : Decimal.uint) :
  all_chars is_digit (NilEmpty.string_of_uint d).
Proof. induction d; simpl; [done|..]; (split; [by eexists|done]). Qed.

Lemma dval_to_uint (p : positive) : dval 0 (Pos.to_uint p) = Z.pos p.
Proof.
  rewrite <- of_uint_dval. unfold Z.of_uint. by rewrite DecimalPos.Unsigned.of_to.
Qed.

(** The decimal text of a positive number: it is not empty, it begins with a
    digit, and the digit loop reads the number back. *)
Lemma to_uint_text (p : positive) :
  exists c s, NilZero.string_of_uint (Pos.to_uint p) = String c s
              /\ NilEmpty.string_of_uint (Pos.to_uint p) = String c s
              /\ is_digit c.
Proof.
  pose proof (DecimalPos.Unsigned.to_uint_nonnil p) as Hn.
  pose proof (string_of_uint_digits (Pos.to_uint p)) as Hd.
  unfold NilZero.string_of_uint.
  destruct (Pos.to_uint p) eqn:E; [done|..]; simpl in *; destruct Hd as [Hc _];
    by eexists _, _.
Qed.

Lemma is_digit_not_sign (c : ascii) :
  is_digit c -> Ascii.eqb c "-" = false /\ Ascii.eqb c "+" = false.
Proof.
  intros [v Hv]. split.
  - destruct (Ascii.eqb_spec c "-") as [->|]; [done|done].
  - destruct (Ascii.eqb_spec c "+") as [->|]; [done|done].
Qed.

(** [strconv.ParseInt] reads back what [strconv.Itoa] writes, for every
    integer of 64 bits. *)
Lemma parse_int_Itoa (fn : string) (n : Z) :
  - 2 ^ 63 <= n < 2 ^ 63 -> parse_int fn (Itoa n) = (n, None).
Proof.
  intros Hn. unfold Itoa, Z.to_int. destruct n as [|p|p].
  - reflexivity.
  - destruct (to_uint_text p) as (c & s & E & E' & Hc).
    cbn [NilZero.string_of_int]. rewrite E. unfold parse_int.
    destruct (is_digit_not_sign c Hc) as [-> ->]. cbn [orb].
    unfold ParseUint10. rewrite <- E'.
    rewrite parse_digits_string_of_uint; rewrite ?dval_to_uint; try (unfold maxUint64; lia).
    cbn [negb andb]. destruct (Z.leb_spec (2 ^ 63) (Z.pos p)); [lia|done].
  - destruct (to_uint_text p) as (c & s & E & E' & Hc).
    cbn [NilZero.string_of_int]. rewrite E. unfold parse_int.
    change (Ascii.eqb "-" "-") with true. change (Ascii.eqb "-" "+") with false.
    cbn [orb]. unfold ParseUint10. rewrite <- E'.
    rewrite parse_digits_string_of_uint; rewrite ?dval_to_uint; try (unfold maxUint64; lia).
    cbn [negb andb]. destruct (Z.ltb_spec (2 ^ 63) (Z.pos p)); [lia|done].
Qed.

(** The text of an integer holds digits and at most a leading minus sign, so
    no separator of the protocol. *)
Lemma all_chars_sep_free (P : ascii -> Prop) (c : ascii) (s : string) :
  ~ P c -> all_chars P s -> sep_free c s.
Proof.
  intros Hc. induction s as [|x s IH]; [done|]. intros [Hx Hs].
  apply sep_free_cons. split; [|by apply IH].
  destruct (Ascii.eqb_spec c x) as [->|]; [done|done].
Qed.

Lemma Itoa_sep_free (c : ascii) (n : Z) :
  ~ is_digit c -> c <> "-"%char -> sep_free c (Itoa n).
Proof.
  intros Hc Hm.
  assert (Hu : forall d, sep_free c (NilZero.string_of_uint d)).
  { intros d. unfold NilZero.string_of_uint.
    assert (sep_free c (NilEmpty.string_of_uint d)).
    { apply (all_chars_sep_free is_digit); [exact Hc|apply string_of_uint_digits]. }
    destruct d; try done. apply sep_free_cons. split; [|done].
    destruct (Ascii.eqb_spec c "0") as [->|]; [|done]. destruct Hc. by eexists. }
  unfold Itoa. destruct (Z.to_int n) as [d|d]; cbn [NilZero.string_of_int]; [apply Hu|].
  apply sep_free_cons. split; [|apply Hu]. by destruct (Ascii.eqb_spec c "-").
Qed.

(** ** Field splitting *)

Lemma last_field_split (fields : list string) (sep : string) :
  fields <> [] ->
  take (length fields - 1) fields ++ [Join (drop (length fields - 1) fields) sep] = fields.
Proof.
  intros Hne. destruct (exists_last Hne) as (l & x & ->).
  rewrite length_app. cbn [length]. replace (length l + 1 - 1)%nat with (length l) by lia.
  by rewrite take_app_length, drop_app_length.
Qed.

(** The parts that [stringsSplitNK] returns for a string joined from
    separator-free fields. *)
Lemma stringsSplitNK_Join (fields : list string) (c : ascii) (n k : Z) :
  fields <> [] -> Forall (sep_free c) fields -> 0 < n ->
  stringsSplitNK (Join fields (String c "")) (String c "") n k
  = take (Nat.min (Z.to_nat n) (length fields) - 1) fields
    ++ [Join (drop (Nat.min (Z.to_nat n) (length fields) - 1) fields) (String c "")]
    ++ replicate (Z.to_nat k - Nat.min (Z.to_nat n) (length fields)) "".
Proof.
  intros Hne Hall Hn.
  assert (Hparts : SplitN (Join fields (String c "")) (String c "") n
                   = take (Nat.min (Z.to_nat n) (length fields) - 1) fields
                     ++ [Join (drop (Nat.min (Z.to_nat n) (length fields) - 1) fields)
                           (String c "")]).
  { unfold SplitN. destruct (Z.eqb_spec n 0); [lia|]. cbn [String.eqb].
    destruct (Z.ltb_spec n 0); [lia|]. rewrite split_cuts_Join by done.
    destruct (decide (Z.to_nat (n - 1) < length fields)%nat).
    - by replace (Nat.min (Z.to_nat n) (length fields) - 1)%nat with (Z.to_nat (n - 1)) by lia.
    - replace (Nat.min (Z.to_nat n) (length fields) - 1)%nat with (length fields - 1)%nat by lia.
      rewrite last_field_split by done. rewrite take_ge by lia. by rewrite app_nil_r. }
  assert (Hlen : length (SplitN (Join fields (String c "")) (String c "") n)
                 = Nat.min (Z.to_nat n) (length fields)).
  { rewrite Hparts, length_app, length_take. cbn [length].
    destruct fields; [done|]. cbn [length]. lia. }
  unfold stringsSplitNK. rewrite Hlen, app_assoc, <- Hparts.
  destruct (Z.leb_spec k (Z.of_nat (Nat.min (Z.to_nat n) (length fields)))).
  - replace (Z.to_nat k - _)%nat with 0%nat by lia. by rewrite app_nil_r.
  - unfold make_copy. rewrite Hlen. by rewrite take_ge by lia.
Qed.

(** X1: [stringsSplitNK] returns at least [k] parts, whatever the string; it
    returns no part at all only for [n = 0] with [k <= 0].  For a string
    joined from separator-free fields and [n > 0], the parts are the fields
    up to the [n]-th, the last of them keeping the rest of the string with
    its separators, and then empty strings up to [k] parts. *)
Theorem stringsSplitNK_contract (s : string) (c : ascii) (n k : Z) :
  (Z.to_nat k <= length (stringsSplitNK s (String c "") n k))%nat
  /\ (stringsSplitNK s (String c "") n k = [] <-> n = 0 /\ k <= 0)
  /\ (forall fields,
        fields <> [] -> Forall (sep_free c) fields -> 0 < n ->
        s = Join fields (String c "") ->
        stringsSplitNK s (String c "") n k
        = take (Nat.min (Z.to_nat n) (length fields) - 1) fields
          ++ [Join (drop (Nat.min (Z.to_nat n) (length fields) - 1) fields) (String c "")]
          ++ replicate (Z.to_nat k - Nat.min (Z.to_nat n) (length fields)) "").
Proof.
  split; [apply stringsSplitNK_length|]. split.
  - pose proof (stringsSplitNK_length s (String c "") n k) as Hl. split.
    + intros E. rewrite E in Hl. cbn in Hl.
      destruct (Z.eq_dec n 0) as [->|Hn]; [lia|].
      pose proof (SplitN_nonempty s (String c "") n Hn) as Hs.
      unfold stringsSplitNK in E.
      destruct (Z.leb_spec k (Z.of_nat (length (SplitN s (String c "") n)))).
      * rewrite E in Hs. cbn in Hs. lia.
      * lia.
    + intros [-> Hk]. unfold stringsSplitNK, SplitN. cbn [Z.eqb length].
      destruct (Z.leb_spec k (Z.of_nat 0)); [done|lia].
  - intros fields Hne Hall Hn ->. by apply stringsSplitNK_Join.
Qed.

Lemma stringsSplitNK_contract_witness :
  ["1"; "2"; "3"] <> [] /\ Forall (sep_free ",") ["1"; "2"; "3"] /\ 0 < 2
  /\ stringsSplitNK "1,2,3" "," 2 4 = ["1"; "2,3"; ""; ""].
Proof.
  assert (H : Forall (sep_free ",") ["1"; "2"; "3"]) by (repeat constructor).
  split; [done|]. split; [exact H|]. split; [lia|].
  exact (proj2 (proj2 (stringsSplitNK_contract "1,2,3" "," 2 4))
           ["1"; "2"; "3"] ltac:(done) H ltac:(lia) eq_refl).
Defined.

(** ** Lines and keywords *)

Lemma Index_prefix_sep_free (s : string) (c : ascii) (i : nat) :
  Index s (String c "") = Some i -> sep_free c (substring 0 i s).
Proof.
  revert i. induction s as [|x s IH]; intros i.
  - unfold Index. cbn. done.
  - rewrite Index_char_cons. destruct (Ascii.eqb c x) eqn:Hx.
    + intros [= <-]. done.
    + destruct (Index s (String c "")) as [j|] eqn:Hj; [|done]. intros [= <-].
      cbn [substring]. apply sep_free_cons. split; [done|]. by apply IH.
Qed.

(** [splitEvent] on a keyword, the separator and a body. *)
Lemma splitEvent_joined (kw body : string) :
  sep_free ":" kw ->
  splitEvent (kw +:+ eventSep +:+ body)
  = Ret (if String.eqb kw clientEventKW && multiline_subtype body
         then emClient else emSingleLine, kw, body).
Proof.
  intros Hkw. unfold splitEvent, eventSep.
  change (":" +:+ body) with (String ":" body).
  rewrite Index_app_sep by done. unfold str_to, str_from.
  rewrite !decide_True by (rewrite length_append; cbn [String.length]; lia).
  rewrite !bind_Ret, substring_app_l, substring_app_r, length_append.
  cbn [String.length].
  replace (String.length kw + S (String.length body) - (String.length kw + 1))%nat
    with (String.length body) by lia.
  cbn [substring]. rewrite substring_whole.
  change (HasPrefix body (CE_string CEConnect) || HasPrefix body (CE_string CEReauth)
          || HasPrefix body (CE_string CEEstablished)
          || HasPrefix body (CE_string CEDisconnect) || HasPrefix body clientEnvMarker)
    with (multiline_subtype body).
  by destruct (_ && _).
Qed.

(** X2: [splitEvent] cuts a line at its first separator and nowhere else.
    From a keyword without a separator, the separator and any body, it gives
    back that keyword and that body, colons in the body included.  In the
    other direction the keyword it returns never holds a separator, and the
    line is that keyword, the separator and the body; only a line without
    any separator comes back whole, as the body of the empty keyword. *)
Theorem splitEvent_round_trip (line : string) :
  (forall kw body, sep_free ":" kw -> line = kw +:+ eventSep +:+ body ->
     exists em, splitEvent line = Ret (em, kw, body))
  /\ (forall em kw body, splitEvent line = Ret (em, kw, body) ->
        sep_free ":" kw
        /\ (line = kw +:+ eventSep +:+ body
            \/ (kw = "" /\ body = line /\ sep_free ":" line))).
Proof.
  split.
  - intros kw body Hkw ->. rewrite splitEvent_joined by done. by eexists.
  - intros em kw body H. unfold splitEvent in H.
    destruct (Index line eventSep) as [i|] eqn:Hi.
    + pose proof (Index_bound _ _ _ Hi) as Hb. cbn in Hb.
      unfold str_to, str_from in H. rewrite !decide_True in H by lia.
      rewrite !bind_Ret in H.
      assert (kw = substring 0 i line
              /\ body = substring (i + 1) (String.length line - (i + 1)) line) as [-> ->].
      { destruct (_ && _); by injection H as _ <- <-. }
      split; [by apply Index_prefix_sep_free|]. left. exact (Index_cut _ _ _ Hi).
    + injection H as _ <- <-. split; [done|]. by right.
Qed.

Lemma splitEvent_round_trip_witness :
  sep_free ":" "STATE"
  /\ exists em, splitEvent "STATE:1,CONNECTED,,,[::1]:1194" = Ret (em, "STATE", "1,CONNECTED,,,[::1]:1194").
Proof.
  split; [reflexivity|].
  exact (proj1 (splitEvent_round_trip "STATE:1,CONNECTED,,,[::1]:1194")
           "STATE" "1,CONNECTED,,,[::1]:1194" eq_refl eq_refl).
Defined.

(** ** The events keep the text they were built from *)







Lemma NewClientEvent_rawHeader (payload : list string) (e : ClientEvent.t) (err : option error) :
  NewClientEvent payload = Ret (e, err) -> Some (ClientEvent.rawHeader e) = payload !! 0%nat.
Proof.
  unfold NewClientEvent. intros H.
  apply bind_Ret_inv in H as (hd & Hhd & H). apply at_index_Ret in Hhd. rewrite Hhd.
  apply bind_Ret_inv in H as (p0 & _ & H).
  match type of H with match ?k with Some _ => _ | None => _ end = _ => destruct k as [ty|] end.
  2: { by injection H as <- <-. }
  apply bind_Ret_inv in H as (p1 & _ & H). destruct (ParseInt p1) as [cid [?|]].
  { by injection H as <- <-. }
  apply bind_Ret_inv in H as ([kid [?|]] & _ & H).
  { by injection H as <- <-. }
  destruct ty;
    repeat (apply bind_Ret_inv in H as (? & _ & H));
    repeat match type of H with
           | context [ParseBool ?x] => destruct (ParseBool x) as [? ?]
           | (let '(_, _) := ?x in _) = _ => destruct x as [? ?]
           end;
    by injection H as <- <-.
Qed.

Example Sprint_env_examples :
  Sprint_env ∅ = "map[]"
  /\ Sprint_env (<["b" := "2"]> (<["a" := "1"]> ∅)) = "map[a:1 b:2]"
  /\ Sprint_env (<["a" := "1"]> (<["b" := "2"]> (<["B" := "x=y"]> ∅))) = "map[B:x=y a:1 b:2]"
  /\ Sprint_env (<["ab" := ""]> (<["a" := "z"]> ∅)) = "map[a:z ab:]".
Proof. repeat split; vm_compute; reflexivity. Qed.









(** ** The fields of the single-line events *)

Lemma at_index_padded (fields : list string) (pad i : nat) :
  (i < length fields + pad)%nat ->
  at_index (fields ++ replicate pad "") i = Ret (column fields i).
Proof.
  intros Hi. unfold at_index, column. destruct (decide (i < length fields)%nat) as [Hlt|Hge].
  - rewrite lookup_app_l by done. by destruct (lookup_lt_is_Some_2 fields i Hlt) as [x ->].
  - rewrite lookup_app_r by lia. rewrite lookup_replicate_2 by lia.
    by rewrite lookup_ge_None_2 by lia.
Qed.

(** X4: a LOG body is cut at its first two commas only.  For a timestamp
    and flags without a comma and any message, commas included, the event
    holds the flags and the whole message, its timestamp is what [ParseInt]
    makes of the first field, and the error is [ParseInt]'s.  A body of
    fewer than three fields reads the missing ones as empty strings: with
    two fields the message is empty, with one field (the empty body
    included) the flags are empty as well. *)
Theorem NewLogEvent_fields (ts flags msg : string) :
  sep_free "," ts -> sep_free "," flags ->
  (exists e,
     NewLogEvent (ts +:+ "," +:+ flags +:+ "," +:+ msg) = Ret (e, snd (ParseInt ts))
     /\ LogEvent.Timestamp e = fst (ParseInt ts)
     /\ LogEvent.RawFlags e = Ret flags
     /\ LogEvent.Message e = Ret msg
     /\ LogEvent_String e = Ret ("LOG[" +:+ flags +:+ "]: " +:+ msg))
  /\ (exists e,
        NewLogEvent (ts +:+ "," +:+ flags) = Ret (e, snd (ParseInt ts))
        /\ LogEvent.Timestamp e = fst (ParseInt ts)
        /\ LogEvent.RawFlags e = Ret flags
        /\ LogEvent.Message e = Ret ""
        /\ LogEvent_String e = Ret ("LOG[" +:+ flags +:+ "]: " +:+ ""))
  /\ (exists e,
        NewLogEvent ts = Ret (e, snd (ParseInt ts))
        /\ LogEvent.Timestamp e = fst (ParseInt ts)
        /\ LogEvent.RawFlags e = Ret ""
        /\ LogEvent.Message e = Ret ""
        /\ LogEvent_String e = Ret ("LOG[" +:+ "" +:+ "]: " +:+ "")).
Proof.
  intros Hts Hflags. split; [|split].
  - assert (Hparts : stringsSplitNK (ts +:+ "," +:+ flags +:+ "," +:+ msg) fieldSep 3 3
                     = [ts; flags; msg]).
    { unfold stringsSplitNK, SplitN, fieldSep. cbn [Z.eqb String.eqb Z.ltb Z.compare].
      change (Z.to_nat (3 - 1)) with 2%nat.
      change ("," +:+ flags +:+ "," +:+ msg) with (String "," (flags +:+ String "," msg)).
      by rewrite !split_cuts_cons by done. }
    unfold NewLogEvent. rewrite Hparts. cbn [at_index lookup list_lookup]. rewrite bind_Ret.
    destruct (ParseInt ts) as [v err]. eexists. split; [reflexivity|].
    unfold LogEvent_String, LogEvent.RawFlags, LogEvent.Message. cbn. done.
  - assert (Hparts : stringsSplitNK (ts +:+ "," +:+ flags) fieldSep 3 3 = [ts; flags; ""]).
    { unfold stringsSplitNK, SplitN, fieldSep. cbn [Z.eqb String.eqb Z.ltb Z.compare].
      change (Z.to_nat (3 - 1)) with 2%nat.
      change ("," +:+ flags) with (String "," flags).
      rewrite split_cuts_cons by done. by rewrite split_cuts_last by done. }
    unfold NewLogEvent. rewrite Hparts. cbn [at_index lookup list_lookup]. rewrite bind_Ret.
    destruct (ParseInt ts) as [v err]. eexists. split; [reflexivity|].
    unfold LogEvent_String, LogEvent.RawFlags, LogEvent.Message. cbn. done.
  - assert (Hparts : stringsSplitNK ts fieldSep 3 3 = [ts; ""; ""]).
    { unfold stringsSplitNK, SplitN, fieldSep. cbn [Z.eqb String.eqb Z.ltb Z.compare].
      by rewrite split_cuts_last by done. }
    unfold NewLogEvent. rewrite Hparts. cbn [at_index lookup list_lookup]. rewrite bind_Ret.
    destruct (ParseInt ts) as [v err]. eexists. split; [reflexivity|].
    unfold LogEvent_String, LogEvent.RawFlags, LogEvent.Message. cbn. done.
Qed.

Lemma NewLogEvent_fields_witness :
  sep_free "," "1584536294" /\ sep_free "," "IW"
  /\ (exists e,
        NewLogEvent ("1584536294" +:+ "," +:+ "IW" +:+ "," +:+ "a, b and c")
        = Ret (e, snd (ParseInt "1584536294"))
        /\ LogEvent.Timestamp e = fst (ParseInt "1584536294")
        /\ LogEvent.RawFlags e = Ret "IW"
        /\ LogEvent.Message e = Ret "a, b and c"
        /\ LogEvent_String e = Ret ("LOG[" +:+ "IW" +:+ "]: " +:+ "a, b and c"))
  /\ (exists e,
        NewLogEvent ("1584536294" +:+ "," +:+ "IW") = Ret (e, snd (ParseInt "1584536294"))
        /\ LogEvent.Timestamp e = fst (ParseInt "1584536294")
        /\ LogEvent.RawFlags e = Ret "IW"
        /\ LogEvent.Message e = Ret ""
        /\ LogEvent_String e = Ret ("LOG[" +:+ "IW" +:+ "]: " +:+ "")).
Proof.
  split; [reflexivity|]. split; [reflexivity|].
  pose proof (NewLogEvent_fields "1584536294" "IW" "a, b and c" eq_refl eq_refl) as H.
  exact (conj (proj1 H) (proj1 (proj2 H))).
Defined.

(** X5: a STATE body of one to nine comma-free fields is cut into exactly
    those fields, padded with empty strings up to five.  The name, the
    description and the two addresses are the second to fifth field, or the
    empty string where the body is shorter, and the timestamp is what
    [ParseInt] makes of the first. *)
Theorem NewStateEvent_fields (fields : list string) :
  fields <> [] -> (length fields <= 9)%nat -> Forall (sep_free ",") fields ->
  exists e,
    NewStateEvent (Join fields fieldSep) = Ret (e, snd (ParseInt (column fields 0)))
    /\ StateEvent.bodyParts e = fields ++ replicate (5 - length fields) ""
    /\ StateEvent.Timestamp e = fst (ParseInt (column fields 0))
    /\ StateEvent.Name e = Ret (column fields 1)
    /\ StateEvent.Description e = Ret (column fields 2)
    /\ StateEvent.LocalTunnelAddr e = Ret (column fields 3)
    /\ StateEvent.RemoteAddr e = Ret (column fields 4).
Proof.
  intros Hne Hlen Hall.
  assert (Hparts : stringsSplitNK (Join fields fieldSep) fieldSep 9 5
                   = fields ++ replicate (5 - length fields) "").
  { unfold fieldSep. rewrite stringsSplitNK_Join by (done || lia).
    replace (Nat.min (Z.to_nat 9) (length fields)) with (length fields) by lia.
    rewrite app_assoc, last_field_split by done. done. }
  unfold NewStateEvent. rewrite Hparts.
  rewrite at_index_padded by (destruct fields; [done|cbn [length]; lia]).
  rewrite bind_Ret. destruct (ParseInt (column fields 0)) as [v err].
  eexists. split; [reflexivity|]. split; [reflexivity|]. split; [reflexivity|].
  unfold StateEvent.Name, StateEvent.Description, StateEvent.LocalTunnelAddr,
    StateEvent.RemoteAddr. cbn [StateEvent.bodyParts].
  rewrite !at_index_padded by lia. done.
Qed.

Lemma NewStateEvent_fields_witness :
  ["123"; "RECONNECTING"; "SIGHUP"] <> [] /\ (length ["123"; "RECONNECTING"; "SIGHUP"] <= 9)%nat
  /\ Forall (sep_free ",") ["123"; "RECONNECTING"; "SIGHUP"]
  /\ exists e,
       NewStateEvent "123,RECONNECTING,SIGHUP" = Ret (e, None)
       /\ StateEvent.bodyParts e = ["123"; "RECONNECTING"; "SIGHUP"; ""; ""]
       /\ StateEvent.Timestamp e = 123
       /\ StateEvent.Name e = Ret "RECONNECTING"
       /\ StateEvent.Description e = Ret "SIGHUP"
       /\ StateEvent.LocalTunnelAddr e = Ret ""
       /\ StateEvent.RemoteAddr e = Ret "".
Proof.
  assert (H : Forall (sep_free ",") ["123"; "RECONNECTING"; "SIGHUP"]) by (repeat constructor).
  split; [done|]. split; [cbn; lia|]. split; [exact H|].
  exact (NewStateEvent_fields ["123"; "RECONNECTING"; "SIGHUP"] ltac:(done) ltac:(cbn; lia) H).
Defined.

(** X6: the accessors of a Log or State event index the parts of its body
    without a check, and the text form calls them; on an event that
    [NewLogEvent] or [NewStateEvent] has built, from any body at all, none of
    them panics. *)
Theorem event_accessors_never_panic (body : string) :
  (forall e err, NewLogEvent body = Ret (e, err) ->
     returns (LogEvent.RawFlags e) /\ returns (LogEvent.Message e)
     /\ returns (LogEvent_String e))
  /\ (forall e err, NewStateEvent body = Ret (e, err) ->
        returns (StateEvent.Name e) /\ returns (StateEvent.Description e)
        /\ returns (StateEvent.LocalTunnelAddr e) /\ returns (StateEvent.RemoteAddr e)
        /\ returns (StateEvent_String e)).
Proof.
  split.
  - intros e err H. unfold NewLogEvent in H. apply bind_Ret_inv in H as (p0 & _ & H).
    destruct (ParseInt p0). injection H as <- <-.
    unfold LogEvent_String, LogEvent.RawFlags, LogEvent.Message. cbn [LogEvent.bodyParts].
    destruct (at_index_splitNK body fieldSep 3 3 1) as [f Hf]; [cbn; lia|].
    destruct (at_index_splitNK body fieldSep 3 3 2) as [m Hm]; [cbn; lia|].
    rewrite Hf, Hm, !bind_Ret. repeat split; apply returns_Ret.
  - intros e err H. unfold NewStateEvent in H. apply bind_Ret_inv in H as (p0 & _ & H).
    destruct (ParseInt p0). injection H as <- <-.
    unfold StateEvent_String, StateEvent.Name, StateEvent.Description,
      StateEvent.LocalTunnelAddr, StateEvent.RemoteAddr. cbn [StateEvent.bodyParts].
    destruct (at_index_splitNK body fieldSep 9 5 1) as [f1 H1]; [cbn; lia|].
    destruct (at_index_splitNK body fieldSep 9 5 2) as [f2 H2]; [cbn; lia|].
    destruct (at_index_splitNK body fieldSep 9 5 3) as [f3 H3]; [cbn; lia|].
    destruct (at_index_splitNK body fieldSep 9 5 4) as [f4 H4]; [cbn; lia|].
    rewrite H1, H2, H3, H4, !bind_Ret.
    repeat split; try apply returns_Ret.
    repeat match goal with |- returns (if ?b then _ else _) => destruct b end;
      apply returns_Ret.
Qed.

Lemma event_accessors_never_panic_witness :
  NewStateEvent "" = Ret (StateEvent.mk "" [""; ""; ""; ""; ""] 0, snd (ParseInt ""))
  /\ returns (StateEvent.RemoteAddr (StateEvent.mk "" [""; ""; ""; ""; ""] 0))
  /\ returns (StateEvent_String (StateEvent.mk "" [""; ""; ""; ""; ""] 0)).
Proof.
  split; [reflexivity|].
  destruct (proj2 (event_accessors_never_panic "") _ _ eq_refl) as (_ & _ & _ & H4 & H5).
  exact (conj H4 H5).
Defined.

(** X7: an ECHO body is cut at its first comma only.  What follows it is the
    message, commas included; what precedes it is the timestamp, and the
    error is what [ParseInt] says of it.  A body without any comma gives the
    error [ErrNoMsgFieldSep], a zero timestamp and an empty message. *)
Theorem NewEchoEvent_fields (body : string) :
  (forall ts msg, sep_free "," ts -> body = ts +:+ "," +:+ msg ->
     NewEchoEvent body = Ret (EchoEvent.mk body (fst (ParseInt ts)) msg, snd (ParseInt ts)))
  /\ (sep_free "," body ->
      NewEchoEvent body = Ret (EchoEvent.mk body 0 "", Some ErrNoMsgFieldSep)).
Proof.
  split.
  - intros ts msg Hts ->. unfold NewEchoEvent, fieldSep.
    change ("," +:+ msg) with (String "," msg). rewrite Index_app_sep by done.
    unfold str_from, str_to.
    rewrite !decide_True by (rewrite length_append; cbn [String.length]; lia).
    rewrite !bind_Ret, substring_app_l, substring_app_r, length_append.
    cbn [String.length].
    replace (String.length ts + S (String.length msg) - (String.length ts + 1))%nat
      with (String.length msg) by lia.
    cbn [substring]. rewrite substring_whole. by destruct (ParseInt ts).
  - intros Hb. unfold NewEchoEvent, fieldSep. by rewrite Hb.
Qed.

Lemma NewEchoEvent_fields_witness :
  sep_free "," "123"
  /\ NewEchoEvent "123,a,b" = Ret (EchoEvent.mk "123,a,b" (fst (ParseInt "123")) "a,b",
                                   snd (ParseInt "123"))
  /\ sep_free "," "forget-passwords"
  /\ NewEchoEvent "forget-passwords"
     = Ret (EchoEvent.mk "forget-passwords" 0 "", Some ErrNoMsgFieldSep).
Proof.
  split; [reflexivity|].
  split; [exact (proj1 (NewEchoEvent_fields "123,a,b") "123" "a,b" eq_refl eq_refl)|].
  split; [reflexivity|].
  exact (proj2 (NewEchoEvent_fields "forget-passwords") eq_refl).
Defined.

(** The two parts of a BYTECOUNT body. *)
Lemma NewByteCountEvent_parts (a b : string) :
  sep_free "," a ->
  stringsSplitNK (a +:+ "," +:+ b) fieldSep 2 2 = [a; b].
Proof.
  intros Ha. unfold stringsSplitNK, SplitN, fieldSep.
  cbn [Z.eqb String.eqb Z.ltb Z.compare]. change (Z.to_nat (2 - 1)) with 1%nat.
  change ("," +:+ b) with (String "," b). by rewrite split_cuts_cons by done.
Qed.

(** X8: [NewByteCountEvent] reports the first field that fails and stops
    there.  For a body cut at its first comma into [a] and [b]: when [a] is
    no integer the error is [a]'s and the output counter stays 0, whatever
    [b] is; otherwise the output counter and the error are what [ParseInt]
    makes of [b], the whole rest of the body. *)
Theorem NewByteCountEvent_first_error (a b : string) :
  sep_free "," a ->
  NewByteCountEvent (a +:+ "," +:+ b)
  = Ret (match snd (ParseInt a) with
         | Some err => (ByteCountEvent.mk (a +:+ "," +:+ b) (fst (ParseInt a)) 0, Some err)
         | None => (ByteCountEvent.mk (a +:+ "," +:+ b) (fst (ParseInt a)) (fst (ParseInt b)),
                    snd (ParseInt b))
         end).
Proof.
  intros Ha. unfold NewByteCountEvent. rewrite NewByteCountEvent_parts by done.
  cbn [at_index lookup list_lookup]. rewrite bind_Ret.
  destruct (ParseInt a) as [va [ea|]]; [done|]. rewrite bind_Ret.
  by destruct (ParseInt b).
Qed.

Lemma NewByteCountEvent_first_error_witness :
  sep_free "," "x"
  /\ NewByteCountEvent "x,6"
     = Ret (ByteCountEvent.mk "x,6" 0 0, Some (NumError "ParseInt" "x" ErrSyntax)).
Proof.
  split; [reflexivity|].
  exact (NewByteCountEvent_first_error "x" "6" eq_refl).
Defined.

Lemma not_digit_comma : ~ is_digit ",".
Proof. by intros [v Hv]. Qed.

Lemma not_digit_colon : ~ is_digit ":".
Proof. by intros [v Hv]. Qed.

(** X9: the byte counters survive the trip over the wire, for every value of
    64 bits.  The line BYTECOUNT with the decimal text of [bytesIn] and
    [bytesOut] comes back from the factory as a ByteCount event with exactly
    these counters, and BYTECOUNT_CLI with a client id likewise; the text
    form of the events shows the same numbers. *)
Theorem bytecount_round_trip (cid bytesIn bytesOut : Z) :
  - 2 ^ 63 <= cid < 2 ^ 63 -> - 2 ^ 63 <= bytesIn < 2 ^ 63 -> - 2 ^ 63 <= bytesOut < 2 ^ 63 ->
  (exists e,
     parseLine ("BYTECOUNT:" +:+ Itoa bytesIn +:+ "," +:+ Itoa bytesOut)
     = Ret (AByteCountEvent e)
     /\ ByteCountEvent.BytesIn e = bytesIn /\ ByteCountEvent.BytesOut e = bytesOut
     /\ ByteCountEvent_String e = Itoa bytesIn +:+ " in, " +:+ Itoa bytesOut +:+ " out")
  /\ (exists e,
        parseLine ("BYTECOUNT_CLI:" +:+ Itoa cid +:+ "," +:+ Itoa bytesIn +:+ "," +:+ Itoa bytesOut)
        = Ret (AByteCountClientEvent e)
        /\ ByteCountClientEvent.ClientId e = cid
        /\ ByteCountClientEvent.BytesIn e = bytesIn
        /\ ByteCountClientEvent.BytesOut e = bytesOut).
Proof.
  intros Hc Hi Ho.
  pose proof (parse_int_Itoa "ParseInt" cid Hc) as Pc.
  pose proof (parse_int_Itoa "ParseInt" bytesIn Hi) as Pi.
  pose proof (parse_int_Itoa "ParseInt" bytesOut Ho) as Po.
  fold (ParseInt (Itoa cid)) in Pc. fold (ParseInt (Itoa bytesIn)) in Pi.
  fold (ParseInt (Itoa bytesOut)) in Po.
  assert (Hsep : forall n, sep_free "," (Itoa n)).
  { intros n. apply Itoa_sep_free; [apply not_digit_comma|done]. }
  split.
  - unfold parseLine.
    change ("BYTECOUNT:" +:+ Itoa bytesIn +:+ "," +:+ Itoa bytesOut)
      with (byteCountEventKW +:+ eventSep +:+ (Itoa bytesIn +:+ "," +:+ Itoa bytesOut)).
    rewrite splitEvent_joined by reflexivity. rewrite bind_Ret.
    change (upgradeEvent byteCountEventKW ?b)
      with ('(e, err) ← NewByteCountEvent b; mret (wrap_invalid (AByteCountEvent e) err)).
    exists (ByteCountEvent.mk (Itoa bytesIn +:+ "," +:+ Itoa bytesOut) bytesIn bytesOut).
    split; [|done].
    unfold NewByteCountEvent. rewrite NewByteCountEvent_parts by apply Hsep.
    cbn [at_index lookup list_lookup]. by rewrite bind_Ret, Pi, bind_Ret, Po.
  - unfold parseLine.
    change ("BYTECOUNT_CLI:" +:+ Itoa cid +:+ "," +:+ Itoa bytesIn +:+ "," +:+ Itoa bytesOut)
      with (byteCountCliEventKW +:+ eventSep
            +:+ (Itoa cid +:+ "," +:+ Itoa bytesIn +:+ "," +:+ Itoa bytesOut)).
    rewrite splitEvent_joined by reflexivity. rewrite bind_Ret.
    change (upgradeEvent byteCountCliEventKW ?b)
      with ('(e, err) ← NewByteCountClientEvent b;
            mret (wrap_invalid (AByteCountClientEvent e) err)).
    assert (Hparts : stringsSplitNK (Itoa cid +:+ "," +:+ Itoa bytesIn +:+ "," +:+ Itoa bytesOut)
                       fieldSep 3 3 = [Itoa cid; Itoa bytesIn; Itoa bytesOut]).
    { unfold stringsSplitNK, SplitN, fieldSep. cbn [Z.eqb String.eqb Z.ltb Z.compare].
      change (Z.to_nat (3 - 1)) with 2%nat.
      change ("," +:+ Itoa bytesIn +:+ "," +:+ Itoa bytesOut)
        with (String "," (Itoa bytesIn +:+ String "," (Itoa bytesOut))).
      by rewrite !split_cuts_cons by apply Hsep. }
    exists (ByteCountClientEvent.mk
              (Itoa cid +:+ "," +:+ Itoa bytesIn +:+ "," +:+ Itoa bytesOut) cid bytesIn bytesOut).
    split; [|done].
    unfold NewByteCountClientEvent. rewrite Hparts. cbn [at_index lookup list_lookup].
    rewrite !bind_Ret, Pc. cbn match. rewrite !bind_Ret, Pi. cbn match.
    by rewrite !bind_Ret, Po.
Qed.

Lemma bytecount_round_trip_witness :
  - 2 ^ 63 <= 7 < 2 ^ 63 /\ - 2 ^ 63 <= - 1 < 2 ^ 63 /\ - 2 ^ 63 <= 2 ^ 63 - 1 < 2 ^ 63
  /\ exists e,
       parseLine ("BYTECOUNT:" +:+ Itoa (- 1) +:+ "," +:+ Itoa (2 ^ 63 - 1))
       = Ret (AByteCountEvent e)
       /\ ByteCountEvent.BytesIn e = - 1 /\ ByteCountEvent.BytesOut e = 2 ^ 63 - 1
       /\ ByteCountEvent_String e
          = Itoa (- 1) +:+ " in, " +:+ Itoa (2 ^ 63 - 1) +:+ " out".
Proof.
  split; [lia|]. split; [lia|]. split; [lia|].
  exact (proj1 (bytecount_round_trip 7 (- 1) (2 ^ 63 - 1)
                  ltac:(lia) ltac:(lia) ltac:(lia))).
Defined.

(** ** CLIENT notifications *)

Lemma client_envs_env_line (kv : string * string) (rest : list string)
    (envs : gmap string string) :
  sep_free "=" (fst kv) ->
  client_envs (env_line kv :: rest) envs = client_envs rest (<[fst kv := snd kv]> envs).
Proof.
  intros Hk. cbn [client_envs]. unfold env_line.
  change (clientEnvMarker +:+ fieldSep +:+ kv.1 +:+ clientEnvKVSep +:+ kv.2)
    with ((clientEnvMarker +:+ fieldSep) +:+ (kv.1 +:+ clientEnvKVSep +:+ kv.2)).
  rewrite HasPrefix_app_l. cbn [negb]. unfold str_from.
  rewrite decide_True by (rewrite !length_append; lia).
  rewrite bind_Ret, substring_app_tail.
  assert (Hparts : stringsSplitNK (kv.1 +:+ clientEnvKVSep +:+ kv.2) clientEnvKVSep 2 2
                   = [kv.1; kv.2]).
  { unfold stringsSplitNK, SplitN, clientEnvKVSep.
    cbn [Z.eqb String.eqb Z.ltb Z.compare]. change (Z.to_nat (2 - 1)) with 1%nat.
    change ("=" +:+ kv.2) with (String "=" kv.2). by rewrite split_cuts_cons by done. }
  rewrite Hparts. cbn [at_index lookup list_lookup]. by rewrite !bind_Ret.
Qed.

Lemma list_to_map_snoc (kvs : list (string * string)) (kv : string * string) :
  (list_to_map (reverse (kvs ++ [kv])) : gmap string string)
  = <[fst kv := snd kv]> (list_to_map (reverse kvs)).
Proof. rewrite reverse_app. by destruct kv. Qed.

(** The environment lines are collected in order, so the last line for a
    name decides its value. *)
Lemma client_envs_prefix (done kvs : list (string * string)) (more : list string) :
  Forall (fun kv => sep_free "=" (fst kv)) kvs ->
  client_envs ((env_line <$> kvs) ++ more) (list_to_map (reverse done))
  = client_envs more (list_to_map (reverse (done ++ kvs))).
Proof.
  revert done. induction kvs as [|kv kvs IH]; intros done Hkvs.
  - by rewrite app_nil_r.
  - apply Forall_cons in Hkvs as [Hk Hkvs]. cbn [fmap list_fmap app].
    rewrite client_envs_env_line by done. rewrite <- list_to_map_snoc.
    rewrite IH by done. by rewrite <- app_assoc.
Qed.

Lemma client_envs_env_lines (kvs : list (string * string)) :
  Forall (fun kv => sep_free "=" (fst kv)) kvs ->
  client_envs (env_line <$> kvs) ∅ = Ret (list_to_map (reverse kvs), None).
Proof.
  intros Hall. pose proof (client_envs_prefix [] kvs [] Hall) as H.
  by rewrite app_nil_r in H.
Qed.

Lemma CE_string_sep_free (ty : ClientEventNotification) : sep_free "," (CE_string ty).
Proof. by destruct ty. Qed.

(** X10: a complete CLIENT block is decoded field for field.  For a header
    CONNECT or REAUTH with a client id and a key id of 64 bits, followed by
    environment lines whose names hold no equal sign, [NewClientEvent]
    returns no error, the two ids, and an environment in which the last line
    for a name decides its value; values may hold equal signs.  For
    ESTABLISHED and DISCONNECT the header has a client id only and the key
    id stays 0.  A name that no line sets reads as the empty string. *)
Theorem NewClientEvent_block (ty : ClientEventNotification) (cid kid : Z)
    (kvs : list (string * string)) :
  - 2 ^ 63 <= cid < 2 ^ 63 -> - 2 ^ 63 <= kid < 2 ^ 63 ->
  Forall (fun kv => sep_free "=" (fst kv)) kvs ->
  (ty = CEConnect \/ ty = CEReauth ->
   NewClientEvent ((CE_string ty +:+ "," +:+ Itoa cid +:+ "," +:+ Itoa kid)
                     :: (env_line <$> kvs))
   = Ret (ClientEvent.mk (CE_string ty +:+ "," +:+ Itoa cid +:+ "," +:+ Itoa kid)
            ty cid kid "" false (list_to_map (reverse kvs)), None))
  /\ (ty = CEEstablished \/ ty = CEDisconnect ->
      NewClientEvent ((CE_string ty +:+ "," +:+ Itoa cid) :: (env_line <$> kvs))
      = Ret (ClientEvent.mk (CE_string ty +:+ "," +:+ Itoa cid)
               ty cid 0 "" false (list_to_map (reverse kvs)), None))
  /\ (forall e name, ClientEvent.envs e = list_to_map (reverse kvs) ->
        name ∉ kvs.*1 -> ClientEvent.RawEnv e name = "").
Proof.
  intros Hc Hk Hkvs.
  pose proof (parse_int_Itoa "ParseInt" cid Hc) as Pc. fold (ParseInt (Itoa cid)) in Pc.
  pose proof (parse_int_Itoa "ParseInt" kid Hk) as Pk. fold (ParseInt (Itoa kid)) in Pk.
  assert (Hsep : forall n, sep_free "," (Itoa n)).
  { intros n. apply Itoa_sep_free; [apply not_digit_comma|done]. }
  split; [|split].
  - intros Hty.
    assert (Hparts : stringsSplitNK (CE_string ty +:+ "," +:+ Itoa cid +:+ "," +:+ Itoa kid)
                       fieldSep 4 4 = [CE_string ty; Itoa cid; Itoa kid; ""]).
    { unfold stringsSplitNK, SplitN, fieldSep. cbn [Z.eqb String.eqb Z.ltb Z.compare].
      change (Z.to_nat (4 - 1)) with 3%nat.
      change ("," +:+ Itoa cid +:+ "," +:+ Itoa kid)
        with (String "," (Itoa cid +:+ String "," (Itoa kid))).
      rewrite !split_cuts_cons by (apply CE_string_sep_free || apply Hsep).
      by rewrite split_cuts_last by apply Hsep. }
    unfold NewClientEvent. cbn [at_index lookup list_lookup]. rewrite bind_Ret, Hparts.
    cbn [at_index lookup list_lookup]. rewrite !bind_Ret.
    destruct Hty as [-> | ->]; cbn [CE_string String.eqb Ascii.eqb Bool.eqb];
      cbn [mret outcome_ret mbind outcome_bind]; rewrite Pc, Pk;
      change (slice_from (?h :: ?t) 1) with (Ret t : outcome (list string));
      cbn [mret outcome_ret mbind outcome_bind];
      rewrite client_envs_env_lines by done; done.
  - intros Hty.
    assert (Hparts : stringsSplitNK (CE_string ty +:+ "," +:+ Itoa cid) fieldSep 4 4
                     = [CE_string ty; Itoa cid; ""; ""]).
    { unfold stringsSplitNK, SplitN, fieldSep. cbn [Z.eqb String.eqb Z.ltb Z.compare].
      change (Z.to_nat (4 - 1)) with 3%nat.
      change ("," +:+ Itoa cid) with (String "," (Itoa cid)).
      rewrite !split_cuts_cons by apply CE_string_sep_free.
      by rewrite split_cuts_last by apply Hsep. }
    unfold NewClientEvent. cbn [at_index lookup list_lookup]. rewrite bind_Ret, Hparts.
    cbn [at_index lookup list_lookup]. rewrite !bind_Ret.
    destruct Hty as [-> | ->]; cbn [CE_string String.eqb Ascii.eqb Bool.eqb];
      cbn [mret outcome_ret mbind outcome_bind]; rewrite Pc;
      change (slice_from (?h :: ?t) 1) with (Ret t : outcome (list string));
      cbn [mret outcome_ret mbind outcome_bind];
      rewrite client_envs_env_lines by done; done.
  - intros e name He Hname. unfold ClientEvent.RawEnv. rewrite He.
    rewrite (not_elem_of_list_to_map_1 (reverse kvs) name); [done|].
    by rewrite fmap_reverse, elem_of_reverse.
Qed.

Lemma NewClientEvent_block_witness :
  - 2 ^ 63 <= 7 < 2 ^ 63 /\ - 2 ^ 63 <= 2 < 2 ^ 63
  /\ Forall (fun kv : string * string => sep_free "=" (fst kv)) [("foo", "a=b"); ("foo", "bar")]
  /\ NewClientEvent (("CONNECT" +:+ "," +:+ Itoa 7 +:+ "," +:+ Itoa 2)
                       :: (env_line <$> [("foo", "a=b"); ("foo", "bar")]))
     = Ret (ClientEvent.mk ("CONNECT" +:+ "," +:+ Itoa 7 +:+ "," +:+ Itoa 2)
              CEConnect 7 2 "" false (list_to_map (reverse [("foo", "a=b"); ("foo", "bar")])),
            None).
Proof.
  assert (H : Forall (fun kv : string * string => sep_free "=" (fst kv))
                [("foo", "a=b"); ("foo", "bar")]) by (repeat constructor).
  split; [lia|]. split; [lia|]. split; [exact H|].
  exact (proj1 (NewClientEvent_block CEConnect 7 2 _ ltac:(lia) ltac:(lia) H) (or_introl eq_refl)).
Defined.

Lemma stringsSplitNK_first (p0 rest : string) (c : ascii) (n k : Z) :
  sep_free c p0 -> 2 <= n ->
  at_index (stringsSplitNK (p0 +:+ String c rest) (String c "") n k) 0 = Ret p0.
Proof.
  intros Hp Hn. unfold stringsSplitNK, SplitN.
  destruct (Z.eqb_spec n 0); [lia|]. cbn [String.eqb]. destruct (Z.ltb_spec n 0); [lia|].
  replace (Z.to_nat (n - 1)) with (S (Z.to_nat (n - 2))) by lia.
  rewrite split_cuts_cons by done.
  destruct (Z.leb_spec k (Z.of_nat (length (p0 :: split_cuts (Z.to_nat (n - 2)) rest (String c ""))))) as [|Hk];
    [reflexivity|].
  unfold make_copy. cbn [length] in Hk.
  destruct (Z.to_nat k) eqn:E; [lia|reflexivity].
Qed.

Lemma NewClientEvent_with_kid (ty : ClientEventNotification) (cid kid : Z)
    (rest : list string) :
  - 2 ^ 63 <= cid < 2 ^ 63 -> - 2 ^ 63 <= kid < 2 ^ 63 ->
  ty = CEConnect \/ ty = CEReauth ->
  NewClientEvent ((CE_string ty +:+ "," +:+ Itoa cid +:+ "," +:+ Itoa kid) :: rest)
  = ('(envs, err) ← client_envs rest ∅;
     mret (ClientEvent.mk (CE_string ty +:+ "," +:+ Itoa cid +:+ "," +:+ Itoa kid)
             ty cid kid "" false envs, err)).
Proof.
  intros Hc Hk Hty.
  pose proof (parse_int_Itoa "ParseInt" cid Hc) as Pc. fold (ParseInt (Itoa cid)) in Pc.
  pose proof (parse_int_Itoa "ParseInt" kid Hk) as Pk. fold (ParseInt (Itoa kid)) in Pk.
  assert (Hsep : forall n, sep_free "," (Itoa n)).
  { intros n. apply Itoa_sep_free; [apply not_digit_comma|done]. }
  assert (Hparts : stringsSplitNK (CE_string ty +:+ "," +:+ Itoa cid +:+ "," +:+ Itoa kid)
                     fieldSep 4 4 = [CE_string ty; Itoa cid; Itoa kid; ""]).
  { unfold stringsSplitNK, SplitN, fieldSep. cbn [Z.eqb String.eqb Z.ltb Z.compare].
    change (Z.to_nat (4 - 1)) with 3%nat.
    change ("," +:+ Itoa cid +:+ "," +:+ Itoa kid)
      with (String "," (Itoa cid +:+ String "," (Itoa kid))).
    rewrite !split_cuts_cons by (apply CE_string_sep_free || apply Hsep).
    by rewrite split_cuts_last by apply Hsep. }
  unfold NewClientEvent. cbn [at_index lookup list_lookup]. rewrite bind_Ret, Hparts.
  cbn [at_index lookup list_lookup]. rewrite !bind_Ret.
  destruct Hty as [-> | ->]; cbn [CE_string String.eqb Ascii.eqb Bool.eqb];
    cbn [mret outcome_ret mbind outcome_bind]; rewrite Pc, Pk;
    change (slice_from (?h :: ?t) 1) with (Ret t : outcome (list string));
    cbn [mret outcome_ret mbind outcome_bind]; reflexivity.
Qed.

Lemma NewClientEvent_without_kid (ty : ClientEventNotification) (cid : Z)
    (rest : list string) :
  - 2 ^ 63 <= cid < 2 ^ 63 ->
  ty = CEEstablished \/ ty = CEDisconnect ->
  NewClientEvent ((CE_string ty +:+ "," +:+ Itoa cid) :: rest)
  = ('(envs, err) ← client_envs rest ∅;
     mret (ClientEvent.mk (CE_string ty +:+ "," +:+ Itoa cid) ty cid 0 "" false envs, err)).
Proof.
  intros Hc Hty.
  pose proof (parse_int_Itoa "ParseInt" cid Hc) as Pc. fold (ParseInt (Itoa cid)) in Pc.
  assert (Hsep : forall n, sep_free "," (Itoa n)).
  { intros n. apply Itoa_sep_free; [apply not_digit_comma|done]. }
  assert (Hparts : stringsSplitNK (CE_string ty +:+ "," +:+ Itoa cid) fieldSep 4 4
                   = [CE_string ty; Itoa cid; ""; ""]).
  { unfold stringsSplitNK, SplitN, fieldSep. cbn [Z.eqb String.eqb Z.ltb Z.compare].
    change (Z.to_nat (4 - 1)) with 3%nat.
    change ("," +:+ Itoa cid) with (String "," (Itoa cid)).
    rewrite !split_cuts_cons by apply CE_string_sep_free.
    by rewrite split_cuts_last by apply Hsep. }
  unfold NewClientEvent. cbn [at_index lookup list_lookup]. rewrite bind_Ret, Hparts.
  cbn [at_index lookup list_lookup]. rewrite !bind_Ret.
  destruct Hty as [-> | ->]; cbn [CE_string String.eqb Ascii.eqb Bool.eqb];
    cbn [mret outcome_ret mbind outcome_bind]; rewrite Pc;
    change (slice_from (?h :: ?t) 1) with (Ret t : outcome (list string));
    cbn [mret outcome_ret mbind outcome_bind]; reflexivity.
Qed.

(** The environment lines up to the first line without the prefix. *)
Lemma client_envs_bad_line (kvs : list (string * string)) (bad : string) (lines : list string) :
  Forall (fun kv => sep_free "=" (fst kv)) kvs ->
  HasPrefix bad (clientEnvMarker +:+ fieldSep) = false ->
  client_envs ((env_line <$> kvs) ++ bad :: lines) ∅
  = Ret (list_to_map (reverse kvs),
         Some (errorString ("no env prefix in client event line: " +:+ bad))).
Proof.
  intros Hkvs Hbad.
  pose proof (client_envs_prefix [] kvs (bad :: lines) Hkvs) as Hp.
  change (list_to_map (reverse [])) with (∅ : gmap string string) in Hp.
  rewrite Hp. cbn [client_envs app]. by rewrite Hbad.
Qed.

(** The first field of a header without a comma is the header. *)
Lemma stringsSplitNK_only (p0 : string) :
  sep_free "," p0 -> at_index (stringsSplitNK p0 fieldSep 4 4) 0 = Ret p0.
Proof.
  intros Hp. unfold stringsSplitNK, SplitN, fieldSep. cbn [Z.eqb String.eqb Z.ltb Z.compare].
  by rewrite split_cuts_last by done.
Qed.

(** X11: the header decides how a CLIENT payload is read.  When its first
    field (the header up to its first comma, or the whole header when it has
    none) is none of CONNECT, REAUTH, ESTABLISHED, DISCONNECT and ADDRESS,
    as for a block that begins with an environment line, the event has the
    type UNKNOWN, no field is parsed and the error names the field.  For
    ADDRESS the header alone is read: the client id, the address and the
    primary flag, whose parse gives the error; further lines are ignored.
    In a block of any of the four block types, the first line that does not
    begin with the environment prefix ends the reading: the error quotes the
    line, the ids and the environment collected before it are kept and the
    lines after it are not read. *)
Theorem NewClientEvent_header_cases (lines : list string) :
  (forall header p0,
     sep_free "," p0 ->
     header = p0 \/ (exists rest, header = p0 +:+ "," +:+ rest) ->
     p0 ∉ [CE_string CEConnect; CE_string CEReauth; CE_string CEEstablished;
           CE_string CEDisconnect; CE_string CEAddress] ->
     NewClientEvent (header :: lines)
     = Ret (ClientEvent.mk header CEUnknown 0 0 "" false ∅,
            Some (errorString ("unknown client event type: " +:+ p0))))
  /\ (forall cid addr pri,
        - 2 ^ 63 <= cid < 2 ^ 63 -> sep_free "," addr ->
        NewClientEvent (("ADDRESS" +:+ "," +:+ Itoa cid +:+ "," +:+ addr +:+ "," +:+ pri) :: lines)
        = Ret (ClientEvent.mk ("ADDRESS" +:+ "," +:+ Itoa cid +:+ "," +:+ addr +:+ "," +:+ pri)
                 CEAddress cid 0 addr (fst (ParseBool pri)) ∅,
               snd (ParseBool pri)))
  /\ (forall ty cid kid kvs bad,
        - 2 ^ 63 <= cid < 2 ^ 63 -> - 2 ^ 63 <= kid < 2 ^ 63 ->
        Forall (fun kv => sep_free "=" (fst kv)) kvs ->
        HasPrefix bad (clientEnvMarker +:+ fieldSep) = false ->
        (ty = CEConnect \/ ty = CEReauth ->
         NewClientEvent ((CE_string ty +:+ "," +:+ Itoa cid +:+ "," +:+ Itoa kid)
                           :: (env_line <$> kvs) ++ bad :: lines)
         = Ret (ClientEvent.mk (CE_string ty +:+ "," +:+ Itoa cid +:+ "," +:+ Itoa kid)
                  ty cid kid "" false (list_to_map (reverse kvs)),
                Some (errorString ("no env prefix in client event line: " +:+ bad))))
        /\ (ty = CEEstablished \/ ty = CEDisconnect ->
            NewClientEvent ((CE_string ty +:+ "," +:+ Itoa cid)
                              :: (env_line <$> kvs) ++ bad :: lines)
            = Ret (ClientEvent.mk (CE_string ty +:+ "," +:+ Itoa cid)
                     ty cid 0 "" false (list_to_map (reverse kvs)),
                   Some (errorString ("no env prefix in client event line: " +:+ bad))))).
Proof.
  assert (Hsep : forall n, sep_free "," (Itoa n)).
  { intros n. apply Itoa_sep_free; [apply not_digit_comma|done]. }
  split; [|split].
  - intros header p0 Hp Hheader Hnot. unfold NewClientEvent.
    cbn [at_index lookup list_lookup]. rewrite bind_Ret.
    assert (Hfirst : at_index (stringsSplitNK header fieldSep 4 4) 0 = Ret p0).
    { destruct Hheader as [->|[rest ->]]; [by apply stringsSplitNK_only|].
      unfold fieldSep. change ("," +:+ rest) with (String "," rest).
      apply stringsSplitNK_first; [done|lia]. }
    rewrite Hfirst, bind_Ret.
    assert (Hne : forall k, k ∈ [CE_string CEConnect; CE_string CEReauth;
                                 CE_string CEEstablished; CE_string CEDisconnect;
                                 CE_string CEAddress] -> String.eqb p0 k = false).
    { intros k Hk. apply String.eqb_neq. intros ->. by apply Hnot. }
    rewrite !Hne by (rewrite !elem_of_cons; tauto). done.
  - intros cid addr pri Hc Haddr.
    pose proof (parse_int_Itoa "ParseInt" cid Hc) as Pc. fold (ParseInt (Itoa cid)) in Pc.
    assert (Hparts : stringsSplitNK ("ADDRESS" +:+ "," +:+ Itoa cid +:+ "," +:+ addr +:+ "," +:+ pri)
                       fieldSep 4 4 = ["ADDRESS"; Itoa cid; addr; pri]).
    { unfold stringsSplitNK, SplitN, fieldSep. cbn [Z.eqb String.eqb Z.ltb Z.compare].
      change (Z.to_nat (4 - 1)) with 3%nat.
      change ("," +:+ Itoa cid +:+ "," +:+ addr +:+ "," +:+ pri)
        with (String "," (Itoa cid +:+ String "," (addr +:+ String "," pri))).
      by rewrite !split_cuts_cons by (done || apply Hsep). }
    unfold NewClientEvent. cbn [at_index lookup list_lookup]. rewrite bind_Ret, Hparts.
    cbn [at_index lookup list_lookup]. cbn [mret outcome_ret mbind outcome_bind].
    cbn [String.eqb Ascii.eqb Bool.eqb CE_string]. rewrite Pc.
    cbn [mret outcome_ret mbind outcome_bind]. by destruct (ParseBool pri).
  - intros ty cid kid kvs bad Hc Hk Hkvs Hbad. split; intros Hty.
    + rewrite NewClientEvent_with_kid by done.
      by rewrite client_envs_bad_line, bind_Ret by done.
    + rewrite NewClientEvent_without_kid by done.
      by rewrite client_envs_bad_line, bind_Ret by done.
Qed.

Lemma NewClientEvent_header_cases_witness :
  sep_free "," "ENV"
  /\ ("ENV" ∉ [CE_string CEConnect; CE_string CEReauth; CE_string CEEstablished;
               CE_string CEDisconnect; CE_string CEAddress])
  /\ NewClientEvent (("ENV" +:+ "," +:+ "foo=bar") :: ["ENV,x=y"])
     = Ret (ClientEvent.mk ("ENV" +:+ "," +:+ "foo=bar") CEUnknown 0 0 "" false ∅,
            Some (errorString ("unknown client event type: " +:+ "ENV")))
  /\ NewClientEvent ("bogus" :: ["ENV,x=y"])
     = Ret (ClientEvent.mk "bogus" CEUnknown 0 0 "" false ∅,
            Some (errorString ("unknown client event type: " +:+ "bogus")))
  /\ NewClientEvent (("CONNECT" +:+ "," +:+ Itoa 7 +:+ "," +:+ Itoa 2)
                       :: (env_line <$> [("a", "b")]) ++ "oops" :: ["ENV,x=y"])
     = Ret (ClientEvent.mk ("CONNECT" +:+ "," +:+ Itoa 7 +:+ "," +:+ Itoa 2)
              CEConnect 7 2 "" false (list_to_map (reverse [("a", "b")])),
            Some (errorString ("no env prefix in client event line: " +:+ "oops"))).
Proof.
  assert (H : forall p0 : string, String.length p0 = 3%nat \/ String.length p0 = 5%nat ->
              p0 ∉ [CE_string CEConnect; CE_string CEReauth; CE_string CEEstablished;
                    CE_string CEDisconnect; CE_string CEAddress]).
  { intros p0 Hlen Hin. rewrite !elem_of_cons, elem_of_nil in Hin.
    destruct Hin as [->|[->|[->|[->|[->|[]]]]]]; cbn in Hlen; lia. }
  split; [reflexivity|]. split; [apply H; by left|].
  split; [|split].
  - exact (proj1 (NewClientEvent_header_cases ["ENV,x=y"]) _ "ENV" eq_refl
             (or_intror (ex_intro _ "foo=bar" eq_refl)) (H "ENV" (or_introl eq_refl))).
  - exact (proj1 (NewClientEvent_header_cases ["ENV,x=y"]) "bogus" "bogus" eq_refl
             (or_introl eq_refl) (H "bogus" (or_intror eq_refl))).
  - assert (Hkv : Forall (fun kv : string * string => sep_free "=" (fst kv)) [("a", "b")])
      by (repeat constructor).
    exact (proj1 (proj2 (proj2 (NewClientEvent_header_cases ["ENV,x=y"]))
                    CEConnect 7 2 [("a", "b")] "oops" ltac:(lia) ltac:(lia) Hkv eq_refl)
             (or_introl eq_refl)).
Defined.

(** ** What the assembler delivers *)

Lemma scanner_ok_idle (st : scanner) :
  scanner_ok st -> bufKW st = "" -> st = scanner_init.
Proof.
  intros [[Hk Hb]|[Hk Hb]] E; destruct st as [k b]; cbn in *; subst.
  - reflexivity.
  - discriminate.
Qed.

(** After a line that is no continuation line the assembler is idle. *)
Lemma scanLine_closes (st : scanner) (raw : string) :
  scanner_ok st -> is_continuation raw = false ->
  exists sent, scanLine st raw = Ret (sent, scanner_init).
Proof.
  intros Hst Hc. unfold is_continuation in Hc. unfold scanLine.
  destruct (splitEvent_returns raw) as [[[em kw] body] Hs]. rewrite Hs in *.
  rewrite bind_Ret. unfold scanSplit.
  destruct (String.eqb em emSingleLine) eqn:Hem.
  - destruct (upgradeEvent_returns kw body) as [e ->]. rewrite bind_Ret.
    destruct (_ || _) eqn:Hopen.
    + destruct (flushMultilineBuf_returns st Hst) as [f ->]. rewrite bind_Ret. by eexists.
    + apply orb_false_elim in Hopen as [_ Hk]. apply negb_false_iff in Hk.
      apply String.eqb_eq in Hk. rewrite (scanner_ok_idle st Hst Hk). by eexists.
  - cbn [negb andb] in Hc. apply negb_false_iff in Hc. rewrite Hc.
    destruct (flushMultilineBuf_returns st Hst) as [f ->]. by eexists.
Qed.

Lemma scanLine_single_idle (raw : string) :
  is_single_line raw = true ->
  exists e, parseLine raw = Ret e /\ scanLine scanner_init raw = Ret ([e], scanner_init).
Proof.
  intros Hs. unfold is_single_line in Hs. unfold scanLine, parseLine.
  destruct (splitEvent raw) as [[[em kw] body]|]; [|done]. rewrite !bind_Ret.
  apply String.eqb_eq in Hs as ->. unfold scanSplit. cbn [String.eqb emSingleLine].
  destruct (upgradeEvent_returns kw body) as [e He]. rewrite He, bind_Ret.
  exists e. split; [done|]. reflexivity.
Qed.

(** X12: single-line events pass through the assembler one for one.  When
    every line is framed as a single-line event, the delivery lane gets
    exactly one event per line, in the order of the lines, and each is the
    event the factory makes of its line. *)
Theorem eventScanner_single_lines (lines : list string) :
  Forall (fun raw => is_single_line raw = true) lines ->
  exists events,
    eventScanner lines = Ret events
    /\ Forall2 (fun raw e => parseLine raw = Ret e) lines events.
Proof.
  intros Hall.
  assert (G : exists events, scanLines scanner_init lines = Ret (events, scanner_init)
                             /\ Forall2 (fun raw e => parseLine raw = Ret e) lines events).
  { induction Hall as [|raw rest Hraw _ (events & IH & IH2)].
    - by exists [].
    - destruct (scanLine_single_idle raw Hraw) as (e & He & Hscan).
      exists (e :: events). cbn [scanLines]. rewrite Hscan, bind_Ret, IH, bind_Ret.
      split; [done|]. by constructor. }
  destruct G as (events & G & G2). exists events. unfold eventScanner. by rewrite G.
Qed.

Lemma eventScanner_single_lines_witness :
  Forall (fun raw => is_single_line raw = true) ["HOLD:x"; "no separator"; "CLIENT:ADDRESS,1,a,1"]
  /\ exists events,
       eventScanner ["HOLD:x"; "no separator"; "CLIENT:ADDRESS,1,a,1"] = Ret events
       /\ Forall2 (fun raw e => parseLine raw = Ret e)
            ["HOLD:x"; "no separator"; "CLIENT:ADDRESS,1,a,1"] events.
Proof.
  assert (H : Forall (fun raw => is_single_line raw = true)
                ["HOLD:x"; "no separator"; "CLIENT:ADDRESS,1,a,1"]) by (repeat constructor).
  split; [exact H|]. exact (eventScanner_single_lines _ H).
Defined.

Lemma is_continuation_CLIENT (body : string) :
  multiline_subtype body = true -> body <> "ENV,END" ->
  is_continuation ("CLIENT:" +:+ body) = true
  /\ splitEvent ("CLIENT:" +:+ body) = Ret (emClient, clientEventKW, body).
Proof.
  intros Hm Hb. pose proof (splitEvent_CLIENT body) as Hs. rewrite Hm in Hs.
  change (clientEventKW +:+ eventSep +:+ body) with ("CLIENT:" +:+ body) in Hs.
  split; [|done]. unfold is_continuation. rewrite Hs. cbn [negb andb String.eqb emClient].
  apply negb_true_iff. apply String.eqb_neq. intros E.
  apply Hb. by injection E.
Qed.

(** The continuation lines of a block go to the buffer, body by body. *)
Lemma scanLines_block (st : scanner) (bodies : list string) :
  scanner_ok st -> bodies <> [] ->
  Forall (fun b => multiline_subtype b = true /\ b <> "ENV,END") bodies ->
  scanLines st ((fun b => "CLIENT:" +:+ b) <$> bodies)
  = Ret ([], mkScanner clientEventKW (buf st ++ bodies)).
Proof.
  intros Hst Hne Hall. revert st Hst. induction Hall as [|b rest [Hm Hb] Hrest IH]; [done|].
  intros st Hst. cbn [fmap list_fmap scanLines].
  destruct (is_continuation_CLIENT b Hm Hb) as [_ Hs].
  assert (Hline : scanLine st ("CLIENT:" +:+ b)
                  = Ret ([], mkScanner clientEventKW (buf st ++ [b]))).
  { unfold scanLine. rewrite Hs, bind_Ret. unfold scanSplit.
    cbn [String.eqb emClient emSingleLine].
    replace (String.eqb ("CLIENT:" +:+ b) emClient) with false.
    2: { symmetry. apply String.eqb_neq. intros E. apply Hb. by injection E. }
    destruct Hst as [[-> _]|[-> _]]; reflexivity. }
  rewrite Hline, bind_Ret. destruct rest as [|b' rest'].
  - cbn [fmap list_fmap scanLines]. by rewrite bind_Ret.
  - rewrite IH; [|done|right; split; [done|apply app_singleton_ne_nil]].
    rewrite bind_Ret. cbn [buf app]. by rewrite <- app_assoc.
Qed.

(** X13: a complete multi-line block becomes one event, sent when its
    terminator arrives.  For CLIENT lines whose bodies begin with one of the
    multi-line prefixes, followed by the terminator CLIENT:ENV,END, the
    delivery lane gets exactly one event: the one the multi-line factory
    makes of the bodies, in their order, without the terminator. *)
Theorem eventScanner_block (bodies : list string) :
  bodies <> [] ->
  Forall (fun b => multiline_subtype b = true /\ b <> "ENV,END") bodies ->
  exists e,
    upgradeMultilineEvent clientEventKW bodies = Ret e
    /\ eventScanner (((fun b => "CLIENT:" +:+ b) <$> bodies) ++ ["CLIENT:ENV,END"]) = Ret [e].
Proof.
  intros Hne Hall.
  destruct (upgradeMultilineEvent_returns clientEventKW bodies) as [e He]; [done|].
  exists e. split; [done|]. unfold eventScanner.
  rewrite scanLines_app, (scanLines_block scanner_init bodies scanner_init_ok Hne Hall).
  rewrite bind_Ret. cbn [scanLines buf scanner_init app].
  assert (Hend : scanLine (mkScanner clientEventKW bodies) "CLIENT:ENV,END"
                 = Ret ([e], scanner_init)).
  { unfold scanLine. change (splitEvent "CLIENT:ENV,END")
      with (Ret (emClient, clientEventKW, "ENV,END") : outcome _).
    rewrite bind_Ret. unfold scanSplit, flushMultilineBuf.
    cbn [String.eqb emClient emSingleLine bufKW buf]. by rewrite He. }
  by rewrite Hend.
Qed.

Lemma eventScanner_block_witness :
  ["CONNECT,7,2"; "ENV,foo=bar"] <> []
  /\ Forall (fun b => multiline_subtype b = true /\ b <> "ENV,END") ["CONNECT,7,2"; "ENV,foo=bar"]
  /\ exists e,
       upgradeMultilineEvent clientEventKW ["CONNECT,7,2"; "ENV,foo=bar"] = Ret e
       /\ eventScanner (((fun b => "CLIENT:" +:+ b) <$> ["CONNECT,7,2"; "ENV,foo=bar"])
                          ++ ["CLIENT:ENV,END"]) = Ret [e].
Proof.
  assert (H : Forall (fun b => multiline_subtype b = true /\ b <> "ENV,END")
                ["CONNECT,7,2"; "ENV,foo=bar"]) by (repeat constructor; discriminate).
  split; [done|]. split; [exact H|].
  exact (eventScanner_block ["CONNECT,7,2"; "ENV,foo=bar"] ltac:(done) H).
Defined.

Lemma flushMultilineBuf_shape (st : scanner) :
  scanner_ok st ->
  exists e, flushMultilineBuf st = Ret ([e], scanner_init) /\ factory_shape e.
Proof.
  intros Hst. destruct (flushMultilineBuf_returns st Hst) as [e He]. exists e.
  split; [done|]. unfold flushMultilineBuf in He.
  apply bind_Ret_inv in He as (e' & He' & [= <-]).
  by apply upgradeMultilineEvent_shape in He'.
Qed.

Ltac shapes := repeat (apply List.Forall_cons; [assumption|]); apply List.Forall_nil.

(** One iteration sends at most one event, and one more when it finds a
    buffer open and leaves none. *)
Lemma scanLine_bounds (st : scanner) (raw : string) :
  scanner_ok st ->
  exists sent st',
    scanLine st raw = Ret (sent, st') /\ scanner_ok st'
    /\ Forall factory_shape sent
    /\ (length sent + open_buffers st' <= 1 + open_buffers st)%nat.
Proof.
  intros Hst. unfold scanLine.
  destruct (splitEvent_returns raw) as [[[em kw] body] Hs]. rewrite Hs, bind_Ret.
  unfold scanSplit.
  destruct (String.eqb em emSingleLine) eqn:Hem.
  - destruct (upgradeEvent_returns kw body) as [e He]. rewrite He, bind_Ret.
    apply upgradeEvent_shape in He.
    destruct (_ || _) eqn:Hopen.
    + destruct (flushMultilineBuf_shape st Hst) as (f & -> & Hf). rewrite bind_Ret.
      eexists _, _. split; [done|]. split; [apply scanner_init_ok|].
      split; [shapes|].
      apply orb_true_iff in Hopen as [Hb|Hk].
      * apply bool_decide_eq_true in Hb. destruct Hst as [[_ Hnil]|[Hk _]].
        { rewrite Hnil in Hb. cbn in Hb. lia. }
        unfold open_buffers. rewrite Hk. cbn. lia.
      * unfold open_buffers. apply negb_true_iff in Hk. rewrite Hk. cbn. lia.
    + eexists _, _. split; [done|]. split; [done|]. split; [shapes|].
      cbn [length]. lia.
  - destruct (splitEvent_markers _ _ _ _ Hs) as [->|[-> ->]]; [done|].
    destruct (String.eqb raw emClient).
    { destruct (flushMultilineBuf_shape st Hst) as (f & -> & Hf).
      eexists _, _. split; [done|]. split; [apply scanner_init_ok|].
      split; [shapes|]. cbn. lia. }
    destruct Hst as [[Hk Hb]|[Hk Hb]]; rewrite Hk; cbn -[open_buffers].
    + eexists _, _. split; [done|].
      split; [right; split; [done|apply app_singleton_ne_nil]|].
      split; [constructor|]. unfold open_buffers. rewrite Hk. cbn. lia.
    + eexists _, _. split; [done|].
      split; [right; split; [done|apply app_singleton_ne_nil]|].
      split; [constructor|]. unfold open_buffers. rewrite Hk. cbn. lia.
Qed.

Lemma scanLines_bounds (st : scanner) (lines : list string) :
  scanner_ok st ->
  exists sent st',
    scanLines st lines = Ret (sent, st') /\ scanner_ok st'
    /\ Forall factory_shape sent
    /\ (length sent + open_buffers st' <= length lines + open_buffers st)%nat.
Proof.
  revert st. induction lines as [|raw rest IH]; intros st Hst; cbn [scanLines].
  - exists [], st. repeat split; [done|constructor|cbn; lia].
  - destruct (scanLine_bounds st raw Hst) as (s1 & st1 & -> & Hst1 & Hs1 & Hn1).
    rewrite bind_Ret.
    destruct (IH st1 Hst1) as (s2 & st2 & -> & Hst2 & Hs2 & Hn2). rewrite bind_Ret.
    exists (s1 ++ s2), st2. repeat split; [done|by apply Forall_app|].
    rewrite length_app. cbn [length]. lia.
Qed.

(** X14: the assembler never delivers more events than it has read lines,
    and everything it delivers comes out of the event factory: an event that
    carries its own data, or an [InvalidEvent] that wraps such an event
    together with a non-nil error. *)
Theorem eventScanner_delivery (lines : list string) :
  exists events,
    eventScanner lines = Ret events
    /\ (length events <= length lines)%nat
    /\ Forall factory_shape events.
Proof.
  destruct (scanLines_bounds scanner_init lines scanner_init_ok)
    as (sent & st & Hscan & _ & Hshape & Hn).
  exists sent. unfold eventScanner. rewrite Hscan. split; [done|]. split; [|done].
  change (open_buffers scanner_init) with 0%nat in Hn. lia.
Qed.

(** X15: after any line that is not a continuation line (a single-line
    event or the terminator) the assembler is idle again: what it delivers
    for the lines that follow does not depend on the lines before, and the
    delivery for the whole sequence is the two deliveries one after the
    other. *)
Theorem eventScanner_resumes (before after : list string) (raw : string) :
  is_continuation raw = false ->
  exists s1 s2,
    eventScanner (before ++ [raw]) = Ret s1
    /\ eventScanner after = Ret s2
    /\ eventScanner ((before ++ [raw]) ++ after) = Ret (s1 ++ s2).
Proof.
  intros Hraw.
  destruct (scanLines_ok scanner_init before scanner_init_ok) as (a & st & Ha & Hst).
  destruct (scanLine_closes st raw Hst Hraw) as (b & Hb).
  destruct (scanLines_ok scanner_init after scanner_init_ok) as (s2 & st2 & Hs2 & _).
  assert (H1 : scanLines scanner_init (before ++ [raw]) = Ret (a ++ b, scanner_init)).
  { rewrite scanLines_app, Ha, bind_Ret. cbn [scanLines]. rewrite Hb, !bind_Ret.
    cbn [mret outcome_ret mbind outcome_bind]. by rewrite app_nil_r. }
  exists (a ++ b), s2. unfold eventScanner. split; [by rewrite H1|].
  split; [by rewrite Hs2|]. by rewrite scanLines_app, H1, bind_Ret, Hs2.
Qed.

Lemma eventScanner_resumes_witness :
  is_continuation "CLIENT:ENV,END" = false
  /\ exists s1 s2,
       eventScanner (["CLIENT:CONNECT,1,2"] ++ ["CLIENT:ENV,END"]) = Ret s1
       /\ eventScanner ["CLIENT:ENV,a=b"] = Ret s2
       /\ eventScanner ((["CLIENT:CONNECT,1,2"] ++ ["CLIENT:ENV,END"]) ++ ["CLIENT:ENV,a=b"])
          = Ret (s1 ++ s2).
Proof.
  split; [reflexivity|].
  exact (eventScanner_resumes ["CLIENT:CONNECT,1,2"] ["CLIENT:ENV,a=b"] "CLIENT:ENV,END"
           ltac:(reflexivity)).
Defined.

(** ** The command channel *)

Lemma str_from_prefix (p r : string) : str_from (p +:+ r) (String.length p) = Ret r.
Proof.
  unfold str_from. rewrite decide_True by (rewrite length_append; lia).
  by rewrite substring_app_tail.
Qed.

Lemma HasPrefix_cut (s p : string) : HasPrefix s p = true -> exists r, s = p +:+ r.
Proof. intros H. eexists. by apply HasPrefix_app. Qed.

Lemma append_inj_r (p r r' : string) : p +:+ r = p +:+ r' -> r = r'.
Proof.
  induction p as [|a p IH]; [done|]. rewrite !append_cons. intros [= H]. by apply IH.
Qed.

Lemma readCommandResult_parts (c : MgmtClient) :
  exists result err,
    readCommandResult c = Ret ((result, err), mkClient (wr c) (tail (rawReplyCh c)))
    /\ (err = None -> head (rawReplyCh c) = Some (successPrefix +:+ result))
    /\ (forall r, head (rawReplyCh c) = Some (successPrefix +:+ r) -> err = None /\ result = r)
    /\ (err <> None -> result = "")
    /\ (forall message, head (rawReplyCh c) = Some (errorPrefix +:+ message) ->
        err = Some (NewOVpnError message)).
Proof.
  unfold readCommandResult. destruct c as [w [|reply rest]]; cbn [rawReplyCh wr tail head].
  { eexists _, _. split; [reflexivity|]. by repeat (split; [done|]). }
  destruct (HasPrefix reply successPrefix) eqn:Hs.
  { destruct (HasPrefix_cut _ _ Hs) as [r ->]. rewrite str_from_prefix, bind_Ret.
    eexists _, _. split; [reflexivity|]. split; [done|].
    split; [intros r' [= E]; by apply append_inj_r in E|]. split; [done|].
    intros message [= E]. }
  assert (Hno : forall r, Some reply = Some (successPrefix +:+ r) -> False).
  { intros r [= E]. rewrite E, HasPrefix_app_l in Hs. discriminate Hs. }
  destruct (HasPrefix reply errorPrefix) eqn:He.
  { destruct (HasPrefix_cut _ _ He) as [r ->]. rewrite str_from_prefix, bind_Ret.
    eexists _, _. split; [reflexivity|]. split; [done|].
    split; [intros r' E; by apply Hno in E|]. split; [done|].
    intros message [= E]. apply append_inj_r in E. by rewrite E. }
  eexists _, _. split; [reflexivity|]. split; [done|].
  split; [intros r' E; by apply Hno in E|]. split; [done|].
  intros message [= E]. rewrite E, HasPrefix_app_l in He. discriminate He.
Qed.


Lemma read_payload_END (payload rest acc : list string) :
  endMessage ∉ payload ->
  read_payload (payload ++ endMessage :: rest) acc = ((acc ++ payload, None), rest).
Proof.
  revert acc. induction payload as [|line more IH]; intros acc Hnot; cbn [app read_payload].
  - by rewrite app_nil_r.
  - apply not_elem_of_cons in Hnot as [Hline Hmore].
    rewrite (proj2 (String.eqb_neq line endMessage)) by done.
    rewrite IH by done. by rewrite <- app_assoc.
Qed.

Lemma read_payload_closed (payload acc : list string) :
  endMessage ∉ payload ->
  read_payload payload acc
  = ((acc ++ payload, Some (errorString "connection closed before END recieved")), []).
Proof.
  revert acc. induction payload as [|line more IH]; intros acc Hnot; cbn [read_payload].
  - by rewrite app_nil_r.
  - apply not_elem_of_cons in Hnot as [Hline Hmore].
    rewrite (proj2 (String.eqb_neq line endMessage)) by done.
    rewrite IH by done. by rewrite <- app_assoc.
Qed.

(** X17: [readCommandResponsePayload] returns the lines before the first
    line END, in order and without it, and leaves the lines after it on the
    reply lane.  When the lane closes before any END, it returns all the
    lines it has read together with an error. *)
Theorem readCommandResponsePayload_until_END (c : MgmtClient) (payload : list string) :
  endMessage ∉ payload ->
  (forall rest, rawReplyCh c = payload ++ endMessage :: rest ->
     readCommandResponsePayload c = ((payload, None), mkClient (wr c) rest))
  /\ (rawReplyCh c = payload ->
      readCommandResponsePayload c
      = ((payload, Some (errorString "connection closed before END recieved")),
         mkClient (wr c) [])).
Proof.
  intros Hnot. unfold readCommandResponsePayload. split.
  - intros rest ->. by rewrite read_payload_END.
  - intros ->. by rewrite read_payload_closed.
Qed.

Lemma readCommandResponsePayload_until_END_witness :
  (endMessage ∉ ["a"; "b"])
  /\ readCommandResponsePayload (mkClient (mkWriter [] None) ["a"; "b"; "END"; "c"; "END"])
     = ((["a"; "b"], None), mkClient (mkWriter [] None) ["c"; "END"]).
Proof.
  assert (H : endMessage ∉ ["a"; "b"]).
  { intros H. apply elem_of_cons in H as [H|H]; [discriminate H|].
    apply elem_of_cons in H as [H|H]; [discriminate H|]. by apply elem_of_nil in H. }
  split; [exact H|].
  exact (proj1 (readCommandResponsePayload_until_END
                  (mkClient (mkWriter [] None) ["a"; "b"; "END"; "c"; "END"]) ["a"; "b"] H)
           ["c"; "END"] eq_refl).
Defined.

Lemma simpleCommand_broken (cmd : string) (c : MgmtClient) (e : error) :
  broken (wr c) = Some e -> simpleCommand cmd c = Ret (("", Some e), c).
Proof.
  intros Hb. unfold simpleCommand, sendCommand, Write. rewrite Hb. by destruct c.
Qed.

Lemma simpleCommand_exchange (cmd : string) (c : MgmtClient) :
  broken (wr c) = None ->
  exists result err,
    simpleCommand cmd c = Ret ((result, err), exchanged cmd c)
    /\ (err = None -> head (rawReplyCh c) = Some (successPrefix +:+ result))
    /\ (forall r, head (rawReplyCh c) = Some (successPrefix +:+ r) -> err = None /\ result = r)
    /\ (err <> None -> result = "").
Proof.
  intros Hb. unfold simpleCommand, sendCommand, Write. rewrite Hb.
  set (c1 := mkClient _ _).
  destruct (readCommandResult_parts c1) as (result & err & Hr & Hok & Hs & Hres & _).
  exists result, err. by rewrite Hr.
Qed.

(** X18: the commands that switch something on the daemon (hold release,
    log, state and echo events) write exactly one line, the command text
    followed by a line feed, then take exactly one line off the reply lane,
    and return nil exactly when that line begins with "SUCCESS: ".  On a
    connection whose writes fail they return the write error, write nothing
    and take nothing off the reply lane. *)
Theorem commands_write_one_read_one (k : command) (c : MgmtClient) :
  match broken (wr c) with
  | Some e => run_command k c = Ret (Some e, c)
  | None =>
      exists err,
        run_command k c = Ret (err, exchanged (command_text k) c)
        /\ (err = None <->
            exists reply, head (rawReplyCh c) = Some reply
                          /\ HasPrefix reply successPrefix = true)
  end.
Proof.
  destruct (broken (wr c)) as [e|] eqn:Hb.
  - destruct k as [|[]|[]|[]]; cbn [run_command];
      unfold HoldRelease, SetLogEvents, SetStateEvents, SetEchoEvents;
      by rewrite (simpleCommand_broken _ c e Hb).
  - assert (G : forall cmd, exists err,
               ('((_, err), c') ← simpleCommand cmd c; mret (err, c'))
               = Ret (err, exchanged cmd c)
               /\ (err = None <->
                   exists reply, head (rawReplyCh c) = Some reply
                                 /\ HasPrefix reply successPrefix = true)).
    { intros cmd.
      destruct (simpleCommand_exchange cmd c Hb) as (result & err & -> & Hok & Hs & Hres).
      exists err. split; [done|]. split.
      - intros E. eexists. split; [by apply Hok|apply HasPrefix_app_l].
      - intros (reply & Hh & Hp). apply HasPrefix_cut in Hp as [r ->].
        by apply Hs in Hh as [-> _]. }
    destruct k as [|[]|[]|[]]; cbn [run_command command_text]; apply G.
Qed.

Lemma simpleCommand_success (cmd result : string) (c : MgmtClient) (rest : list string) :
  broken (wr c) = None -> rawReplyCh c = (successPrefix +:+ result) :: rest ->
  simpleCommand cmd c = Ret ((result, None), exchanged cmd c).
Proof.
  intros Hb Hl.
  destruct (simpleCommand_exchange cmd c Hb) as (r & err & -> & _ & Hs & _).
  rewrite Hl in Hs. by destruct (Hs result eq_refl) as [-> ->].
Qed.

(** X19: [VerbosityLevel] reads back what the daemon reports.  On a working
    connection, the reply "SUCCESS: verb=" followed by the decimal text of a
    level gives that level and no error.  A success reply that does not
    begin with "verb=" gives level 0 and a nil error as well, so a reply the
    client did not understand is not told apart from level 0. *)
Theorem VerbosityLevel_reply (c : MgmtClient) (reply : string) (rest : list string) :
  broken (wr c) = None -> rawReplyCh c = reply :: rest ->
  (forall n, - 2 ^ 63 <= n < 2 ^ 63 -> reply = "SUCCESS: verb=" +:+ Itoa n ->
     VerbosityLevel c = Ret ((n, None), exchanged "verb" c))
  /\ (forall r, reply = "SUCCESS: " +:+ r -> HasPrefix r "verb=" = false ->
      VerbosityLevel c = Ret ((0, None), exchanged "verb" c)).
Proof.
  intros Hb Hl. unfold VerbosityLevel. split.
  - intros n Hn ->.
    rewrite (simpleCommand_success "verb" ("verb=" +:+ Itoa n) c rest Hb Hl), bind_Ret.
    rewrite HasPrefix_app_l. cbn [negb]. rewrite str_from_prefix, bind_Ret.
    unfold Atoi. by rewrite parse_int_Itoa.
  - intros r -> Hr.
    rewrite (simpleCommand_success "verb" r c rest Hb Hl), bind_Ret. by rewrite Hr.
Qed.

Lemma VerbosityLevel_reply_witness :
  broken (wr (mkClient (mkWriter [] None) ["SUCCESS: verb=" +:+ Itoa 4; "x"])) = None
  /\ - 2 ^ 63 <= 4 < 2 ^ 63
  /\ VerbosityLevel (mkClient (mkWriter [] None) ["SUCCESS: verb=" +:+ Itoa 4; "x"])
     = Ret ((4, None), mkClient (mkWriter ["verb" +:+ newlineSep] None) ["x"]).
Proof.
  split; [reflexivity|]. split; [lia|].
  exact (proj1 (VerbosityLevel_reply
                  (mkClient (mkWriter [] None) ["SUCCESS: verb=" +:+ Itoa 4; "x"])
                  _ _ eq_refl eq_refl) 4 ltac:(lia) eq_refl).
Defined.

Lemma read_payload_acc (replies acc : list string) :
  (length acc <= length (fst (fst (read_payload replies acc))))%nat.
Proof.
  revert acc. induction replies as [|line rest IH]; intros acc; cbn [read_payload].
  - done.
  - destruct (String.eqb line endMessage); [done|].
    etrans; [|apply IH]. rewrite length_app. lia.
Qed.

(** The payload is one line and there is no error exactly when the second
    line on the lane is the first END. *)
Lemma read_payload_single (replies : list string) (payload : list string) (rest : list string) :
  read_payload replies [] = ((payload, None), rest) -> length payload = 1%nat ->
  exists line, line <> endMessage /\ payload = [line] /\ replies = line :: endMessage :: rest.
Proof.
  destruct replies as [|l1 replies]; cbn [read_payload]; [done|].
  destruct (String.eqb_spec l1 endMessage) as [->|H1].
  { by intros [= <- <-]. }
  cbn [app]. destruct replies as [|l2 replies]; cbn [read_payload]; [done|].
  destruct (String.eqb_spec l2 endMessage) as [->|H2].
  { intros [= <- <-] _. by exists l1. }
  cbn [app]. intros H Hlen. pose proof (read_payload_acc replies [l1; l2]) as Hacc.
  rewrite H in Hacc. cbn in Hacc. lia.
Qed.

(** X20: [LatestState] never panics and returns a nil pointer only
    together with an error.  The pointer is non-nil exactly when the command
    could be written and the reply is one line followed by END; the event it
    points to is then the one [NewStateEvent] makes of that line, and the
    error is the one [NewStateEvent] returns, so a non-nil event can come
    with a non-nil error. *)
Theorem LatestState_pointer (c : MgmtClient) :
  exists s err c',
    LatestState c = Ret ((s, err), c')
    /\ (s = None -> err <> None)
    /\ (s <> None <->
        broken (wr c) = None
        /\ exists line rest, line <> endMessage /\ rawReplyCh c = line :: endMessage :: rest)
    /\ (forall e, s = Some e ->
        exists line, head (rawReplyCh c) = Some line /\ NewStateEvent line = Ret (e, err)).
Proof.
  unfold LatestState, sendCommand, Write.
  destruct (broken (wr c)) as [e|] eqn:Hb.
  { eexists _, _, _. split; [reflexivity|]. split; [done|]. split; [|done].
    split; [done|]. by intros [? _]. }
  unfold readCommandResponsePayload. cbn [rawReplyCh wr].
  destruct (read_payload (rawReplyCh c) []) as [[payload err] rest] eqn:Hp.
  destruct err as [e|].
  { eexists _, _, _. split; [reflexivity|]. split; [done|]. split; [|done].
    split; [done|]. intros (_ & line & rest' & Hline & Hl). rewrite Hl in Hp.
    cbn [read_payload] in Hp. rewrite (proj2 (String.eqb_neq line endMessage)) in Hp by done.
    cbn in Hp. discriminate Hp. }
  destruct (Nat.eqb_spec (length payload) 1) as [Hlen|Hlen]; cbn [negb].
  - destruct (read_payload_single _ _ _ Hp Hlen) as (line & Hline & -> & Hl).
    cbn [at_index]. change (at_index [line] 0) with (Ret line : outcome string).
    rewrite bind_Ret. destruct (NewStateEvent_returns line) as [[s err] Hs].
    rewrite Hs, bind_Ret. eexists _, _, _. split; [reflexivity|]. split; [done|].
    split; [split; [intros _; split; [done|by exists line, rest]|done]|].
    intros e' [= <-]. exists line. by rewrite Hl.
  - eexists _, _, _. split; [reflexivity|]. split; [done|]. split; [|done].
    split; [done|]. intros (_ & line & rest' & Hline & Hl). rewrite Hl in Hp.
    cbn [read_payload] in Hp. rewrite (proj2 (String.eqb_neq line endMessage)) in Hp by done.
    cbn in Hp. injection Hp as <- <-. by destruct Hlen.
Qed.

(** X27: one tick of the poller on a working connection.  The command
    "status 3" is written, the reply is read up to its END line and no
    further, and the snapshot that [NewStatus3Event] makes of the lines
    before it is sent: as a pointer to the snapshot when the parse gives no
    error, and otherwise as an [InvalidEvent] that wraps the pointer to the
    partial snapshot together with the error. *)
Theorem generateStatus3Event_reply (c : MgmtClient) (payload rest : list string)
    (se : Status3Event.t) (err : option error) :
  broken (wr c) = None -> endMessage ∉ payload ->
  rawReplyCh c = payload ++ endMessage :: rest ->
  NewStatus3Event payload = Ret (se, err) ->
  generateStatus3Event c
  = Ret (match err with
         | None => AStatus3EventPtr (Some se)
         | Some _ => AnInvalidEvent (Some (AStatus3EventPtr (Some se))) err
         end,
         mkClient (mkWriter (written (wr c) ++ ["status 3" +:+ newlineSep]) None) rest).
Proof.
  intros Hb Hnot Hl Hse.
  unfold generateStatus3Event, LatestStatus3, sendCommand, Write. rewrite Hb.
  unfold readCommandResponsePayload. cbn [rawReplyCh wr]. rewrite Hl, read_payload_END by done.
  cbn [app]. rewrite Hse, !bind_Ret. by destruct err.
Qed.

Lemma generateStatus3Event_reply_witness :
  exists se,
    NewStatus3Event ["TITLE" +:+ status3FieldSep +:+ "OpenVPN"] = Ret (se, None)
    /\ generateStatus3Event
         (mkClient (mkWriter [] None) ["TITLE" +:+ status3FieldSep +:+ "OpenVPN"; "END"; "x"])
       = Ret (AStatus3EventPtr (Some se),
              mkClient (mkWriter ["status 3" +:+ newlineSep] None) ["x"]).
Proof.
  destruct (NewStatus3Event ["TITLE" +:+ status3FieldSep +:+ "OpenVPN"])
    as [[se [e|]]|] eqn:H; try (vm_compute in H; discriminate H).
  exists se. split; [reflexivity|].
  apply (generateStatus3Event_reply
           (mkClient (mkWriter [] None) ["TITLE" +:+ status3FieldSep +:+ "OpenVPN"; "END"; "x"])
           ["TITLE" +:+ status3FieldSep +:+ "OpenVPN"] ["x"] se None); [reflexivity| |reflexivity|exact H].
  intros Hin. apply elem_of_cons in Hin as [Hin|Hin]; [discriminate Hin|].
  by apply elem_of_nil in Hin.
Defined.

(** ** The lines of a status-3 payload *)

Lemma Split_type_fields (line : string) :
  Split line status3FieldSep = line_type line :: line_fields line.
Proof.
  unfold line_type, line_fields.
  pose proof (SplitN_nonempty line status3FieldSep (-1) ltac:(done)) as H.
  fold (Split line status3FieldSep) in H.
  destruct (Split line status3FieldSep); [cbn in H; lia|done].
Qed.

(** The loop body with the line already cut. *)
Lemma status3_line_cut (se : Status3Event.t) (line : string) :
  status3_line se line =
  let lineType := line_type line in
  let lineFields := line_fields line in
  if String.eqb lineType status3TitleKW then
    mret (Status3Event.set_title (Join lineFields status3FieldSep) se, None)
  else if String.eqb lineType status3TimeKW then
    rawHumanTS ← at_index lineFields 0;
    rawTS ← at_index lineFields 1;
    let '(ts, err) := ParseInt rawTS in
    mret (Status3Event.set_time rawHumanTS rawTS ts se, err)
  else if String.eqb lineType status3HeaderKW then
    headerType ← at_index lineFields 0;
    cols ← slice_from lineFields 1;
    mret (Status3Event.set_headers (<[headerType := cols]> (Status3Event.headers se)) se, None)
  else if String.eqb lineType status3ClientListKW then
    let c := client_row lineFields in
    if decide (0 < length (Status3Client.ParsingErrors c))%nat
    then mret (Status3Event.set_invalidClients (Status3Event.invalidClients se ++ [c]) se, None)
    else mret (Status3Event.set_clients (Status3Event.clients se ++ [c]) se, None)
  else if String.eqb lineType status3RoutingTableKW then
    let c := route_row lineFields in
    if decide (0 < length (Status3Route.ParsingErrors c))%nat
    then mret (Status3Event.set_invalidRoutes (Status3Event.invalidRoutes se ++ [c]) se, None)
    else mret (Status3Event.set_routes (Status3Event.routes se ++ [c]) se, None)
  else
    mret (Status3Event.set_extra (<[lineType := lineFields]> (Status3Event.extra se)) se, None).
Proof.
  unfold status3_line. rewrite Split_type_fields.
  change (at_index (line_type line :: line_fields line) 0) with (Ret (line_type line)).
  change (slice_from (line_type line :: line_fields line) 1) with (Ret (line_fields line)).
  rewrite !bind_Ret. cbv zeta.
  by rewrite NewStatus3Client_eq, NewStatus3Route_eq, !bind_Ret.
Qed.

Lemma status3_line_returns (se : Status3Event.t) (line : string) :
  line_complete line = true -> returns (status3_line se line).
Proof.
  unfold line_complete. rewrite status3_line_cut. cbv zeta. intros H.
  destruct (String.eqb (line_type line) status3TitleKW); [apply returns_Ret|].
  destruct (String.eqb (line_type line) status3TimeKW).
  { apply bool_decide_eq_true in H.
    destruct (line_fields line) as [|h [|r more]]; [cbn in H; lia|cbn in H; lia|].
    change (at_index (h :: r :: more) 0) with (Ret h).
    change (at_index (h :: r :: more) 1) with (Ret r). rewrite !bind_Ret.
    destruct (ParseInt r). apply returns_Ret. }
  destruct (String.eqb (line_type line) status3HeaderKW).
  { apply bool_decide_eq_true in H.
    destruct (line_fields line) as [|h more]; [cbn in H; lia|].
    change (at_index (h :: more) 0) with (Ret h).
    change (slice_from (h :: more) 1) with (Ret more). rewrite !bind_Ret.
    apply returns_Ret. }
  destruct (String.eqb (line_type line) status3ClientListKW).
  { destruct (decide _); apply returns_Ret. }
  destruct (String.eqb (line_type line) status3RoutingTableKW).
  { destruct (decide _); apply returns_Ret. }
  apply returns_Ret.
Qed.

Lemma status3_line_panics (se : Status3Event.t) (line : string) :
  line_complete line = false -> status3_line se line = Panics IndexOutOfRange.
Proof.
  unfold line_complete. rewrite status3_line_cut. cbv zeta. intros H.
  destruct (String.eqb_spec (line_type line) status3TimeKW) as [E|_].
  { rewrite E. cbn [String.eqb Ascii.eqb status3TimeKW status3TitleKW Bool.eqb].
    apply bool_decide_eq_false in H.
    destruct (line_fields line) as [|h [|r more]]; [done|done|cbn in H; lia]. }
  destruct (String.eqb_spec (line_type line) status3HeaderKW) as [E|_]; [|done].
  rewrite E. cbn [String.eqb Ascii.eqb status3HeaderKW status3TitleKW status3TimeKW Bool.eqb].
  apply bool_decide_eq_false in H.
  destruct (line_fields line) as [|h more]; [done|cbn in H; lia].
Qed.

Lemma status3_lines_app (se : Status3Event.t) (l1 l2 : list string) :
  status3_lines se (l1 ++ l2) =
  '(se1, err) ← status3_lines se l1;
  if err is Some _ then mret (se1, err) else status3_lines se1 l2.
Proof.
  revert se. induction l1 as [|line rest IH]; intros se; cbn [app status3_lines].
  - by rewrite bind_Ret.
  - destruct (status3_line se line) as [[se1 [e|]]|]; [by rewrite !bind_Ret| |done].
    rewrite !bind_Ret. apply IH.
Qed.

Lemma status3_lines_returns (se : Status3Event.t) (payload : list string) :
  Forall (fun line => line_complete line = true) payload -> returns (status3_lines se payload).
Proof.
  intros Hall. revert se. induction Hall as [|line rest Hline _ IH]; intros se.
  - apply returns_Ret.
  - cbn [status3_lines]. destruct (status3_line_returns se line Hline) as [[se1 [e|]] ->];
      rewrite bind_Ret; [apply returns_Ret|apply IH].
Qed.

(** X21: [NewStatus3Event] panics exactly on a line that is cut short.  A
    payload in which every TIME line has its two fields and every HEADER
    line its first is parsed without a panic.  A TIME line with fewer than
    two fields, or a HEADER line with none, makes it panic with an index
    out of range as soon as the lines before it have been read without an
    error, whatever follows. *)
Theorem NewStatus3Event_panics_exactly (good rest : list string) (bad : string) :
  Forall (fun line => line_complete line = true) good ->
  returns (NewStatus3Event good)
  /\ (line_complete bad = false ->
      (exists se, NewStatus3Event good = Ret (se, None)) ->
      NewStatus3Event (good ++ bad :: rest) = Panics IndexOutOfRange).
Proof.
  intros Hgood. split; [by apply status3_lines_returns|].
  intros Hbad [se Hse]. unfold NewStatus3Event in *.
  rewrite status3_lines_app, Hse, bind_Ret. cbn [status3_lines].
  by rewrite status3_line_panics.
Qed.

Lemma NewStatus3Event_panics_exactly_witness :
  Forall (fun line => line_complete line = true) ["TITLE" +:+ status3FieldSep +:+ "OpenVPN"]
  /\ line_complete ("HEADER") = false
  /\ NewStatus3Event (["TITLE" +:+ status3FieldSep +:+ "OpenVPN"] ++ "HEADER" :: ["x"])
     = Panics IndexOutOfRange.
Proof.
  assert (H : Forall (fun line => line_complete line = true)
                ["TITLE" +:+ status3FieldSep +:+ "OpenVPN"]) by (repeat constructor).
  split; [exact H|]. split; [reflexivity|].
  apply (proj2 (NewStatus3Event_panics_exactly _ ["x"] "HEADER" H)); [reflexivity|].
  eexists. vm_compute. reflexivity.
Defined.

Lemma status3_line_error (se se' : Status3Event.t) (line : string) (e : error) :
  status3_line se line = Ret (se', Some e) ->
  line_type line = status3TimeKW
  /\ exists human raw more,
       line_fields line = human :: raw :: more
       /\ ParseInt raw = (Status3Event.ts se', Some e)
       /\ se' = Status3Event.set_time human raw (Status3Event.ts se') se.
Proof.
  rewrite status3_line_cut. cbv zeta.
  destruct (String.eqb (line_type line) status3TitleKW); [done|].
  destruct (String.eqb_spec (line_type line) status3TimeKW) as [E|_].
  { intros H. split; [done|].
    destruct (line_fields line) as [|h [|r more]]; [done|done|].
    change (at_index (h :: r :: more) 0) with (Ret h) in H.
    change (at_index (h :: r :: more) 1) with (Ret r) in H. rewrite !bind_Ret in H.
    destruct (ParseInt r) as [ts err] eqn:Hp. injection H as <- ->.
    by exists h, r, more. }
  destruct (String.eqb (line_type line) status3HeaderKW).
  { intros H. apply bind_Ret_inv in H as (h & _ & H). by apply bind_Ret_inv in H as (r & _ & H). }
  destruct (String.eqb (line_type line) status3ClientListKW); [by destruct (decide _)|].
  destruct (String.eqb (line_type line) status3RoutingTableKW); [by destruct (decide _)|].
  done.
Qed.

(** X22: the only error [NewStatus3Event] returns is the one of a TIME
    line whose second field is no integer.  It then stops at that line: the
    snapshot it returns is the one of the lines before, with the two time
    fields of that line and the value [ParseInt] gave, and the lines after
    are not read. *)
Theorem NewStatus3Event_error_is_time (payload : list string) (se : Status3Event.t) (e : error) :
  NewStatus3Event payload = Ret (se, Some e) ->
  exists read line rest before human raw more,
    payload = read ++ line :: rest
    /\ NewStatus3Event read = Ret (before, None)
    /\ Split line status3FieldSep = status3TimeKW :: human :: raw :: more
    /\ ParseInt raw = (Status3Event.ts se, Some e)
    /\ se = Status3Event.set_time human raw (Status3Event.ts se) before.
Proof.
  unfold NewStatus3Event. generalize Status3Event.empty as se0.
  assert (G : forall payload se0,
             status3_lines se0 payload = Ret (se, Some e) ->
             exists read line rest before,
               payload = read ++ line :: rest
               /\ status3_lines se0 read = Ret (before, None)
               /\ status3_line before line = Ret (se, Some e)).
  { clear payload. induction payload as [|line rest IH]; intros se0; cbn [status3_lines]; [done|].
    intros H. apply bind_Ret_inv in H as ([se1 [e1|]] & Hl & H).
    - injection H as <- <-. by exists [], line, rest, se0.
    - destruct (IH _ H) as (read & l & r & before & -> & Hread & Hline).
      exists (line :: read), l, r, before. split; [done|]. split; [|done].
      cbn [status3_lines]. by rewrite Hl, bind_Ret. }
  intros se0 H. destruct (G _ _ H) as (read & line & rest & before & -> & Hread & Hline).
  apply status3_line_error in Hline as (Hty & human & raw & more & Hf & Hp & Hse).
  exists read, line, rest, before, human, raw, more.
  do 2 (split; [done|]). split; [by rewrite Split_type_fields, Hty, Hf|]. done.
Qed.

Lemma NewStatus3Event_error_is_time_witness :
  exists se e read line rest before human raw more,
    NewStatus3Event ["TIME" +:+ status3FieldSep +:+ "now" +:+ status3FieldSep +:+ "x"; "y"]
    = Ret (se, Some e)
    /\ ["TIME" +:+ status3FieldSep +:+ "now" +:+ status3FieldSep +:+ "x"; "y"]
       = read ++ line :: rest
    /\ NewStatus3Event read = Ret (before, None)
    /\ Split line status3FieldSep = status3TimeKW :: human :: raw :: more
    /\ ParseInt raw = (Status3Event.ts se, Some e)
    /\ se = Status3Event.set_time human raw (Status3Event.ts se) before.
Proof.
  destruct (NewStatus3Event
              ["TIME" +:+ status3FieldSep +:+ "now" +:+ status3FieldSep +:+ "x"; "y"])
    as [[se [e|]]|] eqn:H; try (vm_compute in H; discriminate H).
  exists se, e.
  destruct (NewStatus3Event_error_is_time _ se e H)
    as (read & line & rest & before & human & raw & more & G).
  exists read, line, rest, before, human, raw, more. split; [reflexivity|exact G].
Defined.

(** What one line that is read without an error does to the title, the
    time and the two maps. *)
Lemma status3_line_scalars (se se' : Status3Event.t) (line : string) (err : option error) :
  status3_line se line = Ret (se', err) ->
  let ty := line_type line in
  let fields := line_fields line in
  Status3Event.title se'
  = (if decide (ty = status3TitleKW) then Join fields status3FieldSep else Status3Event.title se)
  /\ (Status3Event.rawHumanTS se', Status3Event.rawTS se', Status3Event.ts se')
     = (if decide (ty = status3TimeKW)
        then (column fields 0, column fields 1, fst (ParseInt (column fields 1)))
        else (Status3Event.rawHumanTS se, Status3Event.rawTS se, Status3Event.ts se))
  /\ Status3Event.headers se'
     = (if decide (ty = status3HeaderKW)
        then <[column fields 0 := drop 1 fields]> (Status3Event.headers se)
        else Status3Event.headers se)
  /\ Status3Event.extra se'
     = (if decide (ty ∈ status3_keywords) then Status3Event.extra se
        else <[ty := fields]> (Status3Event.extra se)).
Proof.
  rewrite status3_line_cut. cbv zeta. unfold status3_keywords.
  destruct (String.eqb_spec (line_type line) status3TitleKW) as [E|N1].
  { intros [= <- <-]. rewrite E. by cbn. }
  destruct (String.eqb_spec (line_type line) status3TimeKW) as [E|N2].
  { intros H. rewrite E.
    destruct (line_fields line) as [|h [|r more]]; [done|done|].
    change (at_index (h :: r :: more) 0) with (Ret h) in H.
    change (at_index (h :: r :: more) 1) with (Ret r) in H. rewrite !bind_Ret in H.
    change (column (h :: r :: more) 0) with h. change (column (h :: r :: more) 1) with r.
    destruct (ParseInt r) as [ts e]. injection H as <- <-. by cbn. }
  destruct (String.eqb_spec (line_type line) status3HeaderKW) as [E|N3].
  { intros H. rewrite E. destruct (line_fields line) as [|h more]; [done|].
    change (at_index (h :: more) 0) with (Ret h) in H.
    change (slice_from (h :: more) 1) with (Ret more) in H. rewrite !bind_Ret in H.
    injection H as <- <-. by cbn. }
  assert (Hrow : forall se1, (Ret (se1, None) : outcome _) = Ret (se', err) ->
            Status3Event.title se1 = Status3Event.title se ->
            Status3Event.rawHumanTS se1 = Status3Event.rawHumanTS se ->
            Status3Event.rawTS se1 = Status3Event.rawTS se ->
            Status3Event.ts se1 = Status3Event.ts se ->
            Status3Event.headers se1 = Status3Event.headers se ->
            Status3Event.extra se1
            = (if decide (line_type line ∈ status3_keywords) then Status3Event.extra se
               else <[line_type line := line_fields line]> (Status3Event.extra se)) ->
            Status3Event.title se' = Status3Event.title se
            /\ (Status3Event.rawHumanTS se', Status3Event.rawTS se', Status3Event.ts se')
               = (Status3Event.rawHumanTS se, Status3Event.rawTS se, Status3Event.ts se)
            /\ Status3Event.headers se' = Status3Event.headers se
            /\ Status3Event.extra se'
               = (if decide (line_type line ∈ status3_keywords) then Status3Event.extra se
                  else <[line_type line := line_fields line]> (Status3Event.extra se))).
  { intros se1 [= <- _] E1 E2 E3 E4 E5 E6. by rewrite E1, E2, E3, E4, E5, E6. }
  rewrite (decide_False (P := line_type line = status3TitleKW)) by done.
  rewrite (decide_False (P := line_type line = status3TimeKW)) by done.
  rewrite (decide_False (P := line_type line = status3HeaderKW)) by done.
  fold status3_keywords.
  destruct (String.eqb_spec (line_type line) status3ClientListKW) as [E|N4].
  { assert (Hin : line_type line ∈ status3_keywords) by (rewrite E; unfold status3_keywords; rewrite !elem_of_cons; tauto).
    destruct (decide (0 < _)%nat); intros H; apply (Hrow _ H); try done;
      by rewrite decide_True. }
  destruct (String.eqb_spec (line_type line) status3RoutingTableKW) as [E|N5].
  { assert (Hin : line_type line ∈ status3_keywords) by (rewrite E; unfold status3_keywords; rewrite !elem_of_cons; tauto).
    destruct (decide (0 < _)%nat); intros H; apply (Hrow _ H); try done;
      by rewrite decide_True. }
  intros H. apply (Hrow _ H); try done. cbn [Status3Event.extra Status3Event.set_extra].
  rewrite decide_False; [done|]. unfold status3_keywords.
  rewrite !elem_of_cons, elem_of_nil. tauto.
Qed.

Lemma overridden_last_cons {A} (x : A) (l : list A) (earlier : A) :
  overridden earlier (last (x :: l)) = overridden x (last l).
Proof. rewrite last_cons. by destruct (last l). Qed.

Ltac case_last := match goal with |- context [last ?l] => destruct (last l) end.

Lemma status3_lines_scalars (se se' : Status3Event.t) (payload : list string) :
  status3_lines se payload = Ret (se', None) ->
  Status3Event.title se'
  = overridden (Status3Event.title se)
      ((fun f => Join f status3FieldSep) <$> last_fields status3TitleKW payload)
  /\ (Status3Event.rawHumanTS se', Status3Event.rawTS se', Status3Event.ts se')
     = overridden (Status3Event.rawHumanTS se, Status3Event.rawTS se, Status3Event.ts se)
         ((fun f => (column f 0, column f 1, fst (ParseInt (column f 1))))
            <$> last_fields status3TimeKW payload)
  /\ (forall h, Status3Event.headers se' !! h
                = overridden (Status3Event.headers se !! h)
                    (Some <$> last (drop 1 <$> filter (fun f => column f 0 = h)
                         (line_fields <$> filter (fun l => line_type l = status3HeaderKW) payload))))
  /\ (forall ty, ty ∉ status3_keywords ->
        Status3Event.extra se' !! ty
        = overridden (Status3Event.extra se !! ty) (Some <$> last_fields ty payload))
  /\ (forall ty, ty ∈ status3_keywords ->
        Status3Event.extra se' !! ty = Status3Event.extra se !! ty).
Proof.
  revert se. induction payload as [|line rest IH]; intros se; cbn [status3_lines].
  { intros [= <-]. by repeat split. }
  intros H. apply bind_Ret_inv in H as ([se1 [e|]] & Hl & H); [done|].
  apply status3_line_scalars in Hl as (L1 & L2 & L3 & L4). cbv zeta in *.
  destruct (IH _ H) as (I1 & I2 & I3 & I4 & I5). clear IH H.
  unfold last_fields in *. rewrite !filter_cons.
  split; [|split; [|split; [|split]]].
  - rewrite I1, L1. destruct (decide (line_type line = status3TitleKW)); [|done].
    cbn [fmap list_fmap]. rewrite last_cons.
    case_last; reflexivity.
  - rewrite I2, L2. destruct (decide (line_type line = status3TimeKW)); [|done].
    cbn [fmap list_fmap]. rewrite last_cons.
    case_last; reflexivity.
  - intros h. rewrite I3, L3. destruct (decide (line_type line = status3HeaderKW)); [|done].
    cbn [fmap list_fmap]. rewrite filter_cons.
    destruct (decide (column (line_fields line) 0 = h)) as [<-|Hh].
    + cbn [fmap list_fmap]. rewrite last_cons, lookup_insert_eq.
      case_last; reflexivity.
    + by rewrite lookup_insert_ne.
  - intros ty Hty. rewrite (I4 ty Hty), L4, filter_cons.
    destruct (decide (line_type line ∈ status3_keywords)) as [Hin|Hout].
    + rewrite decide_False by (intros E; by rewrite E in Hin). done.
    + destruct (decide (line_type line = ty)) as [<-|Hne].
      * cbn [fmap list_fmap]. rewrite last_cons, lookup_insert_eq.
        case_last; reflexivity.
      * by rewrite lookup_insert_ne.
  - intros ty Hty. rewrite (I5 ty Hty), L4.
    destruct (decide (line_type line ∈ status3_keywords)) as [Hin|Hout]; [done|].
    rewrite lookup_insert_ne; [done|]. intros E. by rewrite E in Hout.
Qed.

Lemma title_line (t : string) :
  line_type (status3TitleKW +:+ status3FieldSep +:+ t) = status3TitleKW
  /\ Join (line_fields (status3TitleKW +:+ status3FieldSep +:+ t)) status3FieldSep = t.
Proof.
  unfold line_type, line_fields, Split, SplitN. cbn [Z.eqb Z.ltb Z.compare].
  change (String.eqb status3FieldSep "") with false. cbv iota.
  rewrite !length_append. change (String.length status3TitleKW) with 5%nat.
  change (String.length status3FieldSep) with 1%nat. cbn [Nat.add].
  change (status3FieldSep +:+ t) with (String (ascii_of_nat 9) t).
  change status3FieldSep with (String (ascii_of_nat 9) "").
  rewrite split_cuts_cons by reflexivity. cbn [head tail default].
  split; [done|]. apply Join_split_cuts.
Qed.

(** X23: in a snapshot parsed without an error, the last line of a kind
    wins.  The title is the text after "TITLE" and its tab on the last TITLE
    line, tabs included; the time fields are those of the last TIME line; a
    header name maps to the columns of the last HEADER line with that name;
    every other line type that is not a row maps, in the extra table, to the
    fields of the last line of that type, and the five known types never
    appear there.  Without such a line the field is empty. *)
Theorem Status3_last_line_wins (payload : list string) (se : Status3Event.t) :
  NewStatus3Event payload = Ret (se, None) ->
  Status3Event.title se
  = default "" ((fun f => Join f status3FieldSep) <$> last_fields status3TitleKW payload)
  /\ (forall t, Join (line_fields (status3TitleKW +:+ status3FieldSep +:+ t)) status3FieldSep = t)
  /\ (Status3Event.rawHumanTS se, Status3Event.rawTS se, Status3Event.Timestamp se)
     = default ("", "", 0)
         ((fun f => (column f 0, column f 1, fst (ParseInt (column f 1))))
            <$> last_fields status3TimeKW payload)
  /\ (forall h, Status3Event.headers se !! h
                = last (drop 1 <$> filter (fun f => column f 0 = h)
                    (line_fields <$> filter (fun l => line_type l = status3HeaderKW) payload)))
  /\ (forall ty, ty ∉ status3_keywords -> Status3Event.extra se !! ty = last_fields ty payload)
  /\ (forall ty, ty ∈ status3_keywords -> Status3Event.extra se !! ty = None).
Proof.
  intros H. apply status3_lines_scalars in H as (H1 & H2 & H3 & H4 & H5).
  split; [exact H1|]. split; [intros t; apply title_line|]. split; [exact H2|].
  split; [|split].
  - intros h. rewrite H3. cbn [Status3Event.headers Status3Event.empty].
    rewrite lookup_empty. case_last; reflexivity.
  - intros ty Hty. rewrite (H4 ty Hty). cbn [Status3Event.extra Status3Event.empty].
    rewrite lookup_empty. by destruct (last_fields ty payload).
  - intros ty Hty. by rewrite (H5 ty Hty).
Qed.

Lemma Status3_last_line_wins_witness :
  exists se,
    NewStatus3Event ["TITLE" +:+ status3FieldSep +:+ "a"; "X" +:+ status3FieldSep +:+ "1";
                     "TITLE" +:+ status3FieldSep +:+ "b"; "X" +:+ status3FieldSep +:+ "2"]
    = Ret (se, None)
    /\ Status3Event.title se = "b"
    /\ Status3Event.extra se !! "X" = Some ["2"].
Proof.
  destruct (NewStatus3Event
              ["TITLE" +:+ status3FieldSep +:+ "a"; "X" +:+ status3FieldSep +:+ "1";
               "TITLE" +:+ status3FieldSep +:+ "b"; "X" +:+ status3FieldSep +:+ "2"])
    as [[se [e|]]|] eqn:H; try (vm_compute in H; discriminate H).
  exists se. split; [reflexivity|].
  destruct (Status3_last_line_wins _ se H) as (H1 & _ & _ & _ & H5 & _).
  split; [rewrite H1; reflexivity|].
  rewrite H5; [reflexivity|]. unfold status3_keywords. intros Hin.
  repeat (apply elem_of_cons in Hin as [Hin|Hin]; [discriminate Hin|]).
  by apply elem_of_nil in Hin.
Defined.

(** ** Addresses and rows *)

(** X25: [ParseIPAddrPort] returns a nil pointer exactly when it returns
    an error, and [ParseIPAddr] a nil address exactly when it returns an
    error.  [SafeParseIP4Addr] and [SafeParseIP6Addr] never return nil: they
    give the parsed address when the text parses, and the unspecified
    address 0.0.0.0, or ::, when it does not. *)
Theorem address_parsers_nil (s : string) :
  (fst (ParseIPAddrPort s) = None <-> snd (ParseIPAddrPort s) <> None)
  /\ (fst (ParseIPAddr s) = None <-> snd (ParseIPAddr s) <> None)
  /\ SafeParseIP4Addr s <> None
  /\ SafeParseIP6Addr s <> None
  /\ (forall ip, ParseIP s = Some ip ->
        SafeParseIP4Addr s = Some ip /\ SafeParseIP6Addr s = Some ip)
  /\ (ParseIP s = None ->
        SafeParseIP4Addr s = ParseIP "0.0.0.0" /\ SafeParseIP6Addr s = ParseIP "::").
Proof.
  split; [|split; [|split; [|split; [|split]]]].
  - unfold ParseIPAddrPort. destruct (SplitHostPort s) as [[host sPort] [e|]]; [done|].
    unfold ParseIPAddr. destruct (ParseIP host); [|done].
    by destruct (Atoi sPort) as [port [e|]].
  - unfold ParseIPAddr. by destruct (ParseIP s).
  - unfold SafeParseIP4Addr. destruct (ParseIP s); [done|]. vm_compute. discriminate.
  - unfold SafeParseIP6Addr. destruct (ParseIP s); [done|]. vm_compute. discriminate.
  - intros ip H. unfold SafeParseIP4Addr, SafeParseIP6Addr. by rewrite H.
  - intros H. unfold SafeParseIP4Addr, SafeParseIP6Addr. by rewrite H.
Qed.

Lemma column_short (row : list string) (i : nat) : (length row <= i)%nat -> column row i = "".
Proof. intros H. unfold column. by rewrite lookup_ge_None_2. Qed.

(** X26: a row that is cut short is never valid.  A CLIENT_LIST row with
    fewer than eleven fields (so without a peer id) and a ROUTING_TABLE row
    with fewer than five (so without a last-reference time) are padded with
    empty fields, which no integer column accepts: the constructors do not
    panic and the row records at least one error. *)
Theorem short_rows_are_invalid (row : list string) :
  ((length row <= CLPeerId)%nat ->
   exists c, NewStatus3Client row = Ret c
             /\ (0 < length (Status3Client.ParsingErrors c))%nat)
  /\ ((length row <= RTLastRefTimestamp)%nat ->
      exists r, NewStatus3Route row = Ret r
                /\ (0 < length (Status3Route.ParsingErrors r))%nat).
Proof.
  split; intros Hlen.
  - exists (client_row row). split; [apply NewStatus3Client_eq|].
    assert (H : ~ Forall (fun c => c = None) (client_row_checks row)).
    { unfold client_row_checks. rewrite (column_short row CLPeerId Hlen).
      rewrite !Forall_cons. intros (_ & _ & _ & _ & _ & H & _).
      vm_compute in H. discriminate H. }
    rewrite <- recorded_none in H.
    change (Status3Client.ParsingErrors (client_row row)) with (recorded (client_row_checks row)).
    lia.
  - exists (route_row row). split; [apply NewStatus3Route_eq|].
    assert (H : ~ Forall (fun c => c = None) (route_row_checks row)).
    { unfold route_row_checks. rewrite (column_short row RTLastRefTimestamp Hlen).
      rewrite !Forall_cons. intros (_ & H & _). vm_compute in H. discriminate H. }
    rewrite <- recorded_none in H.
    change (Status3Route.ParsingErrors (route_row row)) with (recorded (route_row_checks row)).
    lia.
Qed.

(** ** Starting and stopping the poller *)

Lemma close_last (n : nat) :
  close_chan n (replicate n true ++ [false]) = Some (replicate (S n) true).
Proof.
  unfold close_chan.
  rewrite lookup_app_r by (rewrite length_replicate; lia).
  rewrite length_replicate, Nat.sub_diag. cbn [lookup list_lookup].
  f_equal. induction n as [|n IH]; [done|]. simpl. f_equal. exact IH.
Qed.

Lemma filter_none {A} (P : A -> Prop) `{forall x, Decision (P x)} (l : list A) :
  Forall (fun x => ~ P x) l -> filter P l = [].
Proof.
  induction 1 as [|x l Hx _ IH]; [done|]. by rewrite filter_cons, decide_False.
Qed.

Lemma SetStatus3Events_step (interval : Z) (p : poller) :
  poller_ok p ->
  exists p',
    SetStatus3Events interval p = Some (0 <? interval, p')
    /\ poller_ok p'
    /\ ticking p' = if 0 <? interval then [(interval, doneStatus3Gen p')] else [].
Proof.
  intros [Hc Hg]. unfold SetStatus3Events. rewrite Hc, close_last.
  cbn [mbind option_bind]. rewrite length_replicate.
  assert (Hold : forall cs,
             filter (fun g : Z * nat => (replicate (S (doneStatus3Gen p)) true ++ cs) !! snd g
                                         = Some false) (generators p) = []).
  { intros cs. apply filter_none. eapply Forall_impl; [exact Hg|].
    intros g Hle. cbn beta in *. rewrite lookup_app_l by (rewrite length_replicate; lia).
    rewrite lookup_replicate_2 by lia. done. }
  destruct (0 <? interval); eexists; (split; [reflexivity|]); split.
  - split; [done|]. cbn [generators doneStatus3Gen]. apply Forall_app. split.
    + eapply Forall_impl; [exact Hg|]. cbn. lia.
    + by repeat constructor.
  - unfold ticking. cbn [generators chans doneStatus3Gen]. rewrite filter_app, Hold.
    rewrite filter_cons, decide_True; [done|]. cbn [snd].
    rewrite lookup_app_r by (rewrite length_replicate; lia).
    by rewrite length_replicate, Nat.sub_diag.
  - split; [done|]. cbn [generators doneStatus3Gen].
    eapply Forall_impl; [exact Hg|]. cbn. lia.
  - unfold ticking. cbn [generators chans doneStatus3Gen]. apply Hold.
Qed.

Lemma SetStatus3Events_seq_ok (intervals : list Z) (p : poller) :
  poller_ok p ->
  exists p',
    SetStatus3Events_seq intervals p = Some ((fun i => 0 <? i) <$> intervals, p')
    /\ poller_ok p'
    /\ ticking p' = match last intervals with
                    | Some i => if 0 <? i then [(i, doneStatus3Gen p')] else []
                    | None => ticking p
                    end.
Proof.
  revert p. induction intervals as [|i rest IH]; intros p Hp; cbn [SetStatus3Events_seq].
  { by exists p. }
  destruct (SetStatus3Events_step i p Hp) as (p1 & -> & Hp1 & Ht1). cbn [mbind option_bind].
  destruct (IH p1 Hp1) as (p2 & Hs2 & Hp2 & Ht2). rewrite Hs2. cbn [mbind option_bind].
  exists p2. split; [done|]. split; [done|]. rewrite last_cons, Ht2.
  destruct (last rest) eqn:Hlast; [done|].
  apply last_None in Hlast as ->. injection Hs2 as <-. exact Ht1.
Qed.

(** X24: [SetStatus3Events] can be called any number of times on a new
    client.  No call closes a channel twice, each returns true exactly when
    its interval is positive, and afterwards at most one poller goroutine is
    still running: the one started by the last call if its interval was
    positive, and none otherwise.  Every earlier goroutine has had its done
    channel closed. *)
Theorem SetStatus3Events_one_generator (intervals : list Z) :
  exists p,
    SetStatus3Events_seq intervals poller_new = Some ((fun i => 0 <? i) <$> intervals, p)
    /\ ticking p = match last intervals with
                   | Some i => if 0 <? i then [(i, doneStatus3Gen p)] else []
                   | None => []
                   end.
Proof.
  destruct (SetStatus3Events_seq_ok intervals poller_new) as (p & Hs & _ & Ht).
  { split; [done|constructor]. }
  exists p. split; [done|]. rewrite Ht. by destruct (last intervals).
Qed.
